(** * gocrete: the template application and module composition engine

    A shallow embedding of [internal/engine], [internal/modules] and the
    [init] command of [internal/cmd], together with the parts of the Go
    standard library they call ([strings], [os], [io/fs], [text/template]).

    Conventions of the embedding:
    - a Go [string] / [[]byte] is a Rocq [string] (a sequence of bytes);
    - a Go [error] is its message; [nil] is [Ok];
    - a Go [map[string]T] is a [gmap string T];
    - a file-system path is the list of its components, so that
      [filepath.Join] of two clean paths is list concatenation and
      [filepath.Rel] removes a prefix; a project name given on the command
      line is cleaned as [filepath.Join] cleans it; the destination tree is
      a finite map from paths to nodes;
    - effects (the destination tree, standard output, external tools) are
      threaded through an explicit [World]. *)

From Stdlib Require Import String Ascii List Bool Arith Lia DecimalString.
From stdpp Require Import base option list gmap strings.

Set Warnings "-register-all".

(** ** Results of fallible calls *)

Inductive result (A : Type) : Type :=
| Ok (a : A)
| Err (msg : string).
Arguments Ok {A} a.
Arguments Err {A} msg.

Definition result_map {A B} (f : A -> B) (r : result A) : result B :=
  match r with
  | Ok a => Ok (f a)
  | Err e => Err e
  end.

Definition is_err {A} (r : result A) : bool :=
  match r with
  | Ok _ => false
  | Err _ => true
  end.

(** [fmt.Errorf("<prefix>: %w", err)] *)
Definition wrap (prefix : string) (e : string) : string := prefix +:+ ": " +:+ e.

(** ** Package [strings] *)

Module Strings.

Fixpoint HasPrefix (s prefix : string) {struct prefix} : bool :=
  match prefix with
  | "" => true
  | String p prefix' =>
      match s with
      | "" => false
      | String c s' => if Ascii.eqb c p then HasPrefix s' prefix' else false
      end
  end.

Fixpoint drop (n : nat) (s : string) : string :=
  match n with
  | O => s
  | S n' => match s with
            | "" => ""
            | String _ s' => drop n' s'
            end
  end.

Definition TrimPrefix (s prefix : string) : string :=
  if HasPrefix s prefix then drop (String.length prefix) s else s.

Definition HasSuffix (s suffix : string) : bool :=
  HasPrefix (String.rev s) (String.rev suffix).

Definition TrimSuffix (s suffix : string) : string :=
  if HasSuffix s suffix
  then String.rev (drop (String.length suffix) (String.rev s))
  else s.

(** [strings.Split(s, sep)] for a one-byte separator: the pieces between
    the separators, one more piece than there are separators. *)
Fixpoint Split (s : string) (sep : ascii) : list string :=
  match s with
  | "" => [""]
  | String c s' =>
      if Ascii.eqb c sep then "" :: Split s' sep
      else match Split s' sep with
           | piece :: pieces => String c piece :: pieces
           | [] => [String c ""]
           end
  end.

(** No byte of [s] is [x]. *)
Fixpoint noByte (x : ascii) (s : string) : bool :=
  match s with
  | "" => true
  | String c r => negb (Ascii.eqb c x) && noByte x r
  end.

(** [strings.Join(elems, sep)] *)
Fixpoint Join (elems : list string) (sep : string) : string :=
  match elems with
  | [] => ""
  | [e] => e
  | e :: rest => e +:+ sep +:+ Join rest sep
  end.

(** The value of a byte. *)
Definition code (c : ascii) : nat := nat_of_ascii c.

(** The white space of [unicode.IsSpace] below U+0080:
    tab, line feed, vertical tab, form feed, carriage return, space. *)
Definition asciiSpace (c : ascii) : bool :=
  let n := code c in
  (Nat.leb 9 n && Nat.leb n 13) || Nat.eqb n 32.

(** [cutSpace s] removes one white-space rune from the front of [s], when
    there is one.  Above U+007F the runes of [unicode.IsSpace] are U+0085,
    U+00A0, U+1680, U+2000..U+200A, U+2028, U+2029, U+202F, U+205F and
    U+3000, matched here by their UTF-8 encodings. *)
Definition cutSpace (s : string) : option string :=
  match s with
  | "" => None
  | String c r =>
      if asciiSpace c then Some r
      else
        match r with
        | "" => None
        | String d r1 =>
            if Nat.eqb (code c) 194 then
              if Nat.eqb (code d) 133 || Nat.eqb (code d) 160 then Some r1 else None
            else
              match r1 with
              | "" => None
              | String e r2 =>
                  let c := code c in
                  let d := code d in
                  let e := code e in
                  if Nat.eqb c 225 && Nat.eqb d 154 && Nat.eqb e 128 then Some r2
                  else if Nat.eqb c 226 && Nat.eqb d 128
                          && ((Nat.leb 128 e && Nat.leb e 138)
                              || Nat.eqb e 168 || Nat.eqb e 169 || Nat.eqb e 175)
                  then Some r2
                  else if Nat.eqb c 226 && Nat.eqb d 129 && Nat.eqb e 159 then Some r2
                  else if Nat.eqb c 227 && Nat.eqb d 128 && Nat.eqb e 128 then Some r2
                  else None
              end
        end
  end.

(** The same on a reversed string: removes one white-space rune from the
    end of the original. *)
Definition cutSpaceRev (s : string) : option string :=
  match s with
  | "" => None
  | String c r =>
      if asciiSpace c then Some r
      else
        match r with
        | "" => None
        | String d r1 =>
            if Nat.eqb (code d) 194 && (Nat.eqb (code c) 133 || Nat.eqb (code c) 160)
            then Some r1
            else
              match r1 with
              | "" => None
              | String e r2 =>
                  let c := code c in
                  let d := code d in
                  let e := code e in
                  if Nat.eqb e 225 && Nat.eqb d 154 && Nat.eqb c 128 then Some r2
                  else if Nat.eqb e 226 && Nat.eqb d 128
                          && ((Nat.leb 128 c && Nat.leb c 138)
                              || Nat.eqb c 168 || Nat.eqb c 169 || Nat.eqb c 175)
                  then Some r2
                  else if Nat.eqb e 226 && Nat.eqb d 129 && Nat.eqb c 159 then Some r2
                  else if Nat.eqb e 227 && Nat.eqb d 128 && Nat.eqb c 128 then Some r2
                  else None
              end
        end
  end.

(** Repeats [cut] at most [n] times; every cut shortens the string, so
    [String.length s] repetitions always reach the fixed point. *)
Fixpoint trimWith (cut : string -> option string) (n : nat) (s : string) : string :=
  match n with
  | O => s
  | S n' => match cut s with
            | Some r => trimWith cut n' r
            | None => s
            end
  end.

Definition TrimLeftSpace (s : string) : string :=
  trimWith cutSpace (String.length s) s.

Definition TrimRightSpace (s : string) : string :=
  String.rev (trimWith cutSpaceRev (String.length s) (String.rev s)).

(** [strings.TrimSpace] *)
Definition TrimSpace (s : string) : string :=
  TrimRightSpace (TrimLeftSpace s).

End Strings.

(** ** Package [text/template]

    The part of the template language that the bundles and the documents of
    the repository use, as [template.New("template").Parse] and [Execute]
    treat it (Go 1.22, default options, no user functions):
    - text, comments, and actions between the delimiters, with the trim
      markers on either side;
    - an action printing a command, and [if], [else], [else if], [range],
      [with] and [end];
    - a command made of operands separated by spaces: the dot, a field of
      the dot ([.Key]), a double-quoted string without escapes, [true] and
      [false], or a call of one of [eq], [ne], [not], [and], [or];
    - data that is a map from names to strings and booleans, as the engine
      builds it.
    The library's defaults are kept; in particular [missingkey] is left at
    its default, under which a key absent from the map evaluates to the
    invalid value, printed as [<no value>] and false as a condition.

    What lies outside this part (pipes, parentheses, variables, numbers,
    characters, raw strings, escapes in strings, chains of fields,
    [define], [template], [block], [break], [continue], [nil], the other
    predefined functions, letters outside ASCII in an action) is not given
    a meaning: the lexer ends with a token [ItemOther], and [Parse] and
    [Execute] answer the error [unsupported], which says nothing about what
    the library does. *)

Module Template.

(** The values the engine stores in [TemplateData]. *)
Inductive Value : Type :=
| VString (s : string)
| VBool (b : bool).

(** The answer of the model outside the part of the language it covers. *)
Definition unsupported : string :=
  "text/template: outside the part of the language that is modelled".

(** The double quote and the backslash. *)
Definition dquote : ascii := ascii_of_nat 34.
Definition backslash : ascii := ascii_of_nat 92.
Definition newline : ascii := ascii_of_nat 10.

(** A number in decimal, as [%d] prints it. *)
Definition showNat (n : nat) : string := NilZero.string_of_uint (Nat.to_uint n).

(** *** The lexer ([text/template/parse/lex.go]) *)

Inductive itemType : Type :=
| ItemError | ItemBool | ItemEOF | ItemField | ItemIdentifier | ItemLeftDelim
| ItemRightDelim | ItemSpace | ItemString
| ItemDot | ItemElse | ItemEnd | ItemIf | ItemRange | ItemWith
| ItemOther.

(** A run of text, or a token with its value, the line it starts on
    (counted from 1) and the number of bytes before it on that line. *)
Inductive item : Type :=
| Text (s : string)
| Tok (t : itemType) (v : string) (line col : nat).

Definition typeOf (i : item) : option itemType :=
  match i with
  | Text _ => None
  | Tok t _ _ _ => Some t
  end.

Definition lineOf (i : item) : nat :=
  match i with
  | Text _ => 0
  | Tok _ _ l _ => l
  end.

(** [isSpace]: the white space of an action and of the trim markers. *)
Definition isSpace (c : ascii) : bool :=
  Ascii.eqb c " " || Ascii.eqb c (ascii_of_nat 9) || Ascii.eqb c (ascii_of_nat 13)
  || Ascii.eqb c newline.

Definition isLetter (c : ascii) : bool :=
  let n := nat_of_ascii c in
  (Nat.leb 65 n && Nat.leb n 90) || (Nat.leb 97 n && Nat.leb n 122) || Nat.eqb n 95.

Definition isDigit (c : ascii) : bool :=
  let n := nat_of_ascii c in
  Nat.leb 48 n && Nat.leb n 57.

(** [isAlphaNumeric], on ASCII. *)
Definition isAlnum (c : ascii) : bool := isLetter c || isDigit c.

Fixpoint allAlnum (s : string) : bool :=
  match s with
  | "" => true
  | String c r => isAlnum c && allAlnum r
  end.

Definition isIdent (s : string) : bool :=
  match s with
  | "" => false
  | String c r => isLetter c && allAlnum r
  end.

(** [hasLeftTrimMarker]: a minus and a space after the left delimiter. *)
Definition hasLeftTrimMarker (s : string) : bool :=
  match s with
  | String c (String d _) => Ascii.eqb c "-" && isSpace d
  | _ => false
  end.

(** [atRightDelim], the case with a trim marker: a space, a minus and the
    right delimiter. *)
Definition atTrimRightDelim (s : string) : bool :=
  match s with
  | String c (String d r) => isSpace c && Ascii.eqb d "-" && Strings.HasPrefix r "}}"
  | _ => false
  end.

(** [atTerminator]: what may follow a field or a word. *)
Definition atTerminator (s : string) : bool :=
  match s with
  | "" => true
  | String c _ =>
      isSpace c || Ascii.eqb c "." || Ascii.eqb c "," || Ascii.eqb c "|"
      || Ascii.eqb c ":" || Ascii.eqb c ")" || Ascii.eqb c "("
      || Strings.HasPrefix s "}}"
  end.

Definition headIs (p : ascii -> bool) (s : string) : bool :=
  match s with
  | "" => false
  | String c _ => p c
  end.

(** The text with the white space at its end removed; [acc] holds the text
    backwards. *)
Fixpoint dropSpaces (acc : string) : string :=
  match acc with
  | "" => ""
  | String c r => if isSpace c then dropSpaces r else acc
  end.

(** The states of the lexer.  Every step reads one byte; what is to be
    read next decides where a token ends. *)
Inductive state : Type :=
| InText (acc : string) (trimming : bool)
    (* in text; [acc] is the pending text backwards, [trimming] tells that
       the white space at its start is being dropped *)
| Skip (n : nat) (next : state)      (* [n] more bytes of a delimiter or marker *)
| CommentStart                        (* on the slash that opens a comment *)
| InComment (sl sc : nat)             (* in a comment that began at [sl]:[sc] *)
| TrimmedRightDelim                   (* on the right delimiter after its marker *)
| Inside                              (* in an action, between two tokens *)
| InSpace (sl sc : nat)
| InField (acc : string) (sl sc : nat)
| InIdentifier (acc : string) (sl sc : nat)
| InQuote (acc : string) (sl sc : nat)
| Stop.                               (* after an error: nothing more is read *)

Definition other (ln cl : nat) : list item * state := ([Tok ItemOther "" ln cl], Stop).

(** A text is a token when it is not empty. *)
Definition textItem (txt : string) : list item :=
  match txt with
  | "" => []
  | String _ _ => [Text txt]
  end.

(** The token of a word: a keyword, a boolean constant or an identifier. *)
Definition wordItem (w : string) (sl sc : nat) : list item * state :=
  if decide (w = "else") then ([Tok ItemElse w sl sc], Inside)
  else if decide (w = "end") then ([Tok ItemEnd w sl sc], Inside)
  else if decide (w = "if") then ([Tok ItemIf w sl sc], Inside)
  else if decide (w = "range") then ([Tok ItemRange w sl sc], Inside)
  else if decide (w = "with") then ([Tok ItemWith w sl sc], Inside)
  else if decide (w = "true") then ([Tok ItemBool w sl sc], Inside)
  else if decide (w = "false") then ([Tok ItemBool w sl sc], Inside)
  else if decide (w ∈ ["block"; "break"; "continue"; "define"; "nil"; "template"])
  then other sl sc
  else ([Tok ItemIdentifier w sl sc], Inside).

(** After a byte of a run of spaces.  The space of a trim marker is not
    part of the run. *)
Definition spaceStep (sl sc : nat) (r : string) : list item * state :=
  if headIs isSpace r && negb (atTrimRightDelim r) then ([], InSpace sl sc)
  else ([Tok ItemSpace " " sl sc], Inside).

(** After a byte of a field name; [acc] holds the name backwards. *)
Definition fieldStep (acc : string) (sl sc : nat) (r : string) : list item * state :=
  if headIs isAlnum r then ([], InField acc sl sc)
  else if atTerminator r then ([Tok ItemField (String "." (String.rev acc)) sl sc], Inside)
  else other sl sc.

(** After a byte of a word. *)
Definition wordStep (acc : string) (sl sc : nat) (r : string) : list item * state :=
  if headIs isAlnum r then ([], InIdentifier acc sl sc)
  else if atTerminator r then wordItem (String.rev acc) sl sc
  else other sl sc.

(** One step: the state, the position [ln]:[cl] of the byte [c] that is
    read, and what follows it. *)
Definition step (st : state) (ln cl : nat) (c : ascii) (r : string)
  : list item * state :=
  match st with
  | InText acc trimming =>
      if Ascii.eqb c "{" && headIs (Ascii.eqb "{") r then
        (* [lexText] on a left delimiter, then [lexLeftDelim] *)
        let after := Strings.drop 1 r in
        let trim := hasLeftTrimMarker after in
        let marker := if trim then 2 else 0 in
        let out := textItem (String.rev (if trim then dropSpaces acc else acc)) in
        if Strings.HasPrefix (Strings.drop marker after) "/*"
        then (out, Skip (1 + marker) CommentStart)
        else (out ++ [Tok ItemLeftDelim "{{" ln cl], Skip (1 + marker) Inside)
      else if trimming && isSpace c then ([], InText acc true)
      else ([], InText (String c acc) false)
  | Skip n next =>
      match n with
      | S (S m) => ([], Skip (S m) next)
      | _ => ([], next)
      end
  | CommentStart => ([], Skip 1 (InComment ln cl))
  | InComment sl sc =>
      (* [lexComment] *)
      if Ascii.eqb c "*" && headIs (Ascii.eqb "/") r then
        let after := Strings.drop 1 r in
        if Strings.HasPrefix after "}}" then ([], Skip 3 (InText "" false))
        else if atTrimRightDelim after then ([], Skip 5 (InText "" true))
        else ([Tok ItemError "comment ends before closing delimiter" sl sc], Stop)
      else ([], InComment sl sc)
  | TrimmedRightDelim => ([Tok ItemRightDelim "}}" ln cl], Skip 1 (InText "" true))
  | Inside =>
      (* [lexInsideAction] *)
      if Ascii.eqb c "}" && headIs (Ascii.eqb "}") r
      then ([Tok ItemRightDelim "}}" ln cl], Skip 1 (InText "" false))
      else if atTrimRightDelim (String c r) then ([], Skip 1 TrimmedRightDelim)
      else if isSpace c then spaceStep ln cl r
      else if Ascii.eqb c dquote then ([], InQuote "" ln cl)
      else if Ascii.eqb c "." then
        match r with
        | "" => other ln cl
        | String d _ =>
            if isDigit d then other ln cl
            else if atTerminator r then ([Tok ItemDot "." ln cl], Inside)
            else if isAlnum d then ([], InField "" ln cl)
            else other ln cl
        end
      else if isLetter c then wordStep (String c "") ln cl r
      else other ln cl
  | InSpace sl sc => spaceStep sl sc r
  | InField acc sl sc => fieldStep (String c acc) sl sc r
  | InIdentifier acc sl sc => wordStep (String c acc) sl sc r
  | InQuote acc sl sc =>
      (* [lexQuote] *)
      if Ascii.eqb c dquote then ([Tok ItemString (String.rev acc) sl sc], Inside)
      else if Ascii.eqb c newline
      then ([Tok ItemError "unterminated quoted string" sl sc], Stop)
      else if Ascii.eqb c backslash || Nat.leb 128 (nat_of_ascii c) then other sl sc
      else ([], InQuote (String c acc) sl sc)
  | Stop => ([], Stop)
  end.

(** At the end of the input. *)
Definition atEOF (st : state) (ln cl : nat) : list item :=
  match st with
  | InText acc _ => textItem (String.rev acc) ++ [Tok ItemEOF "" ln cl]
  | InComment sl sc => [Tok ItemError "unclosed comment" sl sc]
  | InQuote _ sl sc => [Tok ItemError "unterminated quoted string" sl sc]
  | Inside => [Tok ItemError "unclosed action" ln cl]
  | _ => []
  end.

Definition nextLine (ln : nat) (c : ascii) : nat :=
  if Ascii.eqb c newline then S ln else ln.

Definition nextCol (cl : nat) (c : ascii) : nat :=
  if Ascii.eqb c newline then 0 else S cl.

(** The line and the column reached after a text. *)
Fixpoint lineAfter (ln : nat) (s : string) : nat :=
  match s with
  | "" => ln
  | String c r => lineAfter (nextLine ln c) r
  end.

Fixpoint colAfter (cl : nat) (s : string) : nat :=
  match s with
  | "" => cl
  | String c r => colAfter (nextCol cl c) r
  end.

Fixpoint lexFrom (st : state) (ln cl : nat) (s : string) : list item :=
  match s with
  | "" => atEOF st ln cl
  | String c r =>
      match step st ln cl c r with
      | (out, Stop) => out
      | (out, st') => out ++ lexFrom st' (nextLine ln c) (nextCol cl c) r
      end
  end.

(** The tokens of a template; the last one is [ItemEOF], [ItemError] or
    [ItemOther]. *)
Definition lex (s : string) : list item := lexFrom (InText "" false) 1 0 s.

(** *** The parser ([text/template/parse/parse.go]) *)

Inductive operand : Type :=
| OField (name : string)
| ODot
| OBool (b : bool)
| OString (s : string)
| OIdent (f : string).

(** An operand and where it stands. *)
Record arg : Type := mkArg { what : operand; argLine : nat; argCol : nat }.

(** A command: its operands; the first one decides what it is. *)
Definition command : Type := list arg.

Inductive kind : Type := KIf | KRange | KWith.

Inductive node : Type :=
| NText (s : string)
| NAction (c : command)
| NControl (k : kind) (c : command) (list_ elseList : list node).

(** [template: template:<line>: <msg>], the form of the errors of the
    parser. *)
Definition parseError (line : nat) (msg : string) : string :=
  "template: template:" +:+ showNat line +:+ ": " +:+ msg.

(** An error of the lexer as the parser reports it: in an action that
    began on another line, that line is told as well. *)
Definition lexError (actionLine : nat) (tok : item) : string :=
  match tok with
  | Tok ItemError msg line _ =>
      parseError line
        (msg +:+
         (if negb (Nat.eqb actionLine 0) && negb (Nat.eqb actionLine line) then
            (if Strings.HasSuffix msg " action" then "" else " in action")
            +:+ " started at template:" +:+ showNat actionLine
          else ""))
  | _ => unsupported
  end.

(** [%q] of a value without a quote or a backslash, cut after ten bytes as
    the tokens are in the messages. *)
Definition quoted (v : string) : string :=
  if Nat.ltb 10 (String.length v)
  then String dquote (String.substring 0 10 v) +:+ String dquote "..."
  else String dquote v +:+ String dquote "".

(** [unexpected <token> in <context>] *)
Definition unexpected (tok : item) (context : string) : string :=
  match tok with
  | Tok (ItemDot | ItemElse | ItemEnd | ItemIf | ItemRange | ItemWith) v line _ =>
      parseError line ("unexpected <" +:+ v +:+ "> in " +:+ context)
  | Tok (ItemField | ItemIdentifier | ItemBool) v line _ =>
      parseError line ("unexpected " +:+ quoted v +:+ " in " +:+ context)
  | _ => unsupported
  end.

(** The predefined functions. *)
Definition builtins : list string :=
  [ "and"; "call"; "html"; "index"; "slice"; "js"; "len"; "not"; "or"; "print";
    "printf"; "println"; "urlquery"; "eq"; "ge"; "gt"; "le"; "lt"; "ne" ].

Definition isSpaceItem (i : item) : bool :=
  match i with
  | Tok ItemSpace _ _ _ => true
  | _ => false
  end.

Fixpoint skipSpace (toks : list item) : list item :=
  match toks with
  | t :: rest => if isSpaceItem t then skipSpace rest else toks
  | [] => []
  end.

(** What the token that ends an action means where the right delimiter is
    expected. *)
Definition closing {A} (actionLine : nat) (close : item) (done : A) : result A :=
  match close with
  | Tok ItemRightDelim _ _ _ => Ok done
  | Tok ItemError _ _ _ => Err (lexError actionLine close)
  | _ => Err unsupported
  end.

(** [command]: operands up to the right delimiter.  [afterTerm] tells that
    an operand has just been read, so that a space or the delimiter must
    follow. *)
Fixpoint operands (actionLine : nat) (afterTerm : bool) (toks : list item) (close : item)
  : result command :=
  match toks with
  | [] => closing actionLine close []
  | t :: rest =>
      let more (o : operand) (line col : nat) :=
        result_map (cons (mkArg o line col)) (operands actionLine true rest close) in
      match t with
      | Tok ItemSpace _ _ _ => operands actionLine false rest close
      | Tok ItemString v line col =>
          if afterTerm then Err unsupported else more (OString v) line col
      | Tok ItemField v line col =>
          if afterTerm then Err unsupported (* a chain of fields *)
          else more (OField (Strings.drop 1 v)) line col
      | Tok ItemDot _ line col =>
          if afterTerm then Err (unexpected t "operand") else more ODot line col
      | Tok ItemBool v line col =>
          if afterTerm then Err (unexpected t "operand")
          else more (OBool (bool_decide (v = "true"))) line col
      | Tok ItemIdentifier v line col =>
          if afterTerm then Err (unexpected t "operand")
          else if bool_decide (v ∈ builtins) then more (OIdent v) line col
          else Err (parseError line
                      ("function " +:+ String dquote v +:+ String dquote " not defined"))
      | _ => Err (unexpected t "operand")
      end
  end.

Definition startsOperand (t : item) : bool :=
  match t with
  | Tok (ItemBool | ItemDot | ItemField | ItemIdentifier | ItemString) _ _ _ => true
  | _ => false
  end.

(** [pipeline(context, itemRightDelim)], for a pipeline of one command. *)
Definition pipeline (actionLine : nat) (context : string) (toks : list item) (close : item)
  : result command :=
  match skipSpace toks with
  | [] =>
      match closing actionLine close tt with
      | Ok _ => Err (parseError (lineOf close) ("missing value for " +:+ context))
      | Err e => Err e
      end
  | (t :: _) as toks' =>
      if startsOperand t then operands actionLine false toks' close
      else Err (unexpected t context)
  end.

(** [expect(itemRightDelim, context)] *)
Definition expectClose (actionLine : nat) (context : string) (toks : list item)
    (close : item) : result unit :=
  match skipSpace toks with
  | [] => closing actionLine close tt
  | t :: _ => Err (unexpected t context)
  end.

(** The template cut at its delimiters: text, an action with the tokens
    between its delimiters and the token that ended it, and the token that
    ended the template. *)
Inductive segment : Type :=
| SegText (s : string)
| SegAction (open : item) (inner : list item) (close : item)
| SegStop (i : item).

Fixpoint segments (cur : option (item * list item)) (toks : list item) : list segment :=
  match toks with
  | [] => []
  | t :: rest =>
      match cur with
      | None =>
          match t with
          | Text s => SegText s :: segments None rest
          | Tok ItemLeftDelim _ _ _ => segments (Some (t, [])) rest
          | _ => [SegStop t]
          end
      | Some (o, inner) =>
          match t with
          | Tok ItemRightDelim _ _ _ => SegAction o (rev inner) t :: segments None rest
          | Tok (ItemError | ItemOther | ItemEOF) _ _ _ => [SegAction o (rev inner) t]
          | _ => segments (Some (o, t :: inner)) rest
          end
      end
  end.

(** A control structure whose [end] has not been read: its command, the
    list read before [else] once [else] was read, the list it stands in
    (backwards), and whether it was opened by [else if], in which case its
    [end] closes the structure around it as well. *)
Record frame : Type := Frame {
  fkind : kind;
  fcmd : command;
  thenPart : option (list node);
  outer : list node;
  chained : bool
}.

Definition closeFrame (f : frame) (cur : list node) : node :=
  match thenPart f with
  | None => NControl (fkind f) (fcmd f) (rev cur) []
  | Some t => NControl (fkind f) (fcmd f) t (rev cur)
  end.

(** [end]: the innermost structure is closed, and with it those it is
    chained to. *)
Fixpoint closeFrames (f : frame) (cur : list node) (stack : list frame)
  : list node * list frame :=
  let n := closeFrame f cur in
  if chained f then
    match stack with
    | p :: stack' => closeFrames p (n :: outer f) stack'
    | [] => (n :: outer f, [])
    end
  else (n :: outer f, stack).

Definition withElse (f : frame) (cur : list node) : frame :=
  Frame (fkind f) (fcmd f) (Some (rev cur)) (outer f) (chained f).

Definition contextOf (k : kind) : string :=
  match k with
  | KIf => "if"
  | KRange => "range"
  | KWith => "with"
  end.

(** [itemList] and [parseControl], over the segments: [cur] is the list
    being read, backwards, and [stack] the structures that are open. *)
Fixpoint build (segs : list segment) (cur : list node) (stack : list frame)
  : result (list node) :=
  match segs with
  | [] => Err unsupported
  | SegText s :: rest => build rest (NText s :: cur) stack
  | SegStop t :: _ =>
      match t with
      | Tok ItemEOF _ line _ =>
          match stack with
          | [] => Ok (rev cur)
          | _ :: _ => Err (parseError line "unexpected EOF")
          end
      | Tok ItemError _ _ _ => Err (lexError 0 t)
      | _ => Err unsupported
      end
  | SegAction open inner close :: rest =>
      let al := lineOf open in
      let control (k : kind) (toks : list item) :=
        match pipeline al (contextOf k) toks close with
        | Err e => Err e
        | Ok c => build rest [] (Frame k c None cur false :: stack)
        end in
      match skipSpace inner with
      | Tok ItemEnd _ _ _ :: toks =>
          match expectClose al "end" toks close with
          | Err e => Err e
          | Ok _ =>
              match stack with
              | [] => Err (parseError (lineOf close) "unexpected {{end}}")
              | f :: stack' =>
                  let '(cur', stack'') := closeFrames f cur stack' in
                  build rest cur' stack''
              end
          end
      | Tok ItemElse _ _ _ :: toks =>
          match skipSpace toks with
          | Tok ItemIf _ line _ :: toks' =>
              match stack with
              | [] => Err (parseError line "unexpected {{else}}")
              | f :: stack' =>
                  match thenPart f, fkind f with
                  | Some _, _ => Err (parseError line "expected end; found {{else}}")
                  | None, KIf =>
                      match pipeline al "if" toks' close with
                      | Err e => Err e
                      | Ok c =>
                          build rest [] (Frame KIf c None [] true :: withElse f cur :: stack')
                      end
                  | None, _ => Err (parseError line "unexpected <if> in input")
                  end
              end
          | _ =>
              match expectClose al "else" toks close with
              | Err e => Err e
              | Ok _ =>
                  match stack with
                  | [] => Err (parseError (lineOf close) "unexpected {{else}}")
                  | f :: stack' =>
                      match thenPart f with
                      | Some _ =>
                          Err (parseError (lineOf close) "expected end; found {{else}}")
                      | None => build rest [] (withElse f cur :: stack')
                      end
                  end
              end
          end
      | Tok ItemIf _ _ _ :: toks => control KIf toks
      | Tok ItemRange _ _ _ :: toks => control KRange toks
      | Tok ItemWith _ _ _ :: toks => control KWith toks
      | _ =>
          match pipeline al "command" inner close with
          | Err e => Err e
          | Ok c => build rest (NAction c :: cur) stack
          end
      end
  end.

(** [template.New("template").Parse(content)] *)
Definition Parse (content : string) : result (list node) :=
  build (segments None (lex content)) [] [].

(** *** Execution ([text/template/exec.go], [funcs.go]) *)

(** What a command evaluates to: the data itself, or a value of the data,
    [None] being the invalid value. *)
Inductive rvalue : Type :=
| Root
| Val (v : option Value).

Definition printValue (v : option Value) : string :=
  match v with
  | None => "<no value>"
  | Some (VString s) => s
  | Some (VBool true) => "true"
  | Some (VBool false) => "false"
  end.

(** The keys in the order in which a map is printed and ranged over. *)
Fixpoint insertSorted (kv : string * Value) (l : list (string * Value))
  : list (string * Value) :=
  match l with
  | [] => [kv]
  | kv' :: rest =>
      match String.compare kv.1 kv'.1 with
      | Gt => kv' :: insertSorted kv rest
      | _ => kv :: l
      end
  end.

Definition sortedEntries (data : gmap string Value) : list (string * Value) :=
  foldr insertSorted [] (map_to_list data).

(** [fmt.Fprint] of the data: [map[key:value ...]]. *)
Definition printRoot (data : gmap string Value) : string :=
  "map["
  +:+ Strings.Join (map (fun kv => kv.1 +:+ ":" +:+ printValue (Some kv.2))
                      (sortedEntries data)) " "
  +:+ "]".

Definition printR (data : gmap string Value) (v : rvalue) : string :=
  match v with
  | Root => printRoot data
  | Val v => printValue v
  end.

(** [isTrue] *)
Definition isTrue (v : option Value) : bool :=
  match v with
  | None => false
  | Some (VString s) => negb (String.eqb s "")
  | Some (VBool b) => b
  end.

Definition truth (data : gmap string Value) (v : rvalue) : bool :=
  match v with
  | Root => match map_to_list data with [] => false | _ :: _ => true end
  | Val v => isTrue v
  end.

(** An operand as the messages show it. *)
Definition showOperand (o : operand) : string :=
  match o with
  | OField k => String "." k
  | ODot => "."
  | OBool true => "true"
  | OBool false => "false"
  | OString s => String dquote s +:+ String dquote ""
  | OIdent f => f
  end.

Definition showCommand (c : command) : string :=
  Strings.Join (map (fun a => showOperand (what a)) c) " ".

(** [template: template:<line>:<col>: executing "template" at <<context>>:
    <msg>], the form of the errors of the execution. *)
Definition execError (line col : nat) (context msg : string) : string :=
  "template: template:" +:+ showNat line +:+ ":" +:+ showNat col
  +:+ ": executing " +:+ String dquote "template" +:+ String dquote " at <"
  +:+ context +:+ ">: " +:+ msg.

Definition errorAt (a : arg) (msg : string) : string :=
  execError (argLine a) (argCol a) (showOperand (what a)) msg.

(** [evalArg] for an argument of a predefined function. *)
Definition evalArg (data : gmap string Value) (dot : rvalue) (a : arg) : result rvalue :=
  match what a with
  | ODot => Ok dot
  | OField k =>
      match dot with
      | Root => Ok (Val (data !! k))
      | Val _ => Err unsupported
      end
  | OBool b => Ok (Val (Some (VBool b)))
  | OString s => Ok (Val (Some (VString s)))
  | OIdent _ => Err unsupported
  end.

Fixpoint evalArgs (data : gmap string Value) (dot : rvalue) (args : list arg)
  : result (list rvalue) :=
  match args with
  | [] => Ok []
  | a :: rest =>
      match evalArg data dot a with
      | Err e => Err e
      | Ok v => result_map (cons v) (evalArgs data dot rest)
      end
  end.

(** One comparison of [eq]: [Some (Ok b)] is its truth, [Some (Err _)] the
    error of the function, [None] a case that is not modelled. *)
Definition equal (a b : rvalue) : option (result bool) :=
  match a, b with
  | Val (Some (VString x)), Val (Some (VString y)) => Some (Ok (String.eqb x y))
  | Val (Some (VBool x)), Val (Some (VBool y)) => Some (Ok (Bool.eqb x y))
  | Val (Some (VString _)), Val (Some (VBool _))
  | Val (Some (VBool _)), Val (Some (VString _)) =>
      Some (Err "incompatible types for comparison")
  | Val None, Val (Some _) | Val (Some _), Val None => Some (Ok false)
  | _, _ => None
  end.

(** [eq arg1 arg2...]: true when [arg1] equals one of the others. *)
Fixpoint eqAny (a : rvalue) (others : list rvalue) : option (result bool) :=
  match others with
  | [] => Some (Ok false)
  | b :: rest =>
      match equal a b with
      | Some (Ok true) => Some (Ok true)
      | Some (Ok false) => eqAny a rest
      | other => other
      end
  end.

(** [and] and [or]: the arguments are evaluated in turn, up to the first
    that decides. *)
Fixpoint shortCircuit (data : gmap string Value) (dot : rvalue) (isOr : bool)
    (args : list arg) (last : rvalue) : result rvalue :=
  match args with
  | [] => Ok last
  | a :: rest =>
      match evalArg data dot a with
      | Err e => Err e
      | Ok v =>
          if Bool.eqb (truth data v) isOr then Ok v
          else shortCircuit data dot isOr rest v
      end
  end.

(** [evalCall] of a predefined function; [fn] is the operand that names
    it, [c] the whole command. *)
Definition evalCall (data : gmap string Value) (dot : rvalue) (fn : arg) (f : string)
    (args : list arg) (c : command) : result rvalue :=
  let n := length args in
  let calling (r : option (result bool)) (negate : bool) : result rvalue :=
    match r with
    | Some (Ok b) => Ok (Val (Some (VBool (xorb negate b))))
    | Some (Err e) => Err (execError (argLine fn) (argCol fn) (showCommand c)
                             ("error calling " +:+ f +:+ ": " +:+ e))
    | None => Err unsupported
    end in
  let atLeastOne :=
    Err (errorAt fn ("wrong number of args for " +:+ f +:+ ": want at least 1 got 0")) in
  let exactly (want : nat) :=
    Err (errorAt fn ("wrong number of args for " +:+ f +:+ ": want " +:+ showNat want
                     +:+ " got " +:+ showNat n)) in
  if decide (f = "eq") then
    match args with
    | [] => atLeastOne
    | _ :: _ =>
        match evalArgs data dot args with
        | Err e => Err e
        | Ok [] => Err unsupported
        | Ok [_] => calling (Some (Err "missing argument for comparison")) false
        | Ok (a :: others) => calling (eqAny a others) false
        end
    end
  else if decide (f = "ne") then
    if negb (Nat.eqb n 2) then exactly 2
    else match evalArgs data dot args with
         | Err e => Err e
         | Ok [a; b] => calling (eqAny a [b]) true
         | Ok _ => Err unsupported
         end
  else if decide (f = "not") then
    if negb (Nat.eqb n 1) then exactly 1
    else match evalArgs data dot args with
         | Err e => Err e
         | Ok [a] => Ok (Val (Some (VBool (negb (truth data a)))))
         | Ok _ => Err unsupported
         end
  else if decide (f = "and") then
    match args with
    | [] => atLeastOne
    | _ :: _ => shortCircuit data dot false args (Val None)
    end
  else if decide (f = "or") then
    match args with
    | [] => atLeastOne
    | _ :: _ => shortCircuit data dot true args (Val None)
    end
  else Err unsupported.

(** The operand the execution was at when the command had been evaluated,
    which the error of [range] names: the last one, all operands having
    been evaluated.  After [and] and [or], which may stop early, it is not
    modelled. *)
Definition lastVisited (c : command) : option arg :=
  match c with
  | first :: _ =>
      match what first with
      | OIdent f => if decide (f = "and" \/ f = "or") then None else last c
      | _ => last c
      end
  | [] => None
  end.

(** [evalCommand] *)
Definition evalCommand (data : gmap string Value) (dot : rvalue) (c : command)
  : result rvalue :=
  match c with
  | [] => Err unsupported
  | first :: args =>
      match what first with
      | OField k =>
          match dot with
          | Root =>
              match args with
              | [] => Ok (Val (data !! k))
              | _ :: _ => Err (errorAt first (k +:+ " is not a method but has arguments"))
              end
          | Val _ => Err unsupported
          end
      | OIdent f => evalCall data dot first f args c
      | ODot | OBool _ | OString _ =>
          match args with
          | [] => evalArg data dot first
          | _ :: _ =>
              Err (errorAt first ("can't give argument to non-function "
                                  +:+ showOperand (what first)))
          end
      end
  end.

(** The nodes are executed with the dot they see.  [range] goes through the
    values of the data in the order of their keys; a string or a boolean
    cannot be ranged over. *)
Fixpoint execNode (data : gmap string Value) (dot : rvalue) (n : node) {struct n}
  : result string :=
  let execList :=
    fix execList (dot : rvalue) (ns : list node) {struct ns} : result string :=
      match ns with
      | [] => Ok ""
      | n' :: ns' =>
          match execNode data dot n' with
          | Err e => Err e
          | Ok s => result_map (String.append s) (execList dot ns')
          end
      end in
  match n with
  | NText s => Ok s
  | NAction c => result_map (printR data) (evalCommand data dot c)
  | NControl k c list_ elseList =>
      match evalCommand data dot c with
      | Err e => Err e
      | Ok v =>
          match k with
          | KIf => if truth data v then execList dot list_ else execList dot elseList
          | KWith => if truth data v then execList v list_ else execList dot elseList
          | KRange =>
              match v with
              | Root =>
                  match sortedEntries data with
                  | [] => execList dot elseList
                  | entries =>
                      (fix each (l : list (string * Value)) : result string :=
                         match l with
                         | [] => Ok ""
                         | kv :: l' =>
                             match execList (Val (Some kv.2)) list_ with
                             | Err e => Err e
                             | Ok s => result_map (String.append s) (each l')
                             end
                         end) entries
                  end
              | Val None => execList dot elseList
              | Val (Some x) =>
                  match lastVisited c with
                  | Some a =>
                      Err (errorAt a ("range can't iterate over " +:+ printValue (Some x)))
                  | None => Err unsupported
                  end
              end
          end
      end
  end.

(** [tmpl.Execute(&buf, data)], returning what was written to [buf]. *)
Fixpoint Execute (tmpl : list node) (data : gmap string Value) : result string :=
  match tmpl with
  | [] => Ok ""
  | n :: ns =>
      match execNode data Root n with
      | Err e => Err e
      | Ok s => result_map (String.append s) (Execute ns data)
      end
  end.

End Template.

(** ** File-system paths

    A path is the list of its components below the working directory; the
    empty list is the working directory itself. *)

Abbreviation path := (list string) (only parsing).

(** The path as the program prints it. *)
Definition pathString (p : path) : string := Strings.Join p "/".

Module Filepath.

(** [filepath.Rel(base, target)] for a target at or below [base], the only
    case the walk produces. *)
Fixpoint Rel (base target : path) : result path :=
  match base with
  | [] => Ok target
  | b :: base' =>
      match target with
      | t :: target' => if decide (b = t) then Rel base' target' else Err "Rel: target is not below the base path"
      | [] => Err "Rel: target is not below the base path"
      end
  end.

(** [filepath.Join(a, b)] *)
Definition Join (a b : path) : path := a ++ b.

(** [filepath.Dir(p)] *)
Definition Dir (p : path) : path := removelast p.

(** [strings.HasSuffix(p, suffix)] on the printed path, for a suffix without
    a separator: a suffix of the last component. *)
Definition HasSuffix (p : path) (suffix : string) : bool :=
  match last p with
  | Some name => Strings.HasSuffix name suffix
  | None => false
  end.

(** [strings.TrimSuffix(p, suffix)], likewise. *)
Definition TrimSuffix (p : path) (suffix : string) : path :=
  match last p with
  | Some name => removelast p ++ [Strings.TrimSuffix name suffix]
  | None => p
  end.

(** [filepath.Clean] on the components of a relative path: empty components
    and [.] are dropped, and [..] removes the component before it; where
    there is none to remove, at the start of the path, [..] stays.  [kept]
    holds the components kept so far, the last one first. *)
Fixpoint cleanFrom (kept : list string) (components : list string) : path :=
  match components with
  | [] => rev kept
  | c :: rest =>
      if decide (c = "" \/ c = ".") then cleanFrom kept rest
      else if decide (c = "..") then
        match kept with
        | top :: below =>
            if decide (top = "..") then cleanFrom (c :: kept) rest
            else cleanFrom below rest
        | [] => cleanFrom [c] rest
        end
      else cleanFrom (c :: kept) rest
  end.

Definition Clean (components : list string) : path := cleanFrom [] components.

End Filepath.

(** ** Package [os]: the tree below the working directory

    A finite map from paths to nodes.  The working directory itself (the
    empty path) always exists and is not a key of the map.  Calls fail on
    the structure of the tree only (a file where a directory is needed, a
    directory where a file is written, a missing file); permissions and
    device errors are not modelled.  A path that leads out of the working
    directory starts with [..] components; the directories above the
    working directory are then nodes of the map under these names, and two
    names of one node are not identified. *)

Inductive fnode : Type :=
| Dir
| File (content : string).

Module Os.

Definition isDir (fs : gmap (list string) fnode) (p : path) : bool :=
  match p with
  | [] => true
  | _ :: _ => match fs !! p with
              | Some Dir => true
              | _ => false
              end
  end.

(** [_, err := os.Stat(p); err == nil] *)
Definition Stat (fs : gmap (list string) fnode) (p : path) : bool :=
  match p with
  | [] => true
  | _ :: _ => match fs !! p with
              | Some _ => true
              | None => false
              end
  end.

(** Creates the components of [todo] below [at], one after the other. *)
Fixpoint mkdirFrom (fs : gmap (list string) fnode) (at_ todo : path)
  : result (gmap (list string) fnode) :=
  match todo with
  | [] => Ok fs
  | c :: rest =>
      let q := at_ ++ [c] in
      match fs !! q with
      | Some Dir => mkdirFrom fs q rest
      | Some (File _) => Err ("mkdir " +:+ pathString q +:+ ": not a directory")
      | None => mkdirFrom (<[q := Dir]> fs) q rest
      end
  end.

(** [os.MkdirAll(p, 0755)]: nothing to do when [p] is a directory already;
    otherwise the missing directories are created from the top. *)
Definition MkdirAll (fs : gmap (list string) fnode) (p : path)
  : result (gmap (list string) fnode) :=
  if isDir fs p then Ok fs else mkdirFrom fs [] p.

(** Whether the way from [at_] down to the parent of [at_ ++ todo] meets a
    regular file before it meets a name that does not exist. *)
Fixpoint underFile (fs : gmap (list string) fnode) (at_ todo : path) : bool :=
  match todo with
  | [] => false
  | c :: rest =>
      match rest with
      | [] => false
      | _ :: _ =>
          match fs !! (at_ ++ [c]) with
          | Some (File _) => true
          | Some Dir => underFile fs (at_ ++ [c]) rest
          | None => false
          end
      end
  end.

(** The error of opening a path that cannot be reached: [ENOTDIR] when the
    way to it goes through a regular file, [ENOENT] otherwise. *)
Definition openError (fs : gmap (list string) fnode) (p : path) : string :=
  if underFile fs [] p then "open " +:+ pathString p +:+ ": not a directory"
  else "open " +:+ pathString p +:+ ": no such file or directory".

(** [os.WriteFile(p, content, 0644)]: creates or truncates the file.  A path
    whose last component is empty is a path with a trailing separator, which
    names a directory. *)
Definition WriteFile (fs : gmap (list string) fnode) (p : path) (content : string)
  : result (gmap (list string) fnode) :=
  match last p with
  | None => Err "open .: is a directory"
  | Some name =>
      if decide (name = "") then Err ("open " +:+ pathString p +:+ ": is a directory")
      else if isDir fs (removelast p) then
        match fs !! p with
        | Some Dir => Err ("open " +:+ pathString p +:+ ": is a directory")
        | _ => Ok (<[p := File content]> fs)
        end
      else Err (openError fs p)
  end.

(** [os.ReadFile(p)] *)
Definition ReadFile (fs : gmap (list string) fnode) (p : path) : result string :=
  match p with
  | [] => Err "read .: is a directory"
  | _ :: _ =>
      match fs !! p with
      | Some (File c) => Ok c
      | Some Dir => Err ("read " +:+ pathString p +:+ ": is a directory")
      | None => Err (openError fs p)
      end
  end.

Definition below (p q : path) : bool := bool_decide (p `prefix_of` q).

(** [os.RemoveAll(p)]: removes [p] and everything below it; no error when
    [p] does not exist.  The working directory itself is refused. *)
Definition RemoveAll (fs : gmap (list string) fnode) (p : path)
  : result (gmap (list string) fnode) :=
  match p with
  | [] => Err "RemoveAll .: invalid argument"
  | _ :: _ => Ok (filter (fun kv => below p kv.1 = false) fs)
  end.

End Os.

(** ** The template store ([templates.FS], an [embed.FS])

    [pkg/templates] is not part of the sources at hand; the store is a
    parameter of the engine: the entries of its root directory, the
    children of every directory in the order [ReadDir] returns them. *)

Inductive entry : Type :=
| FileEntry (name : string) (content : string)
| DirEntry (name : string) (children : list entry).

Module Store.

Definition entryName (e : entry) : string :=
  match e with
  | FileEntry n _ => n
  | DirEntry n _ => n
  end.

Fixpoint findEntry (es : list entry) (name : string) : option entry :=
  match es with
  | [] => None
  | e :: es' => if decide (entryName e = name) then Some e else findEntry es' name
  end.

Inductive opened : Type :=
| OFile (content : string)
| ODir (children : list entry).

Fixpoint open (es : list entry) (p : path) : option opened :=
  match p with
  | [] => Some (ODir es)
  | name :: rest =>
      match findEntry es name with
      | Some (FileEntry _ c) => match rest with
                                | [] => Some (OFile c)
                                | _ :: _ => None
                                end
      | Some (DirEntry _ ch) => open ch rest
      | None => None
      end
  end.

(** [templatesFS.ReadFile(p)] *)
Definition ReadFile (es : list entry) (p : path) : result string :=
  match open es p with
  | Some (OFile c) => Ok c
  | Some (ODir _) => Err ("read " +:+ pathString p +:+ ": is a directory")
  | None => Err ("open " +:+ pathString p +:+ ": file does not exist")
  end.

(** The entries [fs.WalkDir] visits below a directory, in its order: an
    entry before its children, the children in [ReadDir] order.  Each comes
    with its [IsDir]. *)
Fixpoint walkEntry (at_ : path) (e : entry) : list (list string * bool) :=
  match e with
  | FileEntry n _ => [(at_ ++ [n], false)]
  | DirEntry n ch =>
      (at_ ++ [n], true) ::
      (fix walkChildren (es : list entry) : list (list string * bool) :=
         match es with
         | [] => []
         | e' :: es' => walkEntry (at_ ++ [n]) e' ++ walkChildren es'
         end) ch
  end.

Fixpoint walkList (at_ : path) (es : list entry) : list (list string * bool) :=
  match es with
  | [] => []
  | e :: es' => walkEntry at_ e ++ walkList at_ es'
  end.

End Store.

(** ** The data model of package [modules] *)

Record InitOptions : Type := mkInitOptions {
  ProjectName : string;
  ModulePath : string;
  Router : string;
  Database : string;
  OpenAPI : string;
  SpecPath : string;
  Docker : bool;
  Migrations : string;
  Force : bool
}.

Record Context : Type := mkContext {
  ProjectPath : list string;
  Options : InitOptions;
  TemplateData : gmap string Template.Value
}.

(** The zero values of the two structs. *)
Definition zeroOptions : InitOptions := mkInitOptions "" "" "" "" "" "" false "" false.
Definition zeroContext : Context := mkContext [] zeroOptions ∅.

(** ** The world the program runs in

    - [disk]: the tree below the working directory;
    - [stdout]: the lines printed so far;
    - [ran]: the external commands started so far, each with its working
      directory;
    - [tools]: what an external command does when started: whether it
      succeeds, its combined output and the tree it leaves;
    - [ctxObj]: the [Context] object of the run, which [InitProject] and
      [AddModule] allocate and hand to the modules by pointer;
    - [seen]: a history variable, read by no definition: the state of the
      [Context] object at every entry of a module's [Apply]. *)

Record World : Type := mkWorld {
  disk : gmap (list string) fnode;
  stdout : list string;
  ran : list (list string * list string);
  tools : list string -> list string -> gmap (list string) fnode
          -> bool * string * gmap (list string) fnode;
  ctxObj : Context;
  seen : list Context
}.

Definition setDisk (d : gmap (list string) fnode) (w : World) : World :=
  mkWorld d (stdout w) (ran w) (tools w) (ctxObj w) (seen w).

Definition setCtx (c : Context) (w : World) : World :=
  mkWorld (disk w) (stdout w) (ran w) (tools w) c (seen w).

(** A computation: a result and the world it leaves.  An error does not
    undo what was done before it. *)
Definition M (A : Type) : Type := World -> result A * World.

Definition ret {A} (a : A) : M A := fun w => (Ok a, w).

Definition fail {A} (e : string) : M A := fun w => (Err e, w).

Definition bind {A B} (m : M A) (k : A -> M B) : M B :=
  fun w =>
    match m w with
    | (Ok a, w') => k a w'
    | (Err e, w') => (Err e, w')
    end.

Notation "'let*' x ':=' m 'in' k" := (bind m (fun x => k))
  (at level 10, x pattern, m at level 100, k at level 200).
Notation "m ;; k" := (bind m (fun _ => k))
  (at level 100, k at level 200, right associativity).

(** [if err := m; err != nil { return fmt.Errorf("<prefix>: %w", err) }] *)
Definition orWrap {A} (prefix : string) (m : M A) : M A :=
  fun w =>
    match m w with
    | (Ok a, w') => (Ok a, w')
    | (Err e, w') => (Err (wrap prefix e), w')
    end.

Definition liftResult {A} (r : result A) : M A := fun w => (r, w).

Definition liftOs (f : gmap (list string) fnode -> result (gmap (list string) fnode)) : M unit :=
  fun w =>
    match f (disk w) with
    | Ok d => (Ok tt, setDisk d w)
    | Err e => (Err e, w)
    end.

Definition osMkdirAll (p : path) : M unit := liftOs (fun d => Os.MkdirAll d p).
Definition osWriteFile (p : path) (content : string) : M unit :=
  liftOs (fun d => Os.WriteFile d p content).
Definition osRemoveAll (p : path) : M unit := liftOs (fun d => Os.RemoveAll d p).
Definition osReadFile (p : path) : M string := fun w => (Os.ReadFile (disk w) p, w).
Definition osStat (p : path) : M bool := fun w => (Ok (Os.Stat (disk w) p), w).

(** [fmt.Println] and [fmt.Printf]: the text, without its final newline. *)
Definition println (s : string) : M unit :=
  fun w => (Ok tt, mkWorld (disk w) (stdout w ++ [s]) (ran w) (tools w) (ctxObj w) (seen w)).

(** [cmd := exec.Command(argv...); cmd.Dir = dir; cmd.CombinedOutput()]:
    whether the command succeeded, and its output. *)
Definition CombinedOutput (argv : list string) (dir : path) : M (bool * string) :=
  fun w =>
    let '(ok, output, d) := tools w argv dir (disk w) in
    (Ok (ok, output),
     mkWorld d (stdout w) (ran w ++ [(argv, dir)]) (tools w) (ctxObj w) (seen w)).

(** [ctx := &modules.Context{...}] *)
Definition newCtx (c : Context) : M unit := fun w => (Ok tt, setCtx c w).

(** A read through the pointer. *)
Definition getCtx : M Context := fun w => (Ok (ctxObj w), w).

(** An assignment through the pointer. *)
Definition modifyCtx (f : Context -> Context) : M unit :=
  fun w => (Ok tt, setCtx (f (ctxObj w)) w).

Definition observe : M unit :=
  fun w => (Ok tt, mkWorld (disk w) (stdout w) (ran w) (tools w) (ctxObj w)
                           (seen w ++ [ctxObj w])).

Fixpoint forEach {A} (l : list A) (f : A -> M unit) : M unit :=
  match l with
  | [] => ret tt
  | a :: l' => f a ;; forEach l' f
  end.

(** ** Package [io/fs] *)

Module Fs.

(** [fs.WalkDir(templatesFS, root, fn)]: [fn] is called on the root, then on
    everything below it; the first error [fn] returns ends the walk and is
    the walk's result.  When the root cannot be opened [fn] is called once,
    with the error. *)
Definition WalkDir (templatesFS : list entry) (root : path)
    (fn : list string -> bool -> option string -> M unit) : M unit :=
  match Store.open templatesFS root with
  | None => fn root false (Some ("open " +:+ pathString root +:+ ": file does not exist"))
  | Some (Store.OFile _) => fn root false None
  | Some (Store.ODir children) =>
      fn root true None ;;
      forEach (Store.walkList root children) (fun pd => fn pd.1 pd.2 None)
  end.

End Fs.

(** ** Package [modules] *)

Module Modules.

(** The implementations of the [Module] interface. *)
Inductive ModuleImpl : Type :=
| PostgresModule
| MongoModule
| OpenAPIGenModule
| OpenAPIManualModule
| DockerModule.

Definition Name (m : ModuleImpl) : string :=
  match m with
  | PostgresModule => "postgres"
  | MongoModule => "mongo"
  | OpenAPIGenModule => "openapi-gen"
  | OpenAPIManualModule => "openapi-manual"
  | DockerModule => "docker"
  end.

Record Registry : Type := mkRegistry {
  modules : gmap string (gmap string ModuleImpl)
}.

Definition Register (r : Registry) (category name : string) (module : ModuleImpl) : Registry :=
  let mods := match modules r !! category with
              | Some mods => mods
              | None => ∅
              end in
  mkRegistry (<[category := <[name := module]> mods]> (modules r)).

Definition GetModule (r : Registry) (category name : string) : option ModuleImpl :=
  match modules r !! category with
  | Some mods => mods !! name
  | None => None
  end.

Definition NewRegistry : Registry :=
  let r := mkRegistry ∅ in
  let r := Register r "db" "postgres" PostgresModule in
  let r := Register r "db" "mongo" MongoModule in
  let r := Register r "openapi" "gen" OpenAPIGenModule in
  let r := Register r "openapi" "manual" OpenAPIManualModule in
  let r := Register r "docker" "" DockerModule in
  r.

Definition renderTemplate (content : string) (data : gmap string Template.Value)
  : result string :=
  match Template.Parse content with
  | Err e => Err e
  | Ok tmpl =>
      match Template.Execute tmpl data with
      | Err e => Err e
      | Ok buf => Ok buf
      end
  end.

(** The function [ApplyModuleTemplate] hands to [fs.WalkDir]. *)
Definition walkFn (templatesFS : list entry) (templatePath destPath : path)
    (data : gmap string Template.Value)
    (p : list string) (isDir : bool) (err : option string) : M unit :=
  match err with
  | Some e => fail e
  | None =>
      if decide (p = templatePath) then ret tt
      else
        let* relPath := liftResult (Filepath.Rel templatePath p) in
        let destFilePath := Filepath.Join destPath relPath in
        if isDir then osMkdirAll destFilePath
        else
          let* content := liftResult (Store.ReadFile templatesFS p) in
          let* out :=
            (if Filepath.HasSuffix p ".tmpl" then
               match renderTemplate content data with
               | Err e => fail (wrap ("failed to render template " +:+ pathString p) e)
               | Ok rendered => ret (Filepath.TrimSuffix destFilePath ".tmpl", rendered)
               end
             else ret (destFilePath, content)) in
          osMkdirAll (Filepath.Dir out.1) ;;
          osWriteFile out.1 out.2
  end.

Definition ApplyModuleTemplate (templatesFS : list entry) (templatePath destPath : path)
    (data : gmap string Template.Value) : M unit :=
  Fs.WalkDir templatesFS templatePath (walkFn templatesFS templatePath destPath data).

(** What the walk computes for the file entry [p]: the destination path
    and the bytes it then writes there (the part of [walkFn] between the
    [IsDir] test and the write). *)
Definition written (templatesFS : list entry) (templatePath destPath : path)
    (data : gmap string Template.Value) (p : path) : result (list string * string) :=
  match Filepath.Rel templatePath p with
  | Err e => Err e
  | Ok relPath =>
      match Store.ReadFile templatesFS p with
      | Err e => Err e
      | Ok content =>
          if Filepath.HasSuffix p ".tmpl" then
            match renderTemplate content data with
            | Err e => Err (wrap ("failed to render template " +:+ pathString p) e)
            | Ok rendered =>
                Ok (Filepath.TrimSuffix (Filepath.Join destPath relPath) ".tmpl", rendered)
            end
          else Ok (Filepath.Join destPath relPath, content)
      end
  end.

Definition WriteFile (p : path) (content : string) : M unit :=
  osMkdirAll (Filepath.Dir p) ;;
  osWriteFile p content.

Definition nl : string := String (ascii_of_nat 10) "".
Definition tab : string := String (ascii_of_nat 9) "".

Definition lines (ls : list string) : string :=
  String.concat "" (map (fun l => l +:+ nl) ls).

Definition migration : string :=
  lines [ "-- +goose Up";
          "-- +goose StatementBegin";
          "CREATE TABLE IF NOT EXISTS users (";
          "    id SERIAL PRIMARY KEY,";
          "    email VARCHAR(255) UNIQUE NOT NULL,";
          "    created_at TIMESTAMP DEFAULT CURRENT_TIMESTAMP,";
          "    updated_at TIMESTAMP DEFAULT CURRENT_TIMESTAMP";
          ");";
          "-- +goose StatementEnd";
          "";
          "-- +goose Down";
          "-- +goose StatementBegin";
          "DROP TABLE IF EXISTS users;";
          "-- +goose StatementEnd" ].

Definition PostgresModule_Apply (templatesFS : list entry) : M unit :=
  let templatePath := ["files"; "db"; "postgres"] in
  let* ctx := getCtx in
  orWrap "failed to apply postgres template"
    (ApplyModuleTemplate templatesFS templatePath (ProjectPath ctx) (TemplateData ctx)) ;;
  let* ctx := getCtx in
  if decide (Migrations (Options ctx) = "goose") then
    let* ctx := getCtx in
    let migrationsDir := Filepath.Join (ProjectPath ctx) ["migrations"] in
    WriteFile (Filepath.Join migrationsDir [".gitkeep"]) "" ;;
    WriteFile (Filepath.Join migrationsDir ["00001_initial.sql"]) migration
  else ret tt.

Definition MongoModule_Apply (templatesFS : list entry) : M unit :=
  let templatePath := ["files"; "db"; "mongo"] in
  let* ctx := getCtx in
  orWrap "failed to apply mongo template"
    (ApplyModuleTemplate templatesFS templatePath (ProjectPath ctx) (TemplateData ctx)).

Definition specContent (projectName : string) : string :=
  lines [ "openapi: 3.0.0";
          "info:";
          "  title: " +:+ projectName +:+ " API";
          "  version: 1.0.0";
          "paths:";
          "  /health:";
          "    get:";
          "      summary: Health check";
          "      responses:";
          "        '200':";
          "          description: Service is healthy";
          "          content:";
          "            application/json:";
          "              schema:";
          "                type: object";
          "                properties:";
          "                  status:";
          "                    type: string";
          "  /api/v1/users:";
          "    get:";
          "      summary: List users";
          "      responses:";
          "        '200':";
          "          description: List of users";
          "          content:";
          "            application/json:";
          "              schema:";
          "                type: array";
          "                items:";
          "                  type: object";
          "                  properties:";
          "                    id:";
          "                      type: integer";
          "                    email:";
          "                      type: string" ].

Definition makefileContent : string :=
  lines [ ".PHONY: generate";
          "generate:";
          tab +:+ "go generate ./...";
          "";
          ".PHONY: api-gen";
          "api-gen:";
          tab +:+ "oapi-codegen -package generated -generate types,chi-server,spec api/openapi.yaml > internal/api/generated/api.gen.go" ].

Definition OpenAPIGenModule_Apply (templatesFS : list entry) : M unit :=
  let templatePath := ["files"; "openapi"; "gen"] in
  let* ctx := getCtx in
  orWrap "failed to apply openapi gen template"
    (ApplyModuleTemplate templatesFS templatePath (ProjectPath ctx) (TemplateData ctx)) ;;
  let* ctx := getCtx in
  (if decide (SpecPath (Options ctx) = "") then ret tt
   else
     let* ctx := getCtx in
     let specPath := Filepath.Join (ProjectPath ctx) ["api"; "openapi.yaml"] in
     WriteFile specPath (specContent (ProjectName (Options ctx)))) ;;
  let* ctx := getCtx in
  WriteFile (Filepath.Join (ProjectPath ctx) ["Makefile"]) makefileContent.

Definition OpenAPIManualModule_Apply (templatesFS : list entry) : M unit :=
  let templatePath := ["files"; "openapi"; "manual"] in
  let* ctx := getCtx in
  orWrap "failed to apply openapi manual template"
    (ApplyModuleTemplate templatesFS templatePath (ProjectPath ctx) (TemplateData ctx)).

Definition DockerModule_Apply (templatesFS : list entry) : M unit :=
  let templatePath := ["files"; "docker"] in
  let* ctx := getCtx in
  orWrap "failed to apply docker template"
    (ApplyModuleTemplate templatesFS templatePath (ProjectPath ctx) (TemplateData ctx)).

(** [mod.Apply(ctx)], dispatched on the implementation. *)
Definition Apply (templatesFS : list entry) (m : ModuleImpl) : M unit :=
  observe ;;
  match m with
  | PostgresModule => PostgresModule_Apply templatesFS
  | MongoModule => MongoModule_Apply templatesFS
  | OpenAPIGenModule => OpenAPIGenModule_Apply templatesFS
  | OpenAPIManualModule => OpenAPIManualModule_Apply templatesFS
  | DockerModule => DockerModule_Apply templatesFS
  end.

End Modules.

(** ** Package [engine] *)

Module Engine.

Record AddOptions : Type := mkAddOptions {
  Module_ : string;
  Type_ : string;
  Mode : string;
  Spec : string
}.

Record Engine : Type := mkEngine {
  registry : Modules.Registry
}.

Definition NewEngine : Engine := mkEngine Modules.NewRegistry.

(** A Go [map[string]bool] read at a key: [false] when the key is absent. *)
Definition member (m : gmap string bool) (k : string) : bool :=
  match m !! k with
  | Some b => b
  | None => false
  end.

Definition validateInitOptions (e : Engine) (opts : InitOptions) : result unit :=
  let validRouters : gmap string bool :=
    {[ "chi" := true; "gin" := true; "fiber" := true ]} in
  if negb (member validRouters (Router opts)) then
    Err ("invalid router: " +:+ Router opts +:+ " (must be chi, gin, or fiber)")
  else
  let validDatabases : gmap string bool :=
    {[ "none" := true; "postgres" := true; "mongo" := true ]} in
  if negb (member validDatabases (Database opts)) then
    Err ("invalid database: " +:+ Database opts +:+ " (must be none, postgres, or mongo)")
  else
  let validOpenAPI : gmap string bool :=
    {[ "none" := true; "gen" := true; "manual" := true ]} in
  if negb (member validOpenAPI (OpenAPI opts)) then
    Err ("invalid openapi: " +:+ OpenAPI opts +:+ " (must be none, gen, or manual)")
  else
  let validMigrations : gmap string bool :=
    {[ "none" := true; "goose" := true ]} in
  if negb (member validMigrations (Migrations opts)) then
    Err ("invalid migrations: " +:+ Migrations opts +:+ " (must be none or goose)")
  else Ok tt.

Definition renderTemplate (e : Engine) (content : string)
    (data : gmap string Template.Value) : result string :=
  match Template.Parse content with
  | Err err => Err err
  | Ok tmpl =>
      match Template.Execute tmpl data with
      | Err err => Err err
      | Ok buf => Ok buf
      end
  end.

(** The function [applyTemplate] hands to [fs.WalkDir]. *)
Definition walkFn (templatesFS : list entry) (e : Engine) (templatePath destPath : path)
    (data : gmap string Template.Value)
    (p : list string) (isDir : bool) (err : option string) : M unit :=
  match err with
  | Some err => fail err
  | None =>
      if decide (p = templatePath) then ret tt
      else
        let* relPath := liftResult (Filepath.Rel templatePath p) in
        let destFilePath := Filepath.Join destPath relPath in
        if isDir then osMkdirAll destFilePath
        else
          let* content := liftResult (Store.ReadFile templatesFS p) in
          let* out :=
            (if Filepath.HasSuffix p ".tmpl" then
               match renderTemplate e content data with
               | Err err => fail (wrap ("failed to render template " +:+ pathString p) err)
               | Ok rendered => ret (Filepath.TrimSuffix destFilePath ".tmpl", rendered)
               end
             else ret (destFilePath, content)) in
          osMkdirAll (Filepath.Dir out.1) ;;
          osWriteFile out.1 out.2
  end.

Definition applyTemplate (templatesFS : list entry) (e : Engine)
    (templatePath destPath : path) (data : gmap string Template.Value) : M unit :=
  Fs.WalkDir templatesFS templatePath (walkFn templatesFS e templatePath destPath data).

Definition runPostSteps (e : Engine) (projectPath : path) (opts : InitOptions) : M unit :=
  let* r := CombinedOutput ["go"; "mod"; "init"; ModulePath opts] projectPath in
  if negb r.1 then fail ("go mod init failed: " +:+ r.2)
  else
    let* r := CombinedOutput ["go"; "mod"; "tidy"] projectPath in
    if negb r.1 then fail ("go mod tidy failed: " +:+ r.2)
    else
      (* cmd.Run(): the outcome of formatting is ignored *)
      let* _ := CombinedOutput ["go"; "fmt"; "./..."] projectPath in
      ret tt.

Definition getModulePath (e : Engine) (projectPath : path) : M string :=
  let modFile := Filepath.Join projectPath ["go.mod"] in
  let* content := orWrap "failed to read go.mod" (osReadFile modFile) in
  let lines := Strings.Split content (ascii_of_nat 10) in
  match List.find (fun line => Strings.HasPrefix (Strings.TrimSpace line) "module ") lines with
  | Some line =>
      ret (Strings.TrimSpace (Strings.TrimPrefix (Strings.TrimSpace line) "module "))
  | None => fail "module path not found in go.mod"
  end.

Definition templateDataOf (opts : InitOptions) : gmap string Template.Value :=
  {[ "ProjectName" := Template.VString (ProjectName opts);
     "ModulePath" := Template.VString (ModulePath opts);
     "Router" := Template.VString (Router opts);
     "Database" := Template.VString (Database opts);
     "OpenAPI" := Template.VString (OpenAPI opts);
     "Migrations" := Template.VString (Migrations opts);
     "HasDocker" := Template.VBool (Docker opts) ]}.

Definition InitProject (templatesFS : list entry) (e : Engine)
    (projectPath : path) (opts : InitOptions) : M unit :=
  (* Validate options *)
  liftResult (validateInitOptions e opts) ;;
  (* Create or clean project directory *)
  (if Force opts
   then orWrap "failed to remove existing directory" (osRemoveAll projectPath)
   else ret tt) ;;
  orWrap "failed to create project directory" (osMkdirAll projectPath) ;;
  (* Create context *)
  newCtx (mkContext projectPath opts (templateDataOf opts)) ;;
  (* Apply base template *)
  println "→ Applying base template..." ;;
  let* ctx := getCtx in
  orWrap "failed to apply base template"
    (applyTemplate templatesFS e ["files"; "base"] projectPath (TemplateData ctx)) ;;
  (* Apply database module *)
  (if decide (Database opts = "none") then ret tt
   else
     println ("→ Adding " +:+ Database opts +:+ " database...") ;;
     match Modules.GetModule (registry e) "db" (Database opts) with
     | None => fail ("database module " +:+ Database opts +:+ " not found")
     | Some mod_ =>
         orWrap "failed to apply database module" (Modules.Apply templatesFS mod_)
     end) ;;
  (* Apply OpenAPI module *)
  (if decide (OpenAPI opts = "none") then ret tt
   else
     println ("→ Adding OpenAPI (" +:+ OpenAPI opts +:+ " mode)...") ;;
     match Modules.GetModule (registry e) "openapi" (OpenAPI opts) with
     | None => fail ("openapi module " +:+ OpenAPI opts +:+ " not found")
     | Some mod_ =>
         orWrap "failed to apply openapi module" (Modules.Apply templatesFS mod_)
     end) ;;
  (* Apply Docker module *)
  (if Docker opts then
     println "→ Adding Docker configuration..." ;;
     match Modules.GetModule (registry e) "docker" "" with
     | None => fail "docker module not found"
     | Some mod_ =>
         orWrap "failed to apply docker module" (Modules.Apply templatesFS mod_)
     end
   else ret tt) ;;
  (* Run post-generation steps *)
  println "→ Running post-generation steps..." ;;
  orWrap "post-generation steps failed" (runPostSteps e projectPath opts).

(** The part of [InitProject] that follows the preparation of the
    directory: from the creation of the context to the post-generation
    steps. *)
Definition afterDirectoryPrep (templatesFS : list entry) (e : Engine)
    (projectPath : path) (opts : InitOptions) : M unit :=
  (* Create context *)
  newCtx (mkContext projectPath opts (templateDataOf opts)) ;;
  (* Apply base template *)
  println "→ Applying base template..." ;;
  let* ctx := getCtx in
  orWrap "failed to apply base template"
    (applyTemplate templatesFS e ["files"; "base"] projectPath (TemplateData ctx)) ;;
  (* Apply database module *)
  (if decide (Database opts = "none") then ret tt
   else
     println ("→ Adding " +:+ Database opts +:+ " database...") ;;
     match Modules.GetModule (registry e) "db" (Database opts) with
     | None => fail ("database module " +:+ Database opts +:+ " not found")
     | Some mod_ =>
         orWrap "failed to apply database module" (Modules.Apply templatesFS mod_)
     end) ;;
  (* Apply OpenAPI module *)
  (if decide (OpenAPI opts = "none") then ret tt
   else
     println ("→ Adding OpenAPI (" +:+ OpenAPI opts +:+ " mode)...") ;;
     match Modules.GetModule (registry e) "openapi" (OpenAPI opts) with
     | None => fail ("openapi module " +:+ OpenAPI opts +:+ " not found")
     | Some mod_ =>
         orWrap "failed to apply openapi module" (Modules.Apply templatesFS mod_)
     end) ;;
  (* Apply Docker module *)
  (if Docker opts then
     println "→ Adding Docker configuration..." ;;
     match Modules.GetModule (registry e) "docker" "" with
     | None => fail "docker module not found"
     | Some mod_ =>
         orWrap "failed to apply docker module" (Modules.Apply templatesFS mod_)
     end
   else ret tt) ;;
  (* Run post-generation steps *)
  println "→ Running post-generation steps..." ;;
  orWrap "post-generation steps failed" (runPostSteps e projectPath opts).

Definition setDatabase (v : string) (o : InitOptions) : InitOptions :=
  mkInitOptions (ProjectName o) (ModulePath o) (Router o) v (OpenAPI o)
                (SpecPath o) (Docker o) (Migrations o) (Force o).
Definition setOpenAPI (v : string) (o : InitOptions) : InitOptions :=
  mkInitOptions (ProjectName o) (ModulePath o) (Router o) (Database o) v
                (SpecPath o) (Docker o) (Migrations o) (Force o).
Definition setSpecPath (v : string) (o : InitOptions) : InitOptions :=
  mkInitOptions (ProjectName o) (ModulePath o) (Router o) (Database o) (OpenAPI o)
                v (Docker o) (Migrations o) (Force o).
Definition setDocker (v : bool) (o : InitOptions) : InitOptions :=
  mkInitOptions (ProjectName o) (ModulePath o) (Router o) (Database o) (OpenAPI o)
                (SpecPath o) v (Migrations o) (Force o).

(** [ctx.Options.<field> = v] and [ctx.TemplateData[k] = v] *)
Definition updOptions (f : InitOptions -> InitOptions) (c : Context) : Context :=
  mkContext (ProjectPath c) (f (Options c)) (TemplateData c).
Definition updData (k : string) (v : Template.Value) (c : Context) : Context :=
  mkContext (ProjectPath c) (Options c) (<[k := v]> (TemplateData c)).

Definition AddModule (templatesFS : list entry) (e : Engine)
    (projectPath : path) (opts : AddOptions) : M unit :=
  (* Read existing go.mod to get module path *)
  let* modPath := getModulePath e projectPath in
  (* Create context *)
  newCtx (mkContext projectPath
            (mkInitOptions "" modPath "" "" "" "" false "" false)
            {[ "ModulePath" := Template.VString modPath ]}) ;;
  (* Get and apply module *)
  let* mod_ :=
    (if decide (Module_ opts = "db") then
       if decide (Type_ opts = "") then fail "--type flag is required for db module"
       else
         let mod_ := Modules.GetModule (registry e) "db" (Type_ opts) in
         modifyCtx (updOptions (setDatabase (Type_ opts))) ;;
         modifyCtx (updData "Database" (Template.VString (Type_ opts))) ;;
         ret mod_
     else if decide (Module_ opts = "openapi") then
       if decide (Mode opts = "") then fail "--mode flag is required for openapi module"
       else
         let mod_ := Modules.GetModule (registry e) "openapi" (Mode opts) in
         modifyCtx (updOptions (setOpenAPI (Mode opts))) ;;
         modifyCtx (updOptions (setSpecPath (Spec opts))) ;;
         modifyCtx (updData "OpenAPI" (Template.VString (Mode opts))) ;;
         ret mod_
     else if decide (Module_ opts = "docker") then
       let mod_ := Modules.GetModule (registry e) "docker" "" in
       modifyCtx (updOptions (setDocker true)) ;;
       modifyCtx (updData "HasDocker" (Template.VBool true)) ;;
       ret mod_
     else fail ("unknown module: " +:+ Module_ opts)) in
  match mod_ with
  | None => fail ("module not found: " +:+ Module_ opts)
  | Some mod_ =>
      orWrap "failed to apply module" (Modules.Apply templatesFS mod_) ;;
      (* Run go mod tidy *)
      println "→ Running go mod tidy..." ;;
      let* r := CombinedOutput ["go"; "mod"; "tidy"] projectPath in
      (if negb r.1 then println ("Warning: go mod tidy failed: " +:+ r.2) else ret tt) ;;
      ret tt
  end.

(** [os.Open(p)]: a file or a directory that exists can be opened. *)
Definition osOpen (p : path) : M unit :=
  fun w =>
    if Os.Stat (disk w) p then (Ok tt, w)
    else (Err (Os.openError (disk w) p), w).

(** [os.Create(p)]: the file is created, or truncated when it exists. *)
Definition osCreate (p : path) : M unit := osWriteFile p "".

(** [io.Copy(destFile, sourceFile)] on the two open files: what the source
    holds at this moment is written to the destination.  Between two files
    the copy is made by [copy_file_range] (Linux), which refuses a directory
    as its source; the error names the file written to. *)
Definition ioCopy (dst src : path) : M unit :=
  fun w =>
    if Os.isDir (disk w) src then
      (Err ("write " +:+ pathString dst +:+ ": copy_file_range: is a directory"), w)
    else
      match Os.ReadFile (disk w) src with
      | Ok content => (Ok tt, setDisk (<[dst := File content]> (disk w)) w)
      | Err e => (Err e, w)
      end.

Definition CopyFile (src dst : path) : M unit :=
  osOpen src ;;
  osMkdirAll (Filepath.Dir dst) ;;
  osCreate dst ;;
  ioCopy dst src.

End Engine.

(** ** Package [cmd]: the [init] command *)

Module Cmd.

(** The flags of [init]. *)
Record InitFlags : Type := mkInitFlags {
  modulePath : string;
  router : string;
  database : string;
  openapi : string;
  specPath : string;
  docker : bool;
  migrations : string;
  force : bool
}.

(** [filepath.Join(".", projectName)], that is [Clean("./" + projectName)]:
    the path below the working directory the name leads to.  A name that
    leads out of the working directory keeps the [..] components it starts
    with. *)
Definition projectPathOf (projectName : string) : path :=
  Filepath.Clean (Strings.Split projectName "/").

(** [initCmd.RunE], on [args[0]] and the parsed flags. *)
Definition initRunE (templatesFS : list entry) (flags : InitFlags) (projectName : string)
  : M unit :=
  (* Validate required flags *)
  if decide (modulePath flags = "") then fail "--module flag is required"
  else if bool_decide (openapi flags = "gen") && bool_decide (specPath flags = "")
  then fail "--spec flag is required when using --openapi gen"
  else
    (* Create project directory *)
    let projectPath := projectPathOf projectName in
    (* Check if directory exists *)
    let* exists_ := osStat projectPath in
    if exists_ && negb (force flags) then
      fail ("directory " +:+ projectName +:+ " already exists (use --force to overwrite)")
    else
      (* Create engine and initialize project *)
      let eng := Engine.NewEngine in
      let opts := mkInitOptions projectName (modulePath flags) (router flags)
                    (database flags) (openapi flags) (specPath flags)
                    (docker flags) (migrations flags) (force flags) in
      println ("Initializing project: " +:+ projectName) ;;
      println ("Module path: " +:+ modulePath flags) ;;
      orWrap "failed to initialize project"
        (Engine.InitProject templatesFS eng projectPath opts) ;;
      println "" ;;
      println ("✓ Project " +:+ projectName +:+ " created successfully!") ;;
      println "" ;;
      println "Next steps:" ;;
      println ("  cd " +:+ projectName) ;;
      println "  go mod download" ;;
      println "  go run cmd/server/main.go" ;;
      ret tt.

(** The flags of [add]. *)
Record AddFlags : Type := mkAddFlags {
  addType : string;
  addMode : string;
  addSpec : string
}.

(** [addCmd.RunE], on [args[0]] and the parsed flags; the project is the
    working directory. *)
Definition addRunE (templatesFS : list entry) (flags : AddFlags) (moduleName : string)
  : M unit :=
  (* Check if we're in a project directory *)
  let* exists_ := osStat ["go.mod"] in
  if negb exists_ then fail "not in a Go project directory (go.mod not found)"
  else
    (* Create engine and add module *)
    let eng := Engine.NewEngine in
    let opts := Engine.mkAddOptions moduleName (addType flags) (addMode flags)
                  (addSpec flags) in
    println ("Adding module: " +:+ moduleName) ;;
    orWrap "failed to add module" (Engine.AddModule templatesFS eng [] opts) ;;
    println "" ;;
    println ("✓ Module " +:+ moduleName +:+ " added successfully!") ;;
    ret tt.

End Cmd.

(** ** The validation rule as the specification words it

    Every enumerated field has a fixed domain; the fields are checked in the
    order router, database, openapi, migrations, and the first one outside
    its domain is reported with the text naming its allowed values. *)

Module Spec.

Record domain : Type := mkDomain {
  fieldName : string;
  fieldOf : InitOptions -> string;
  allowed : list string;
  allowedText : string
}.

Definition domains : list domain :=
  [ mkDomain "router" Router ["chi"; "gin"; "fiber"] "chi, gin, or fiber";
    mkDomain "database" Database ["none"; "postgres"; "mongo"] "none, postgres, or mongo";
    mkDomain "openapi" OpenAPI ["none"; "gen"; "manual"] "none, gen, or manual";
    mkDomain "migrations" Migrations ["none"; "goose"] "none or goose" ].

Definition violates (opts : InitOptions) (d : domain) : bool :=
  negb (bool_decide (fieldOf d opts ∈ allowed d)).

Definition firstViolation (opts : InitOptions) : option domain :=
  List.find (violates opts) domains.

Definition validationError (opts : InitOptions) (d : domain) : string :=
  "invalid " +:+ fieldName d +:+ ": " +:+ fieldOf d opts
  +:+ " (must be " +:+ allowedText d +:+ ")".

(** A string from the codes of its bytes. *)
Definition bytes (codes : list nat) : string :=
  fold_right (fun n s => String (ascii_of_nat n) s) "" codes.

(** The white space of Unicode, each rune in its UTF-8 encoding: tab, line
    feed, vertical tab, form feed, carriage return, space, U+0085, U+00A0,
    U+1680, U+2000 to U+200A, U+2028, U+2029, U+202F, U+205F and U+3000. *)
Definition whiteRunes : list string :=
  map bytes
    [ [9]; [10]; [11]; [12]; [13]; [32]; [194; 133]; [194; 160]; [225; 154; 128];
      [226; 128; 128]; [226; 128; 129]; [226; 128; 130]; [226; 128; 131];
      [226; 128; 132]; [226; 128; 133]; [226; 128; 134]; [226; 128; 135];
      [226; 128; 136]; [226; 128; 137]; [226; 128; 138];
      [226; 128; 168]; [226; 128; 169]; [226; 128; 175]; [226; 129; 159];
      [227; 128; 128] ].

(** White space and nothing else. *)
Inductive blank : string -> Prop :=
| blank_empty : blank ""
| blank_rune r s : r ∈ whiteRunes -> blank s -> blank (r +:+ s).

Definition startsWhite (s : string) : Prop :=
  exists r t, r ∈ whiteRunes /\ s = r +:+ t.

Definition endsWhite (s : string) : Prop :=
  exists r t, r ∈ whiteRunes /\ s = t +:+ r.

(** [line] is a line of the form [module <path>]: the word [module] and a
    space, then the path, with white space allowed before the word, between
    the space and the path, and after the path.  The path is what is left
    when the white space around it is taken away: it is not empty and
    neither begins nor ends with white space. *)
Definition declares (line path : string) : Prop :=
  path <> "" /\ ~ startsWhite path /\ ~ endsWhite path
  /\ exists lead gap trail,
       blank lead /\ blank gap /\ blank trail
       /\ line = lead +:+ "module " +:+ gap +:+ path +:+ trail.

Definition moduleLine (line : string) : Prop := exists path, declares line path.

(** The lines of a text: what stands between its line feeds. *)
Definition linesOf (content : string) (ls : list string) : Prop :=
  ls <> []
  /\ content = String.concat Modules.nl ls
  /\ Forall (fun l => forall a b, l <> a +:+ Modules.nl +:+ b) ls.

End Spec.

(** The number of line feeds in a text. *)
Fixpoint lineFeeds (s : string) : nat :=
  match s with
  | "" => 0
  | String c r => (if Ascii.eqb c (ascii_of_nat 10) then 1 else 0) + lineFeeds r
  end.

(** The test [getModulePath] makes on a line, and what it returns for a
    line that passes it. *)
Definition isModuleLine (line : string) : bool :=
  Strings.HasPrefix (Strings.TrimSpace line) "module ".

Definition modulePathOf (line : string) : string :=
  Strings.TrimSpace (Strings.drop 7 (Strings.TrimSpace line)).

(** ** Relations between the worlds of a run *)

(** [m] leaves every world [w] in a world related to [w], also when it
    fails. *)
Definition respects (R : World -> World -> Prop) {A} (m : M A) : Prop :=
  forall w, R w (m w).2.

(** Nothing but the tree has changed. *)
Definition sameButDisk (w w' : World) : Prop :=
  stdout w' = stdout w /\ ran w' = ran w /\ tools w' = tools w
  /\ ctxObj w' = ctxObj w /\ seen w' = seen w.

(** Nothing was printed and no external command was started. *)
Definition keeps (w w' : World) : Prop :=
  stdout w' = stdout w /\ ran w' = ran w /\ tools w' = tools w.

(** From a world whose [Context] object is [c]: the object is still [c],
    and every [Apply] entered in between saw [c]. *)
Definition ctxStable (c : Context) (w w' : World) : Prop :=
  ctxObj w = c ->
  ctxObj w' = c /\ exists l, seen w' = seen w ++ l /\ Forall (eq c) l.

Definition tidy : list string := ["go"; "mod"; "tidy"].

(** The outcome of [AddModule] from [w0] in the directory [p]: on success
    exactly one external command was started, [go mod tidy] in [p], and when
    it failed a warning was printed; on an error none was started. *)
Definition tidyOutcome (w0 : World) (p : list string) (r : result unit) (w' : World) : Prop :=
  match r with
  | Ok _ =>
      exists d1,
        let '(ok, output, d) := tools w0 tidy p d1 in
        ran w' = ran w0 ++ [(tidy, p)]
        /\ disk w' = d
        /\ stdout w' = stdout w0 ++ "→ Running go mod tidy..." ::
             (if ok then [] else ["Warning: go mod tidy failed: " +:+ output])
  | Err _ => ran w' = ran w0 /\ stdout w' = stdout w0
  end.

(** ** Sample inputs *)

Module Sample.

(** External tools that always succeed and leave the tree as it is. *)
Definition toolsOk (argv dir : list string) (d : gmap (list string) fnode)
  : bool * string * gmap (list string) fnode := (true, "", d).

(** External tools among which [go mod tidy] fails. *)
Definition tidyFails (argv dir : list string) (d : gmap (list string) fnode)
  : bool * string * gmap (list string) fnode :=
  if decide (argv = ["go"; "mod"; "tidy"]) then (false, "go: no network", d)
  else (true, "", d).

Definition world (d : gmap (list string) fnode)
    (t : list string -> list string -> gmap (list string) fnode
         -> bool * string * gmap (list string) fnode) : World :=
  mkWorld d [] [] t zeroContext [].

Definition store : list entry :=
  [ DirEntry "files"
      [ DirEntry "base"
          [ FileEntry "LICENSE" "MIT";
            FileEntry "README.md.tmpl" "# {{.ProjectName}}";
            DirEntry "cmd" [ FileEntry "main.go" "package main" ] ];
        DirEntry "docker"
          [ FileEntry "Dockerfile" "FROM golang";
            FileEntry "README.md" "docker notes" ] ] ].

Definition opts : InitOptions :=
  mkInitOptions "demo" "example.com/demo" "chi" "none" "none" "" false "none" false.

Definition badRouter : InitOptions :=
  mkInitOptions "demo" "example.com/demo" "invalid" "oracle" "none" "" false "none" false.

(** A destination that exists already and holds a file. *)
Definition occupied : gmap (list string) fnode :=
  {[ ["demo"] := Dir; ["demo"; "old.txt"] := File "old" ]}.

(** A generated project: its manifest only. *)
Definition generated : gmap (list string) fnode :=
  {[ ["go.mod"] := File ("module example.com/demo" +:+ Modules.nl +:+ Modules.nl +:+ "go 1.22" +:+ Modules.nl) ]}.

Definition flags : Cmd.InitFlags :=
  Cmd.mkInitFlags "example.com/demo" "chi" "none" "none" "" false "none" false.

(** The same flags with [--force]. *)
Definition forcedFlags : Cmd.InitFlags :=
  Cmd.mkInitFlags "example.com/demo" "chi" "none" "none" "" false "none" true.

Definition forced : InitOptions :=
  mkInitOptions "demo" "example.com/demo" "chi" "none" "none" "" false "none" true.

(** A bundle with a template that does not parse, between two good files. *)
Definition broken : list entry :=
  [ DirEntry "files"
      [ DirEntry "base"
          [ FileEntry "a.txt" "first";
            FileEntry "bad.tmpl" "{{.Unclosed";
            FileEntry "c.txt" "last" ] ] ].

Definition data : gmap string Template.Value :=
  {[ "ProjectName" := Template.VString "demo" ]}.

End Sample.

(** ** Notions of the further properties *)

(** The registrations [NewRegistry] makes: category, name, module. *)
Definition registered : list (string * string * Modules.ModuleImpl) :=
  [ ("db", "postgres", Modules.PostgresModule);
    ("db", "mongo", Modules.MongoModule);
    ("openapi", "gen", Modules.OpenAPIGenModule);
    ("openapi", "manual", Modules.OpenAPIManualModule);
    ("docker", "", Modules.DockerModule) ].

(** The three external commands of [runPostSteps]. *)
Definition goModInit (opts : InitOptions) : list string :=
  ["go"; "mod"; "init"; ModulePath opts].
Definition goModTidy : list string := ["go"; "mod"; "tidy"].
Definition goFmt : list string := ["go"; "fmt"; "./..."].

(** How a run of the post-generation steps in [p] ends, told from what the
    tools answer: [d0] is the tree the first command finds, every command
    works on the tree the one before it left, and a failure of [go mod init]
    or of [go mod tidy] ends the run with the output of that command in the
    error, nothing being started after it.  [pre] is what the caller puts in
    front of the error. *)
Definition postStepsOutcome (pre : string) (opts : InitOptions) (p : list string)
    (w : World) (d0 : gmap (list string) fnode) (r : result unit) (w' : World) : Prop :=
  let '(ok1, out1, d1) := tools w (goModInit opts) p d0 in
  let '(ok2, out2, d2) := tools w goModTidy p d1 in
  let '(ok3, out3, d3) := tools w goFmt p d2 in
  if negb ok1 then
    r = Err (pre +:+ "go mod init failed: " +:+ out1)
    /\ ran w' = ran w ++ [(goModInit opts, p)] /\ disk w' = d1
  else if negb ok2 then
    r = Err (pre +:+ "go mod tidy failed: " +:+ out2)
    /\ ran w' = ran w ++ [(goModInit opts, p); (goModTidy, p)] /\ disk w' = d2
  else
    r = Ok tt
    /\ ran w' = ran w ++ [(goModInit opts, p); (goModTidy, p); (goFmt, p)]
    /\ disk w' = d3.

(** No external command was started and the tools are the same. *)
Definition quiet (w w' : World) : Prop :=
  ran w' = ran w /\ tools w' = tools w.

(** The bundle a module applies, and the name it gives it in its errors. *)
Definition bundleOf (m : Modules.ModuleImpl) : list string :=
  match m with
  | Modules.PostgresModule => ["files"; "db"; "postgres"]
  | Modules.MongoModule => ["files"; "db"; "mongo"]
  | Modules.OpenAPIGenModule => ["files"; "openapi"; "gen"]
  | Modules.OpenAPIManualModule => ["files"; "openapi"; "manual"]
  | Modules.DockerModule => ["files"; "docker"]
  end.

Definition bundleLabel (m : Modules.ModuleImpl) : string :=
  match m with
  | Modules.PostgresModule => "postgres"
  | Modules.MongoModule => "mongo"
  | Modules.OpenAPIGenModule => "openapi gen"
  | Modules.OpenAPIManualModule => "openapi manual"
  | Modules.DockerModule => "docker"
  end.

(** From a tree in which [dp] and the directories above it exist: they
    still do, and nothing outside [dp] has changed. *)
Definition confined (dp : list string) (w w' : World) : Prop :=
  (forall q, q `prefix_of` dp -> Os.isDir (disk w) q = true) ->
  (forall q, q `prefix_of` dp -> Os.isDir (disk w') q = true)
  /\ (forall k, ~ dp `prefix_of` k -> disk w' !! k = disk w !! k).

(** The node [v] at [k] is still there. *)
Definition stays (k : list string) (v : fnode) (w w' : World) : Prop :=
  disk w !! k = Some v -> disk w' !! k = Some v.

(** From a world whose [Context] object is [c]: the object is still [c],
    the external tools are the same, and the tree has changed inside the
    project path of [c] only. *)
Definition inProject (c : Context) (w w' : World) : Prop :=
  ctxObj w = c ->
  ctxObj w' = c /\ tools w' = tools w /\ confined (ProjectPath c) w w'.

(** The bytes the last file entry of [l] whose destination is [k] writes
    there; [None] when no entry of [l] is written to [k]. *)
Fixpoint lastWrite (tfs : list entry) (tp dp : list string) (data : gmap string Template.Value)
    (l : list (list string * bool)) (k : list string) : option string :=
  match l with
  | [] => None
  | (q, d) :: l' =>
      match lastWrite tfs tp dp data l' k with
      | Some c => Some c
      | None =>
          if d then None
          else match Modules.written tfs tp dp data q with
               | Ok out => if decide (out.1 = k) then Some out.2 else None
               | Err _ => None
               end
      end
  end.

(** Directories stay directories and files stay files. *)
Definition kinds (w w' : World) : Prop :=
  forall k, (disk w !! k = Some Dir -> disk w' !! k = Some Dir)
            /\ (forall c, disk w !! k = Some (File c) -> exists c', disk w' !! k = Some (File c')).

(** The entry [q] of a bundle is in place in the tree of [w]: a directory
    entry is a directory below the destination; a file entry is a file,
    under a non-empty name, in a directory. *)
Definition settled (tfs : list entry) (tp dp : list string) (data : gmap string Template.Value)
    (q : list string) (isDir : bool) (w : World) : Prop :=
  if isDir then
    exists rel, Filepath.Rel tp q = Ok rel /\ Os.isDir (disk w) (dp ++ rel) = true
  else
    exists out, Modules.written tfs tp dp data q = Ok out
      /\ (exists c, disk w !! out.1 = Some (File c))
      /\ Os.isDir (disk w) (Filepath.Dir out.1) = true
      /\ exists name, last out.1 = Some name /\ name <> "".

(** At [k] the tree is as it was, or a directory was created there. *)
Definition grew (k : list string) (w w' : World) : Prop :=
  disk w' !! k = disk w !! k \/ (disk w !! k = None /\ disk w' !! k = Some Dir).

(** ** Actions that write files last-writer-wins *)

(** A table of destinations and the bytes written there. *)
Definition writes : Type := list string -> option string.

Definition nothing : writes := fun _ => None.

Definition only (p : list string) (content : string) : writes :=
  fun k => if decide (k = p) then Some content else None.

(** The writes of [later] over those of [earlier]. *)
Definition override (later earlier : writes) : writes :=
  fun k => match later k with
           | Some c => Some c
           | None => earlier k
           end.

(** What the overlay of the bundle [tp] onto [dp] writes. *)
Definition bundleWrites (tfs : list entry) (tp dp : list string)
    (data : gmap string Template.Value) : writes :=
  match Store.open tfs tp with
  | Some (Store.ODir ch) => lastWrite tfs tp dp data (Store.walkList tp ch)
  | _ => nothing
  end.

(** The files the [Apply] of [m] adds to its bundle under the context [c]. *)
Definition moduleExtras (m : Modules.ModuleImpl) (c : Context) : writes :=
  match m with
  | Modules.PostgresModule =>
      if decide (Migrations (Options c) = "goose") then
        override
          (only (Filepath.Join (Filepath.Join (ProjectPath c) ["migrations"])
                   ["00001_initial.sql"]) Modules.migration)
          (only (Filepath.Join (Filepath.Join (ProjectPath c) ["migrations"]) [".gitkeep"]) "")
      else nothing
  | Modules.OpenAPIGenModule =>
      override
        (only (Filepath.Join (ProjectPath c) ["Makefile"]) Modules.makefileContent)
        (if decide (SpecPath (Options c) = "") then nothing
         else only (Filepath.Join (ProjectPath c) ["api"; "openapi.yaml"])
                (Modules.specContent (ProjectName (Options c))))
  | _ => nothing
  end.

(** What the module [m] writes under the context [c]: its bundle, then the
    files its [Apply] adds. *)
Definition moduleWrites (tfs : list entry) (m : Modules.ModuleImpl) (c : Context) : writes :=
  override (moduleExtras m c)
    (bundleWrites tfs (bundleOf m) (ProjectPath c) (TemplateData c)).

(** A successful run of [m] from [w] leaves the table [T] in the tree and
    creates directories besides; run again from a tree that kept the kinds
    of its nodes it succeeds and writes the table again, nothing else. *)
Definition lastWriter (T : writes) (m : M unit) (w : World) : Prop :=
  forall w1, m w = (Ok tt, w1) ->
    ctxObj w1 = ctxObj w
    /\ kinds w w1
    /\ (forall k, match T k with
                  | Some c => disk w1 !! k = Some (File c)
                  | None => grew k w w1
                  end)
    /\ (forall w', ctxObj w' = ctxObj w -> kinds w1 w' ->
          exists w'', m w' = (Ok tt, w'')
            /\ ctxObj w'' = ctxObj w'
            /\ kinds w' w''
            /\ forall k, disk w'' !! k = match T k with
                                         | Some c => Some (File c)
                                         | None => disk w' !! k
                                         end).

(** ** Further sample inputs *)

Module More.

(** The sample options with the Docker capability selected. *)
Definition dockerOpts : InitOptions :=
  mkInitOptions "demo" "example.com/demo" "chi" "none" "none" "" true "none" false.

(** A working directory with an occupied destination and, beside it, a
    directory of the user's. *)
Definition shared : gmap (list string) fnode :=
  {[ ["demo"] := Dir; ["demo"; "old.txt"] := File "old";
     ["other"] := Dir; ["other"; "notes.txt"] := File "keep" ]}.

(** A manifest whose module line comes second and is padded. *)
Definition padded : gmap (list string) fnode :=
  {[ ["go.mod"] :=
       File ("// generated" +:+ Modules.nl
             +:+ "  module " +:+ Modules.tab +:+ " example.com/demo  " +:+ Modules.nl
             +:+ "go 1.22" +:+ Modules.nl) ]}.

(** A working directory that holds a directory of the user's only. *)
Definition elsewhere : gmap (list string) fnode :=
  {[ ["other"] := Dir; ["other"; "notes.txt"] := File "keep" ]}.

(** A store with a bundle for every module. *)
Definition store : list entry :=
  [ DirEntry "files"
      [ DirEntry "base" [ FileEntry "README.md.tmpl" "# {{.ProjectName}}" ];
        DirEntry "db"
          [ DirEntry "postgres"
              [ DirEntry "internal"
                  [ DirEntry "db" [ FileEntry "db.go.tmpl" "package db // {{.ModulePath}}" ] ] ];
            DirEntry "mongo" [ FileEntry "mongo.go" "package mongo" ] ];
        DirEntry "openapi"
          [ DirEntry "gen" [ FileEntry "oapi-codegen.yaml" "package: generated" ];
            DirEntry "manual" [ FileEntry "openapi.yaml" "openapi: 3.0.0" ] ];
        DirEntry "docker" [ FileEntry "Dockerfile" "FROM golang" ] ] ].

(** Options that select PostgreSQL with goose migrations and a generated
    OpenAPI server. *)
Definition fullOpts : InitOptions :=
  mkInitOptions "demo" "example.com/demo" "chi" "postgres" "gen" "api.yaml" true "goose" false.

(** A world in which the project directory exists and the context of
    [fullOpts] has been built. *)
Definition prepared : World :=
  setCtx (mkContext ["demo"] fullOpts (Engine.templateDataOf fullOpts))
    (Sample.world {[ ["demo"] := Dir ]} Sample.toolsOk).

End More.

(** * Properties *)

(** ** The monad *)

Lemma bind_inv_ok {A B} (m : M A) (k : A -> M B) w b w2 :
  bind m k w = (Ok b, w2) ->
  exists a w1, m w = (Ok a, w1) /\ k a w1 = (Ok b, w2).
Proof.
  unfold bind. destruct (m w) as [[a|e] w1]; intros H.
  - exists a, w1. split; [reflexivity | exact H].
  - discriminate H.
Qed.

Lemma forEach_app {A} (l1 l2 : list A) (f : A -> M unit) w :
  forEach (l1 ++ l2) f w =
  match forEach l1 f w with
  | (Ok _, w1) => forEach l2 f w1
  | (Err e, w1) => (Err e, w1)
  end.
Proof.
  revert w. induction l1 as [|a l1 IH]; intros w; simpl.
  - reflexivity.
  - unfold bind. destruct (f a w) as [[u|e] w1]; [apply IH | reflexivity].
Qed.

(** ** Validation *)

Lemma member_domain (m : gmap string bool) (l : list string) k :
  (forall x, m !! x = if bool_decide (x ∈ l) then Some true else None) ->
  Engine.member m k = bool_decide (k ∈ l).
Proof.
  intros H. unfold Engine.member. rewrite H. now destruct (bool_decide (k ∈ l)).
Qed.

Lemma lookup_allowed3 (a b c x : string) :
  ({[ a := true; b := true; c := true ]} : gmap string bool) !! x
  = if bool_decide (x ∈ [a; b; c]) then Some true else None.
Proof.
  rewrite !lookup_insert. rewrite lookup_singleton.
  case_bool_decide as Hx; rewrite !elem_of_cons, elem_of_nil in Hx;
    repeat case_decide; try reflexivity; exfalso; intuition congruence.
Qed.

Lemma lookup_allowed2 (a b x : string) :
  ({[ a := true; b := true ]} : gmap string bool) !! x
  = if bool_decide (x ∈ [a; b]) then Some true else None.
Proof.
  rewrite !lookup_insert. rewrite lookup_singleton.
  case_bool_decide as Hx; rewrite !elem_of_cons, elem_of_nil in Hx;
    repeat case_decide; try reflexivity; exfalso; intuition congruence.
Qed.

Lemma validateInitOptions_spec e opts :
  Engine.validateInitOptions e opts =
  match Spec.firstViolation opts with
  | Some d => Err (Spec.validationError opts d)
  | None => Ok tt
  end.
Proof.
  unfold Engine.validateInitOptions, Spec.firstViolation, Spec.domains.
  rewrite !(member_domain _ _ _ (lookup_allowed3 _ _ _)).
  rewrite (member_domain _ _ _ (lookup_allowed2 _ _)).
  unfold Spec.violates, Spec.validationError.
  cbn [List.find Spec.fieldOf Spec.allowed Spec.fieldName Spec.allowedText].
  destruct (bool_decide (Router opts ∈ _)); cbn [negb]; [|reflexivity].
  destruct (bool_decide (Database opts ∈ _)); cbn [negb]; [|reflexivity].
  destruct (bool_decide (OpenAPI opts ∈ _)); cbn [negb]; [|reflexivity].
  destruct (bool_decide (Migrations opts ∈ _)); cbn [negb]; reflexivity.
Qed.

(** C4.  An options record whose router is outside chi, gin, fiber makes
    [InitProject] fail at once with the validation error that names the
    router and its allowed values, whatever the other fields hold and with
    the world untouched; in general [validateInitOptions] reports the first
    field, in the order router, database, openapi, migrations, that is
    outside its domain, and [InitProject] returns that error without
    touching the world. *)
Theorem validation_fails_fast tfs e p opts w :
  (Router opts ∉ ["chi"; "gin"; "fiber"] ->
     Engine.InitProject tfs e p opts w
     = (Err ("invalid router: " +:+ Router opts +:+ " (must be chi, gin, or fiber)"), w))
  /\ (forall d, Spec.firstViolation opts = Some d ->
        Engine.validateInitOptions e opts = Err (Spec.validationError opts d)
        /\ Engine.InitProject tfs e p opts w = (Err (Spec.validationError opts d), w))
  /\ (Spec.firstViolation opts = None -> Engine.validateInitOptions e opts = Ok tt).
Proof.
  assert (Hrun : forall msg, Engine.validateInitOptions e opts = Err msg ->
                 Engine.InitProject tfs e p opts w = (Err msg, w)).
  { intros msg H. unfold Engine.InitProject. now rewrite H. }
  split; [|split].
  - intros Hr. apply Hrun. rewrite validateInitOptions_spec.
    unfold Spec.firstViolation, Spec.domains, Spec.violates.
    cbn [List.find Spec.fieldOf Spec.allowed].
    rewrite bool_decide_eq_false_2 by exact Hr. reflexivity.
  - intros d Hd.
    assert (Hv : Engine.validateInitOptions e opts = Err (Spec.validationError opts d))
      by (rewrite validateInitOptions_spec; now rewrite Hd).
    split; [exact Hv | now apply Hrun].
  - intros Hn. rewrite validateInitOptions_spec. now rewrite Hn.
Qed.

(** C4 at a record whose router and database are both invalid: the router
    is the one reported. *)
Lemma validation_fails_fast_witness :
  Engine.InitProject Sample.store Engine.NewEngine ["demo"] Sample.badRouter
    (Sample.world Sample.occupied Sample.toolsOk)
  = (Err "invalid router: invalid (must be chi, gin, or fiber)",
     Sample.world Sample.occupied Sample.toolsOk)
  /\ Engine.validateInitOptions Engine.NewEngine Sample.badRouter
     = Err "invalid router: invalid (must be chi, gin, or fiber)".
Proof.
  split.
  - apply (proj1 (validation_fails_fast Sample.store Engine.NewEngine ["demo"]
                    Sample.badRouter (Sample.world Sample.occupied Sample.toolsOk))).
    intros H. rewrite !elem_of_cons, elem_of_nil in H.
    destruct H as [H|[H|[H|H]]]; try discriminate H; exact H.
  - apply (proj1 (proj2 (validation_fails_fast Sample.store Engine.NewEngine ["demo"]
                    Sample.badRouter (Sample.world Sample.occupied Sample.toolsOk)))
             (Spec.mkDomain "router" Router ["chi"; "gin"; "fiber"] "chi, gin, or fiber")).
    reflexivity.
Defined.

(** ** Strings *)

Lemma app_cons c s t : String c s +:+ t = String c (s +:+ t).
Proof. reflexivity. Qed.

Lemma app_empty_l t : "" +:+ t = t.
Proof. reflexivity. Qed.

Lemma app_empty_r s : s +:+ "" = s.
Proof. induction s as [|c s IH]; [reflexivity|]. rewrite app_cons. now rewrite IH. Qed.

Lemma app_assoc_s (a b c : string) : (a +:+ b) +:+ c = a +:+ (b +:+ c).
Proof. induction a as [|x a IH]; [reflexivity|]. rewrite !app_cons. now rewrite IH. Qed.

Lemma rev_app_app s acc t :
  String.rev_app (String.rev_app s acc) t = String.rev_app acc (s +:+ t).
Proof.
  revert acc t. induction s as [|c s IH]; intros acc t; [reflexivity|].
  cbn [String.rev_app]. rewrite IH. reflexivity.
Qed.

(** ** Frames *)

Section Respects.

Variable R : World -> World -> Prop.
Hypothesis R_refl : forall w, R w w.
Hypothesis R_trans : forall w1 w2 w3, R w1 w2 -> R w2 w3 -> R w1 w3.

Lemma respects_ret {A} (a : A) : respects R (ret a).
Proof. intros w. apply R_refl. Qed.

Lemma respects_fail {A} e : respects R (@fail A e).
Proof. intros w. apply R_refl. Qed.

Lemma respects_liftResult {A} (r : result A) : respects R (liftResult r).
Proof. intros w. apply R_refl. Qed.

Lemma respects_getCtx : respects R getCtx.
Proof. intros w. apply R_refl. Qed.

Lemma respects_osReadFile p : respects R (osReadFile p).
Proof. intros w. apply R_refl. Qed.

Lemma respects_osStat p : respects R (osStat p).
Proof. intros w. apply R_refl. Qed.

Lemma respects_bind {A B} (m : M A) (k : A -> M B) :
  respects R m -> (forall a, respects R (k a)) -> respects R (bind m k).
Proof.
  intros Hm Hk w. unfold bind. specialize (Hm w).
  destruct (m w) as [[a|e] w1]; cbn in *; [|exact Hm].
  eapply R_trans; [exact Hm | apply Hk].
Qed.

Lemma respects_orWrap {A} prefix (m : M A) : respects R m -> respects R (orWrap prefix m).
Proof.
  intros Hm w. unfold orWrap. specialize (Hm w).
  destruct (m w) as [[a|e] w1]; exact Hm.
Qed.

Lemma respects_forEach {A} (l : list A) (f : A -> M unit) :
  (forall a, respects R (f a)) -> respects R (forEach l f).
Proof.
  intros Hf. induction l as [|a l IH]; cbn [forEach].
  - apply respects_ret.
  - apply respects_bind; [apply Hf | intros _; exact IH].
Qed.

(** One step of a run that is related to its start [w0] so far: the first
    computation respects the relation, so a property of the run is owed on
    the error of that computation and on the rest of the run. *)
Lemma step {A B} w0 (m : M A) (k : A -> M B) (Q : result B -> World -> Prop) w :
  R w0 w ->
  respects R m ->
  (forall e w1, R w0 w1 -> Q (Err e) w1) ->
  (forall a w1, R w0 w1 -> Q (k a w1).1 (k a w1).2) ->
  Q (bind m k w).1 (bind m k w).2.
Proof.
  intros K Hm He Hk. unfold bind. specialize (Hm w).
  destruct (m w) as [[a|e] w1]; cbn in *; [apply Hk | apply He];
    eapply R_trans; eassumption.
Qed.

End Respects.

Lemma respects_weaken (R R' : World -> World -> Prop) {A} (m : M A) :
  (forall w w', R w w' -> R' w w') -> respects R m -> respects R' m.
Proof. intros H Hm w. apply H, Hm. Qed.

Lemma sameButDisk_refl w : sameButDisk w w.
Proof. repeat split. Qed.

Lemma sameButDisk_trans w1 w2 w3 :
  sameButDisk w1 w2 -> sameButDisk w2 w3 -> sameButDisk w1 w3.
Proof.
  intros (a1 & a2 & a3 & a4 & a5) (b1 & b2 & b3 & b4 & b5).
  repeat split; congruence.
Qed.

Lemma keeps_refl w : keeps w w.
Proof. repeat split. Qed.

Lemma keeps_trans w1 w2 w3 : keeps w1 w2 -> keeps w2 w3 -> keeps w1 w3.
Proof. intros (a1 & a2 & a3) (b1 & b2 & b3). repeat split; congruence. Qed.

Lemma ctxStable_refl c w : ctxStable c w w.
Proof. intros H. split; [exact H|]. exists []. rewrite app_nil_r. split; [reflexivity | constructor]. Qed.

Lemma ctxStable_trans c w1 w2 w3 :
  ctxStable c w1 w2 -> ctxStable c w2 w3 -> ctxStable c w1 w3.
Proof.
  intros H12 H23 H1. destruct (H12 H1) as (H2 & l1 & E1 & F1).
  destruct (H23 H2) as (H3 & l2 & E2 & F2). split; [exact H3|].
  exists (l1 ++ l2). split.
  - rewrite E2, E1. now rewrite app_assoc.
  - apply Forall_app. split; assumption.
Qed.

Lemma sameButDisk_keeps w w' : sameButDisk w w' -> keeps w w'.
Proof. intros (a & b & c & _). repeat split; assumption. Qed.

Lemma sameButDisk_ctxStable c w w' : sameButDisk w w' -> ctxStable c w w'.
Proof.
  intros (_ & _ & _ & Hc & Hs) H. split; [congruence|].
  exists []. rewrite app_nil_r. split; [exact Hs | constructor].
Qed.

Lemma diskOnly_liftOs f : respects sameButDisk (liftOs f).
Proof.
  intros w. unfold liftOs. destruct (f (disk w)); cbn; repeat split.
Qed.

Ltac disk_only :=
  repeat lazymatch goal with
    | |- respects _ (bind _ _) => apply (respects_bind _ sameButDisk_trans); [|intros ?]
    | |- respects _ (orWrap _ _) => apply respects_orWrap
    | |- respects _ (forEach _ _) =>
        apply (respects_forEach _ sameButDisk_refl sameButDisk_trans); intros ?
    | |- respects _ (ret _) => apply (respects_ret _ sameButDisk_refl)
    | |- respects _ (fail _) => apply (respects_fail _ sameButDisk_refl)
    | |- respects _ (liftResult _) => apply (respects_liftResult _ sameButDisk_refl)
    | |- respects _ getCtx => apply (respects_getCtx _ sameButDisk_refl)
    | |- respects _ (osReadFile _) => apply (respects_osReadFile _ sameButDisk_refl)
    | |- respects _ (liftOs _) => apply diskOnly_liftOs
    | |- respects _ (osMkdirAll _) => apply diskOnly_liftOs
    | |- respects _ (osWriteFile _ _) => apply diskOnly_liftOs
    | |- respects _ (osRemoveAll _) => apply diskOnly_liftOs
    | |- respects _ (Modules.WriteFile _ _) => unfold Modules.WriteFile
    | |- respects _ (if ?b then _ else _) => destruct b
    | |- respects _ (match ?x with _ => _ end) => destruct x
    end.

Lemma diskOnly_WalkDir tfs root fn :
  (forall p d err, respects sameButDisk (fn p d err)) ->
  respects sameButDisk (Fs.WalkDir tfs root fn).
Proof. intros H. unfold Fs.WalkDir. disk_only; apply H. Qed.

Lemma diskOnly_ApplyModuleTemplate tfs tp dp data :
  respects sameButDisk (Modules.ApplyModuleTemplate tfs tp dp data).
Proof. apply diskOnly_WalkDir. intros. unfold Modules.walkFn. disk_only. Qed.

Lemma diskOnly_applyTemplate tfs e tp dp data :
  respects sameButDisk (Engine.applyTemplate tfs e tp dp data).
Proof. apply diskOnly_WalkDir. intros. unfold Engine.walkFn. disk_only. Qed.

Lemma diskOnly_module_body tfs m :
  respects sameButDisk
    (match m with
     | Modules.PostgresModule => Modules.PostgresModule_Apply tfs
     | Modules.MongoModule => Modules.MongoModule_Apply tfs
     | Modules.OpenAPIGenModule => Modules.OpenAPIGenModule_Apply tfs
     | Modules.OpenAPIManualModule => Modules.OpenAPIManualModule_Apply tfs
     | Modules.DockerModule => Modules.DockerModule_Apply tfs
     end).
Proof.
  destruct m;
    unfold Modules.PostgresModule_Apply, Modules.MongoModule_Apply,
      Modules.OpenAPIGenModule_Apply, Modules.OpenAPIManualModule_Apply,
      Modules.DockerModule_Apply;
    disk_only; apply diskOnly_ApplyModuleTemplate.
Qed.

Lemma diskOnly_getModulePath e p : respects sameButDisk (Engine.getModulePath e p).
Proof. unfold Engine.getModulePath. disk_only. Qed.

(** What [Apply] leaves of the world outside the tree: everything, and one
    more entry in the history. *)
Lemma Apply_frame tfs m w :
  let w' := (Modules.Apply tfs m w).2 in
  stdout w' = stdout w /\ ran w' = ran w /\ tools w' = tools w
  /\ ctxObj w' = ctxObj w /\ seen w' = seen w ++ [ctxObj w].
Proof.
  unfold Modules.Apply, bind, observe.
  match goal with |- context [?body (mkWorld ?a ?b ?c ?d ?e ?f)] =>
    pose proof (diskOnly_module_body tfs m (mkWorld a b c d e f)) as H;
    destruct (body (mkWorld a b c d e f)) as [r w1]
  end.
  cbn in *. exact H.
Qed.

Lemma keeps_Apply tfs m : respects keeps (Modules.Apply tfs m).
Proof.
  intros w. destruct (Apply_frame tfs m w) as (a & b & c & _). repeat split; assumption.
Qed.

Lemma ctxStable_Apply c tfs m : respects (ctxStable c) (Modules.Apply tfs m).
Proof.
  intros w H. destruct (Apply_frame tfs m w) as (_ & _ & _ & Hc & Hs).
  split; [congruence|]. exists [c]. rewrite Hs, H. split; [reflexivity|].
  constructor; [reflexivity | constructor].
Qed.

Lemma ctxStable_same c w w' :
  ctxObj w' = ctxObj w -> seen w' = seen w -> ctxStable c w w'.
Proof.
  intros Hc Hs H. split; [congruence|].
  exists []. rewrite app_nil_r. split; [exact Hs | constructor].
Qed.

Lemma ctxStable_println c s : respects (ctxStable c) (println s).
Proof. intros w. now apply ctxStable_same. Qed.

Lemma ctxStable_CombinedOutput c argv dir : respects (ctxStable c) (CombinedOutput argv dir).
Proof.
  intros w. unfold CombinedOutput.
  destruct (tools w argv dir (disk w)) as [[ok output] d]. now apply ctxStable_same.
Qed.

Lemma ctxStable_diskOnly c {A} (m : M A) :
  respects sameButDisk m -> respects (ctxStable c) m.
Proof. apply respects_weaken. apply sameButDisk_ctxStable. Qed.

Ltac ctx_stable c :=
  repeat lazymatch goal with
    | |- respects _ (bind _ _) => apply (respects_bind _ (ctxStable_trans c)); [|intros ?]
    | |- respects _ (orWrap _ _) => apply respects_orWrap
    | |- respects _ (println _) => apply ctxStable_println
    | |- respects _ (CombinedOutput _ _) => apply ctxStable_CombinedOutput
    | |- respects _ (Modules.Apply _ _) => apply ctxStable_Apply
    | |- respects _ (ret _) => apply (respects_ret _ (ctxStable_refl c))
    | |- respects _ (fail _) => apply (respects_fail _ (ctxStable_refl c))
    | |- respects _ getCtx => apply (respects_getCtx _ (ctxStable_refl c))
    | |- respects _ (Engine.applyTemplate _ _ _ _ _) =>
        apply ctxStable_diskOnly, diskOnly_applyTemplate
    | |- respects _ (Engine.runPostSteps _ _ _) => unfold Engine.runPostSteps
    | |- respects _ (if ?b then _ else _) => destruct b
    | |- respects _ (match ?x with _ => _ end) => destruct x
    end.

(** C5.  No module's [Apply] and no overlay application changes the
    [Context] object.  In a run of [InitProject] every [Apply] entered saw
    the context built from the options, and at the end of the run the object
    is that context still (or was never built, when the run failed before
    the base overlay). *)
Theorem context_never_mutated tfs e p opts w :
  let c := mkContext p opts (Engine.templateDataOf opts) in
  let w' := (Engine.InitProject tfs e p opts w).2 in
  (forall m w1, ctxObj (Modules.Apply tfs m w1).2 = ctxObj w1)
  /\ (forall tp dp data w1,
        ctxObj (Engine.applyTemplate tfs e tp dp data w1).2 = ctxObj w1)
  /\ (exists l, seen w' = seen w ++ l /\ Forall (eq c) l)
  /\ (ctxObj w' = c \/ (ctxObj w' = ctxObj w /\ seen w' = seen w)).
Proof.
  intros c w'. split; [|split].
  - intros m w1. apply (Apply_frame tfs m w1).
  - intros tp dp data w1. apply (diskOnly_applyTemplate tfs e tp dp data w1).
  - subst w'.
    set (Q := fun (_ : result unit) (w' : World) =>
                (exists l, seen w' = seen w ++ l /\ Forall (eq c) l)
                /\ (ctxObj w' = c \/ (ctxObj w' = ctxObj w /\ seen w' = seen w))).
    change (Q (Engine.InitProject tfs e p opts w).1 (Engine.InitProject tfs e p opts w).2).
    assert (Hearly : forall e0 w1, sameButDisk w w1 -> Q (Err e0) w1).
    { intros e0 w1 (_ & _ & _ & Hc & Hs). split.
      - exists []. rewrite app_nil_r. split; [exact Hs | constructor].
      - right. split; assumption. }
    unfold Engine.InitProject.
    apply (step _ sameButDisk_trans w); [apply sameButDisk_refl | disk_only | exact Hearly |].
    intros _ w1 K1.
    apply (step _ sameButDisk_trans w); [exact K1 | disk_only | exact Hearly |].
    intros _ w2 K2.
    apply (step _ sameButDisk_trans w); [exact K2 | disk_only | exact Hearly |].
    intros _ w3 (_ & _ & _ & _ & Hs).
    match goal with |- Q (bind (newCtx ?c0) ?k w3).1 _ =>
      change (bind (newCtx c0) k w3) with (k tt (setCtx c w3));
      assert (Hrest : respects (ctxStable c) (k tt)) by (cbn beta; ctx_stable c);
      specialize (Hrest (setCtx c w3) eq_refl);
      destruct (k tt (setCtx c w3)) as [r w4]
    end.
    cbn in Hrest |- *. destruct Hrest as (Hc & l & El & Fl).
    split; [|left; exact Hc]. exists l. rewrite El. cbn. rewrite Hs. split; [reflexivity | exact Fl].
Qed.

Ltac keeps_outer :=
  repeat lazymatch goal with
    | |- respects _ (bind _ _) => apply (respects_bind _ keeps_trans); [|intros ?]
    | |- respects _ (orWrap _ _) => apply respects_orWrap
    | |- respects _ (newCtx _) => intros ?; repeat split
    | |- respects _ (modifyCtx _) => intros ?; repeat split
    | |- respects _ (ret _) => apply (respects_ret _ keeps_refl)
    | |- respects _ (fail _) => apply (respects_fail _ keeps_refl)
    | |- respects _ (Modules.Apply _ _) => apply keeps_Apply
    | |- respects _ (Engine.getModulePath _ _) =>
        apply (respects_weaken sameButDisk keeps), diskOnly_getModulePath;
        apply sameButDisk_keeps
    | |- respects _ (if ?b then _ else _) => destruct b
    end.

Lemma AddModule_outcome tfs e p opts w :
  tidyOutcome w p (Engine.AddModule tfs e p opts w).1 (Engine.AddModule tfs e p opts w).2.
Proof.
  assert (Herr : forall e0 w1, keeps w w1 -> tidyOutcome w p (Err e0) w1).
  { intros e0 w1 (a & b & _). split; assumption. }
  unfold Engine.AddModule.
  apply (step _ keeps_trans w); [apply keeps_refl | keeps_outer | exact Herr |].
  intros modPath w1 K1.
  apply (step _ keeps_trans w); [exact K1 | keeps_outer | exact Herr |].
  intros _ w2 K2.
  apply (step _ keeps_trans w); [exact K2 | keeps_outer | exact Herr |].
  intros a w3 K3. destruct a as [m|]; [|apply Herr; exact K3].
  apply (step _ keeps_trans w); [exact K3 | keeps_outer | exact Herr |].
  intros _ w4 (Ho & Hr & Ht).
  unfold bind, println, CombinedOutput, ret. cbn.
  destruct (tools w4 ["go"; "mod"; "tidy"] p (disk w4)) as [[ok output] d] eqn:E.
  destruct ok; cbn; exists (disk w4); unfold tidy; rewrite <- Ht, E; cbn;
    rewrite ?Ho, ?Hr; repeat split.
  rewrite <- app_assoc. reflexivity.
Qed.

(** C3, as amended.  When [AddModule] succeeds exactly one external command
    was started, [go mod tidy] in the project directory (formatting is never
    run), and when that command failed a warning was printed and the run
    succeeded all the same; when [AddModule] returns an error no external
    command was started, so no error comes from the post-step. *)
Theorem AddModule_post_step tfs e p opts w :
  let w' := (Engine.AddModule tfs e p opts w).2 in
  match (Engine.AddModule tfs e p opts w).1 with
  | Ok _ =>
      exists d1,
        let '(ok, output, d) := tools w ["go"; "mod"; "tidy"] p d1 in
        ran w' = ran w ++ [(["go"; "mod"; "tidy"], p)]
        /\ disk w' = d
        /\ stdout w' = stdout w ++ "→ Running go mod tidy..." ::
             (if ok then [] else ["Warning: go mod tidy failed: " +:+ output])
  | Err _ => ran w' = ran w /\ stdout w' = stdout w
  end.
Proof. exact (AddModule_outcome tfs e p opts w). Qed.

(** ** Suffixes *)

Lemma rev_app_append s acc : String.rev_app s acc = String.rev s +:+ acc.
Proof.
  unfold String.rev. revert acc. induction s as [|c s IH]; intros acc; [reflexivity|].
  cbn [String.rev_app]. rewrite (IH (String c acc)), (IH (String c "")).
  rewrite app_assoc_s. reflexivity.
Qed.

Lemma rev_append a b : String.rev (a +:+ b) = String.rev b +:+ String.rev a.
Proof.
  induction a as [|c a IH].
  - rewrite app_empty_l. cbn. now rewrite app_empty_r.
  - rewrite app_cons. unfold String.rev at 1 3. cbn [String.rev_app].
    rewrite !rev_app_append, IH, app_assoc_s. reflexivity.
Qed.

Lemma rev_involutive s : String.rev (String.rev s) = s.
Proof. unfold String.rev. rewrite rev_app_app. cbn. apply app_empty_r. Qed.

Lemma length_append a b :
  String.length (a +:+ b) = String.length a + String.length b.
Proof.
  induction a as [|c a IH]; [reflexivity|]. rewrite app_cons. cbn. now rewrite IH.
Qed.

Lemma rev_length s : String.length (String.rev s) = String.length s.
Proof.
  induction s as [|c s IH]; [reflexivity|].
  unfold String.rev. cbn [String.rev_app]. rewrite rev_app_append.
  rewrite length_append, IH. cbn. lia.
Qed.

Lemma HasPrefix_append x y : Strings.HasPrefix (x +:+ y) x = true.
Proof.
  induction x as [|c x IH]; [reflexivity|].
  rewrite app_cons. cbn. now rewrite Ascii.eqb_refl.
Qed.

Lemma drop_append x y : Strings.drop (String.length x) (x +:+ y) = y.
Proof. induction x as [|c x IH]; [reflexivity | exact IH]. Qed.

Lemma HasPrefix_split s x :
  Strings.HasPrefix s x = true -> s = x +:+ Strings.drop (String.length x) s.
Proof.
  revert s. induction x as [|c x IH]; intros s H; [reflexivity|].
  destruct s as [|d s]; [discriminate H|]. cbn in H.
  destruct (Ascii.eqb d c) eqn:E; [|discriminate H].
  apply Ascii.eqb_eq in E. subst d. rewrite app_cons. cbn. f_equal. now apply IH.
Qed.

Lemma HasSuffix_append base suffix : Strings.HasSuffix (base +:+ suffix) suffix = true.
Proof. unfold Strings.HasSuffix. rewrite rev_append. apply HasPrefix_append. Qed.

Lemma TrimSuffix_append base suffix : Strings.TrimSuffix (base +:+ suffix) suffix = base.
Proof.
  unfold Strings.TrimSuffix. rewrite HasSuffix_append, rev_append.
  rewrite <- (rev_length suffix), drop_append. apply rev_involutive.
Qed.

(** ** Paths *)

Lemma Rel_below base rel : Filepath.Rel base (base ++ rel) = Ok rel.
Proof.
  induction base as [|b base IH]; [reflexivity|].
  cbn. destruct (decide (b = b)); [exact IH | congruence].
Qed.

Lemma path_HasSuffix_snoc (p : list string) name suffix :
  Filepath.HasSuffix (p ++ [name]) suffix = Strings.HasSuffix name suffix.
Proof. unfold Filepath.HasSuffix. now rewrite last_snoc. Qed.

Lemma path_TrimSuffix_snoc (p : list string) name suffix :
  Filepath.TrimSuffix (p ++ [name]) suffix = p ++ [Strings.TrimSuffix name suffix].
Proof. unfold Filepath.TrimSuffix. now rewrite last_snoc, removelast_last. Qed.

Lemma below_not_root (base rel : list string) : rel <> [] -> base ++ rel <> base.
Proof.
  intros Hr H. apply Hr. apply (f_equal length) in H.
  rewrite length_app in H. destruct rel; [reflexivity | cbn in H; lia].
Qed.

(** ** The walk *)

Lemma entry_nested_ind (P : entry -> Prop) :
  (forall n c, P (FileEntry n c)) ->
  (forall n ch, Forall P ch -> P (DirEntry n ch)) ->
  forall e, P e.
Proof.
  intros Hf Hd. fix IH 1. intros [n c|n ch].
  - apply Hf.
  - apply Hd. induction ch as [|e ch IHch]; constructor; [apply IH | exact IHch].
Qed.

Lemma walkEntry_dir at_ n ch :
  Store.walkEntry at_ (DirEntry n ch)
  = (at_ ++ [n], true) :: Store.walkList (at_ ++ [n]) ch.
Proof.
  cbn [Store.walkEntry]. f_equal. induction ch as [|e ch IH]; [reflexivity|].
  cbn [Store.walkList]. now rewrite <- IH.
Qed.

Lemma walkEntry_below e : forall at_ q d,
  (q, d) ∈ Store.walkEntry at_ e -> exists rel, rel <> [] /\ q = at_ ++ rel.
Proof.
  induction e as [n c|n ch IH] using entry_nested_ind; intros at_ q d H.
  - cbn in H. apply list_elem_of_singleton in H. injection H as -> ->.
    exists [n]. split; [discriminate | reflexivity].
  - rewrite walkEntry_dir in H. apply elem_of_cons in H as [H|H].
    + injection H as -> ->. exists [n]. split; [discriminate | reflexivity].
    + induction ch as [|e ch IHch]; [inversion H|].
      cbn [Store.walkList] in H. apply elem_of_app in H as [H|H].
      * apply Forall_inv in IH. destruct (IH _ _ _ H) as (rel & Hr & ->).
        exists (n :: rel). split; [discriminate | now rewrite <- app_assoc].
      * apply IHch; [now apply Forall_inv_tail in IH | exact H].
Qed.

Lemma walkList_below es : forall at_ q d,
  (q, d) ∈ Store.walkList at_ es -> exists rel, rel <> [] /\ q = at_ ++ rel.
Proof.
  induction es as [|e es IH]; intros at_ q d H; [inversion H|].
  cbn [Store.walkList] in H. apply elem_of_app in H as [H|H].
  - eapply walkEntry_below; exact H.
  - eapply IH; exact H.
Qed.

(** ** The tree *)

Lemma setDisk_id w : setDisk (disk w) w = w.
Proof. now destruct w. Qed.

Lemma mkdirFrom_mono todo : forall (fs : gmap (list string) fnode) at_ fs',
  Os.mkdirFrom fs at_ todo = Ok fs' ->
  forall k v, fs !! k = Some v -> fs' !! k = Some v.
Proof.
  induction todo as [|c rest IH]; intros fs at_ fs' H k v Hk; cbn in H.
  - injection H as <-. exact Hk.
  - destruct (fs !! (at_ ++ [c])) as [[|content]|] eqn:E.
    + eapply IH; eassumption.
    + discriminate H.
    + eapply IH; [exact H|]. rewrite lookup_insert_ne; [exact Hk|].
      intros Heq. subst k. congruence.
Qed.

Lemma MkdirAll_mono (fs : gmap (list string) fnode) p fs' :
  Os.MkdirAll fs p = Ok fs' ->
  forall k v, fs !! k = Some v -> fs' !! k = Some v.
Proof.
  unfold Os.MkdirAll. destruct (Os.isDir fs p).
  - intros [= <-] k v Hk. exact Hk.
  - apply mkdirFrom_mono.
Qed.

Lemma WriteFile_ok (fs : gmap (list string) fnode) p content fs' :
  Os.WriteFile fs p content = Ok fs' -> fs' = <[p := File content]> fs.
Proof.
  unfold Os.WriteFile. destruct (last p) as [name|]; [|discriminate].
  destruct (decide (name = "")); [discriminate|].
  destruct (Os.isDir fs (removelast p)).
  - destruct (fs !! p) as [[|c]|]; [discriminate | | ]; now intros [= <-].
  - destruct (fs !! removelast p) as [[|c]|]; discriminate.
Qed.

Lemma liftOs_ok f w w' :
  liftOs f w = (Ok tt, w') -> exists d, f (disk w) = Ok d /\ w' = setDisk d w.
Proof.
  unfold liftOs. destruct (f (disk w)) as [d|e]; [|discriminate].
  intros [= <-]. eauto.
Qed.

Lemma osMkdirAll_mono p w w' :
  osMkdirAll p w = (Ok tt, w') ->
  forall k v, disk w !! k = Some v -> disk w' !! k = Some v.
Proof.
  intros H. unfold osMkdirAll in H. apply liftOs_ok in H as (d & Hd & ->). cbn.
  eapply MkdirAll_mono; exact Hd.
Qed.

Lemma osWriteFile_ok p content w w' :
  osWriteFile p content w = (Ok tt, w') ->
  disk w' = <[p := File content]> (disk w).
Proof.
  intros H. unfold osWriteFile in H. apply liftOs_ok in H as (d & Hd & ->). cbn.
  eapply WriteFile_ok; exact Hd.
Qed.

(** ** One entry of the walk *)

Lemma walkFn_same tfs e tp dp data p d err :
  Engine.walkFn tfs e tp dp data p d err = Modules.walkFn tfs tp dp data p d err.
Proof. reflexivity. Qed.

Lemma applyTemplate_same tfs e tp dp data :
  Engine.applyTemplate tfs e tp dp data = Modules.ApplyModuleTemplate tfs tp dp data.
Proof. reflexivity. Qed.

Lemma walkFn_file tfs tp dp data p w :
  p <> tp ->
  Modules.walkFn tfs tp dp data p false None w =
  match Modules.written tfs tp dp data p with
  | Err e => (Err e, w)
  | Ok out => (osMkdirAll (Filepath.Dir out.1) ;; osWriteFile out.1 out.2) w
  end.
Proof.
  intros Hp. unfold Modules.walkFn, Modules.written.
  destruct (decide (p = tp)); [contradiction|].
  unfold bind at 1. unfold liftResult at 1.
  destruct (Filepath.Rel tp p) as [rel|e]; [|reflexivity].
  unfold bind at 1. unfold liftResult at 1.
  destruct (Store.ReadFile tfs p) as [content|e]; [|reflexivity].
  unfold bind at 1.
  destruct (Filepath.HasSuffix p ".tmpl"); [|reflexivity].
  destruct (Modules.renderTemplate content data); reflexivity.
Qed.

Lemma walkFn_file_ok tfs tp dp data p w w' :
  p <> tp ->
  Modules.walkFn tfs tp dp data p false None w = (Ok tt, w') ->
  exists out, Modules.written tfs tp dp data p = Ok out
    /\ disk w' !! out.1 = Some (File out.2)
    /\ forall k v, k <> out.1 -> disk w !! k = Some v -> disk w' !! k = Some v.
Proof.
  intros Hp H. rewrite walkFn_file in H by exact Hp.
  destruct (Modules.written tfs tp dp data p) as [out|e]; [|discriminate H].
  exists out. split; [reflexivity|].
  apply bind_inv_ok in H as ([] & w1 & Hm & Hw).
  apply osWriteFile_ok in Hw. rewrite Hw. split.
  - apply lookup_insert_eq.
  - intros k v Hk Hv. rewrite lookup_insert_ne by (intros Heq; apply Hk; now symmetry).
    eapply osMkdirAll_mono; eassumption.
Qed.

Lemma walkFn_dir_ok tfs tp dp data p w w' :
  Modules.walkFn tfs tp dp data p true None w = (Ok tt, w') ->
  forall k v, disk w !! k = Some v -> disk w' !! k = Some v.
Proof.
  unfold Modules.walkFn. destruct (decide (p = tp)).
  - intros [= <-]. auto.
  - unfold bind, liftResult. destruct (Filepath.Rel tp p) as [rel|e]; [|discriminate].
    apply osMkdirAll_mono.
Qed.

Lemma walk_keeps_file tfs tp dp data dest bytes l : forall w w',
  forEach l (fun pd => Modules.walkFn tfs tp dp data pd.1 pd.2 None) w = (Ok tt, w') ->
  (forall q, (q, false) ∈ l -> q <> tp) ->
  (forall q out, (q, false) ∈ l -> Modules.written tfs tp dp data q = Ok out -> out.1 <> dest) ->
  disk w !! dest = Some (File bytes) ->
  disk w' !! dest = Some (File bytes).
Proof.
  induction l as [|[q d] l IH]; intros w w' H Hroot Hlast Hw; cbn [forEach] in H.
  - injection H as <-. exact Hw.
  - apply bind_inv_ok in H as ([] & w1 & Hstep & Hrest). cbn [fst snd] in Hstep.
    eapply IH; [exact Hrest | | | ].
    + intros q' Hq'. apply Hroot. now right.
    + intros q' out Hq'. apply Hlast. now right.
    + destruct d.
      * eapply walkFn_dir_ok; eassumption.
      * apply walkFn_file_ok in Hstep as (out & Hout & _ & Hother).
        2:{ apply Hroot. now left. }
        apply Hother; [|exact Hw]. intros ->.
        eapply Hlast; [now left | exact Hout | reflexivity].
Qed.

Lemma WalkDir_dir tfs tp fn ch w :
  Store.open tfs tp = Some (Store.ODir ch) ->
  Fs.WalkDir tfs tp fn w
  = (fn tp true None ;; forEach (Store.walkList tp ch) (fun pd => fn pd.1 pd.2 None)) w.
Proof. intros H. unfold Fs.WalkDir. now rewrite H. Qed.

Lemma walkFn_root tfs tp dp data d w :
  Modules.walkFn tfs tp dp data tp d None w = (Ok tt, w).
Proof. unfold Modules.walkFn. destruct (decide (tp = tp)); [reflexivity | congruence]. Qed.

Lemma ApplyModuleTemplate_dir tfs tp dp data ch w :
  Store.open tfs tp = Some (Store.ODir ch) ->
  Modules.ApplyModuleTemplate tfs tp dp data w
  = forEach (Store.walkList tp ch) (fun pd => Modules.walkFn tfs tp dp data pd.1 pd.2 None) w.
Proof.
  intros H. unfold Modules.ApplyModuleTemplate. rewrite (WalkDir_dir _ _ _ _ _ H).
  unfold bind. now rewrite walkFn_root.
Qed.

Lemma written_file tfs tp dp data dir name content :
  Store.ReadFile tfs (tp ++ dir ++ [name]) = Ok content ->
  Modules.written tfs tp dp data (tp ++ dir ++ [name]) =
  if Strings.HasSuffix name ".tmpl" then
    match Modules.renderTemplate content data with
    | Err e => Err (wrap ("failed to render template " +:+ pathString (tp ++ dir ++ [name])) e)
    | Ok rendered => Ok (dp ++ dir ++ [Strings.TrimSuffix name ".tmpl"], rendered)
    end
  else Ok (dp ++ dir ++ [name], content).
Proof.
  intros Hread. unfold Modules.written. rewrite Rel_below, Hread.
  rewrite (app_assoc tp dir [name]), path_HasSuffix_snoc.
  unfold Filepath.Join. rewrite (app_assoc dp dir [name]), path_TrimSuffix_snoc.
  rewrite <- !app_assoc. reflexivity.
Qed.

Lemma file_not_root (tp dir : list string) name : tp ++ dir ++ [name] <> tp.
Proof. apply below_not_root. now destruct dir. Qed.

(** C6.  The walk on a file entry of a bundle.  When the name ends with the
    marker [.tmpl], a failure to render is returned with the source path and
    nothing is written, and it ends the whole apply, the later entries
    unvisited; after a successful step the destination holds, under the name
    without the marker, the rendered template.  When the name does not end
    with the marker, after a successful step the destination holds the
    source bytes under the same relative name.  The walks of the engine and
    of the modules are the same function. *)
Theorem overlay_file_entry tfs e tp dp data dir name content w :
  Store.ReadFile tfs (tp ++ dir ++ [name]) = Ok content ->
  (forall base, name = base +:+ ".tmpl" ->
     (forall msg, Engine.renderTemplate e content data = Err msg ->
        Engine.walkFn tfs e tp dp data (tp ++ dir ++ [name]) false None w
        = (Err ("failed to render template " +:+ pathString (tp ++ dir ++ [name])
                +:+ ": " +:+ msg), w))
     /\ (forall out w', Engine.renderTemplate e content data = Ok out ->
           Engine.walkFn tfs e tp dp data (tp ++ dir ++ [name]) false None w = (Ok tt, w') ->
           disk w' !! (dp ++ dir ++ [base]) = Some (File out)))
  /\ (Strings.HasSuffix name ".tmpl" = false ->
      forall w', Engine.walkFn tfs e tp dp data (tp ++ dir ++ [name]) false None w = (Ok tt, w') ->
      disk w' !! (dp ++ dir ++ [name]) = Some (File content))
  /\ (forall p d err,
        Modules.walkFn tfs tp dp data p d err = Engine.walkFn tfs e tp dp data p d err)
  /\ (forall ch l1 l2 w0 msg,
        Store.open tfs tp = Some (Store.ODir ch) ->
        Store.walkList tp ch = l1 ++ (tp ++ dir ++ [name], false) :: l2 ->
        forEach l1 (fun pd => Engine.walkFn tfs e tp dp data pd.1 pd.2 None) w0 = (Ok tt, w) ->
        Strings.HasSuffix name ".tmpl" = true ->
        Engine.renderTemplate e content data = Err msg ->
        Engine.applyTemplate tfs e tp dp data w0
        = (Err ("failed to render template " +:+ pathString (tp ++ dir ++ [name])
                +:+ ": " +:+ msg), w)).
Proof.
  intros Hread.
  pose proof (written_file tfs tp dp data dir name content Hread) as Hwr.
  pose proof (file_not_root tp dir name) as Hroot.
  assert (Hfail : forall msg, Strings.HasSuffix name ".tmpl" = true ->
            Engine.renderTemplate e content data = Err msg ->
            Engine.walkFn tfs e tp dp data (tp ++ dir ++ [name]) false None w
            = (Err ("failed to render template " +:+ pathString (tp ++ dir ++ [name])
                    +:+ ": " +:+ msg), w)).
  { intros msg Hs Hr. rewrite walkFn_same, walkFn_file by exact Hroot.
    rewrite Hwr, Hs. change (Modules.renderTemplate content data)
      with (Engine.renderTemplate e content data). now rewrite Hr. }
  split; [|split; [|split]].
  - intros base ->. split.
    + intros msg. apply Hfail. apply HasSuffix_append.
    + intros out w' Hr Hstep. rewrite walkFn_same in Hstep.
      apply walkFn_file_ok in Hstep as (o & Ho & Hfile & _); [|exact Hroot].
      rewrite Hwr, HasSuffix_append in Ho.
      change (Modules.renderTemplate content data)
        with (Engine.renderTemplate e content data) in Ho.
      rewrite Hr, TrimSuffix_append in Ho. injection Ho as <-. exact Hfile.
  - intros Hs w' Hstep. rewrite walkFn_same in Hstep.
    apply walkFn_file_ok in Hstep as (o & Ho & Hfile & _); [|exact Hroot].
    rewrite Hwr, Hs in Ho. injection Ho as <-. exact Hfile.
  - reflexivity.
  - intros ch l1 l2 w0 msg Hopen Hwalk Hbefore Hs Hr.
    rewrite applyTemplate_same, (ApplyModuleTemplate_dir _ _ _ _ _ _ Hopen), Hwalk.
    rewrite forEach_app.
    change (fun pd : list string * bool => Modules.walkFn tfs tp dp data pd.1 pd.2 None)
      with (fun pd : list string * bool => Engine.walkFn tfs e tp dp data pd.1 pd.2 None).
    rewrite Hbefore. cbn [forEach]. unfold bind. cbn [fst snd].
    now rewrite (Hfail msg Hs Hr).
Qed.

(** C7.  Bundles A and B both hold a file that maps to the destination
    path [dest]; B's file is the last entry of B's walk that does.  After A
    and then B were applied with success, [dest] holds exactly the bytes
    produced from B's file. *)
Theorem later_bundle_wins tfs e tpA tpB dp dataA dataB chA chB pA pB bytesA bytesB
    dest before after w wA wB :
  Store.open tfs tpA = Some (Store.ODir chA) ->
  (pA, false) ∈ Store.walkList tpA chA ->
  Modules.written tfs tpA dp dataA pA = Ok (dest, bytesA) ->
  Store.open tfs tpB = Some (Store.ODir chB) ->
  Store.walkList tpB chB = before ++ (pB, false) :: after ->
  Modules.written tfs tpB dp dataB pB = Ok (dest, bytesB) ->
  (forall q out, (q, false) ∈ after ->
     Modules.written tfs tpB dp dataB q = Ok out -> out.1 <> dest) ->
  Engine.applyTemplate tfs e tpA dp dataA w = (Ok tt, wA) ->
  Modules.ApplyModuleTemplate tfs tpB dp dataB wA = (Ok tt, wB) ->
  disk wB !! dest = Some (File bytesB).
Proof.
  intros _ _ _ HopenB Hwalk HwrB Hlast _ HB.
  rewrite (ApplyModuleTemplate_dir _ _ _ _ _ _ HopenB), Hwalk, forEach_app in HB.
  destruct (forEach before _ wA) as [[[]|e0] w1]; [|discriminate HB].
  cbn [forEach] in HB. apply bind_inv_ok in HB as ([] & w2 & Hstep & Hrest).
  cbn [fst snd] in Hstep.
  assert (Hbelow : forall q d, (q, d) ∈ after -> q <> tpB).
  { intros q d Hq. destruct (walkList_below chB tpB q d) as (rel & Hrel & ->).
    - rewrite Hwalk. apply elem_of_app. right. now right.
    - now apply below_not_root. }
  apply walkFn_file_ok in Hstep as (out & Hout & Hfile & _).
  2:{ destruct (walkList_below chB tpB pB false) as (rel & Hrel & ->).
      - rewrite Hwalk. apply elem_of_app. right. now left.
      - now apply below_not_root. }
  rewrite HwrB in Hout. injection Hout as <-. cbn [fst snd] in Hfile.
  eapply walk_keeps_file; [exact Hrest | | exact Hlast | exact Hfile].
  intros q Hq. eapply Hbelow; exact Hq.
Qed.

Lemma InitProject_phases tfs e p opts :
  Engine.InitProject tfs e p opts =
  (liftResult (Engine.validateInitOptions e opts) ;;
   (if Force opts
    then orWrap "failed to remove existing directory" (osRemoveAll p)
    else ret tt) ;;
   orWrap "failed to create project directory" (osMkdirAll p) ;;
   Engine.afterDirectoryPrep tfs e p opts).
Proof. reflexivity. Qed.

Lemma RemoveAll_clears (fs : gmap (list string) fnode) p d :
  Os.RemoveAll fs p = Ok d ->
  forall q, p `prefix_of` q -> d !! q = None.
Proof.
  unfold Os.RemoveAll. destruct p as [|c p]; [discriminate|].
  intros [= <-] q Hq. apply map_lookup_filter_None. right.
  intros v _. cbn. unfold Os.below. rewrite bool_decide_eq_true_2 by exact Hq.
  discriminate.
Qed.

Lemma RemoveAll_elsewhere (fs : gmap (list string) fnode) p d :
  Os.RemoveAll fs p = Ok d ->
  forall q, ~ p `prefix_of` q -> d !! q = fs !! q.
Proof.
  unfold Os.RemoveAll. destruct p as [|c p]; [discriminate|].
  intros [= <-] q Hq. destruct (fs !! q) as [v|] eqn:E.
  - apply map_lookup_filter_Some. split; [exact E|]. cbn. unfold Os.below.
    now rewrite bool_decide_eq_false_2.
  - apply map_lookup_filter_None. now left.
Qed.

(** C1, as amended.  The rejection of an existing destination is made by
    the [init] command, before [InitProject] is called: when the path exists
    and the force flag is off the command fails and the world is untouched.
    [InitProject] itself makes no such test: with [Force] off and the
    destination a directory already, preparing the directory changes nothing
    and the run goes on with the base overlay.  With [Force] on, the run goes
    on from the tree in which the destination and everything below it have
    been removed, the rest of the tree being as before, and recreates the
    directory there. *)
Theorem destination_conflict tfs e p opts flags name w :
  (Os.Stat (disk w) (Cmd.projectPathOf name) = true -> Cmd.force flags = false ->
     Cmd.initRunE tfs flags name w =
     (Err (if decide (Cmd.modulePath flags = "") then "--module flag is required"
           else if bool_decide (Cmd.openapi flags = "gen")
                   && bool_decide (Cmd.specPath flags = "")
           then "--spec flag is required when using --openapi gen"
           else "directory " +:+ name +:+ " already exists (use --force to overwrite)"),
      w))
  /\ (Engine.validateInitOptions e opts = Ok tt -> Force opts = false ->
      Os.isDir (disk w) p = true ->
      Engine.InitProject tfs e p opts w = Engine.afterDirectoryPrep tfs e p opts w)
  /\ (Engine.validateInitOptions e opts = Ok tt -> Force opts = true ->
      forall d, Os.RemoveAll (disk w) p = Ok d ->
      (forall q, p `prefix_of` q -> d !! q = None)
      /\ (forall q, ~ p `prefix_of` q -> d !! q = disk w !! q)
      /\ Engine.InitProject tfs e p opts w
         = (orWrap "failed to create project directory" (osMkdirAll p) ;;
            Engine.afterDirectoryPrep tfs e p opts) (setDisk d w)).
Proof.
  split; [|split].
  - intros Hstat Hforce. unfold Cmd.initRunE.
    destruct (decide (Cmd.modulePath flags = "")); [reflexivity|].
    destruct (bool_decide (Cmd.openapi flags = "gen") && bool_decide (Cmd.specPath flags = ""));
      [reflexivity|].
    unfold bind, osStat. rewrite Hstat, Hforce. reflexivity.
  - intros Hv Hf Hd. rewrite InitProject_phases, Hv, Hf.
    unfold bind at 1. unfold liftResult. unfold bind at 1. unfold ret at 1.
    unfold bind at 1. unfold orWrap, osMkdirAll, liftOs, Os.MkdirAll. rewrite Hd.
    now rewrite setDisk_id.
  - intros Hv Hf d Hd. split; [eapply RemoveAll_clears; exact Hd|].
    split; [eapply RemoveAll_elsewhere; exact Hd|].
    rewrite InitProject_phases, Hv, Hf.
    unfold bind at 1. unfold liftResult. unfold bind at 1.
    unfold orWrap at 1. unfold osRemoveAll, liftOs. rewrite Hd. reflexivity.
Qed.

(** ** Trimming *)

Ltac bools :=
  repeat match goal with
    | H : _ && _ = true |- _ => apply andb_true_iff in H; destruct H
    | H : _ || _ = true |- _ => apply orb_true_iff in H; destruct H
    | H : _ && _ = false |- _ => apply andb_false_iff in H
    | H : _ || _ = false |- _ => apply orb_false_iff in H; destruct H
    | H : Nat.eqb _ _ = true |- _ => apply Nat.eqb_eq in H
    | H : Nat.eqb _ _ = false |- _ => apply Nat.eqb_neq in H
    | H : Nat.leb _ _ = true |- _ => apply Nat.leb_le in H
    | H : Nat.leb _ _ = false |- _ => apply Nat.leb_gt in H
    end.

Lemma cutSpace_shorter s r :
  Strings.cutSpace s = Some r -> String.length r < String.length s.
Proof.
  unfold Strings.cutSpace. destruct s as [|c [|d [|e s]]]; cbn [String.length];
    repeat match goal with
      | |- context [if ?b then _ else _] => destruct b
      end; intros [= <-]; cbn [String.length]; lia.
Qed.

Lemma cutSpaceRev_shorter s r :
  Strings.cutSpaceRev s = Some r -> String.length r < String.length s.
Proof.
  unfold Strings.cutSpaceRev. destruct s as [|c [|d [|e s]]]; cbn [String.length];
    repeat match goal with
      | |- context [if ?b then _ else _] => destruct b
      end; intros [= <-]; cbn [String.length]; lia.
Qed.

Lemma trimWith_fixed cut :
  (forall s r, cut s = Some r -> String.length r < String.length s) ->
  forall n s, String.length s <= n -> cut (Strings.trimWith cut n s) = None.
Proof.
  intros Hcut. induction n as [|n IH]; intros s Hn; cbn [Strings.trimWith].
  - destruct (cut s) as [r|] eqn:E; [|reflexivity]. apply Hcut in E. lia.
  - destruct (cut s) as [r|] eqn:E; [|exact E].
    apply IH. apply Hcut in E. lia.
Qed.

Lemma trimWith_empty cut n s :
  Strings.trimWith cut n s = "" -> s = "" \/ exists r, cut s = Some r.
Proof.
  destruct n as [|n]; cbn [Strings.trimWith]; [now left|].
  destruct (cut s) as [r|]; [right; eauto | now left].
Qed.

Lemma cutSpaceRev_extend a b r :
  Strings.cutSpaceRev a = Some r -> exists r', Strings.cutSpaceRev (a +:+ b) = Some r'.
Proof.
  unfold Strings.cutSpaceRev. destruct a as [|c [|d [|e a]]]; rewrite ?app_cons;
    try discriminate;
    repeat match goal with
      | |- context [if ?b then _ else _] => destruct b
      end; try discriminate; eauto.
Qed.

Lemma asciiSpace_high c : 128 <= Strings.code c -> Strings.asciiSpace c = false.
Proof.
  intros H. unfold Strings.asciiSpace.
  destruct (Nat.leb_spec 9 (Strings.code c)), (Nat.leb_spec (Strings.code c) 13),
    (Nat.eqb_spec (Strings.code c) 32); cbn; try reflexivity; lia.
Qed.

(** A white-space rune cut from the front is, read backwards, a white-space
    rune at the end. *)
Lemma cutSpace_rune s r :
  Strings.cutSpace s = Some r ->
  exists enc, s = enc +:+ r /\ exists x, Strings.cutSpaceRev (String.rev enc) = Some x.
Proof.
  unfold Strings.cutSpace. destruct s as [|c s]; [discriminate|].
  destruct (Strings.asciiSpace c) eqn:Ec.
  { intros [= <-]. exists (String c ""). split; [reflexivity|].
    cbn. rewrite Ec. eauto. }
  destruct s as [|d s]; [discriminate|].
  destruct (Nat.eqb (Strings.code c) 194) eqn:E194.
  { destruct (_ || _) eqn:Ed; [|discriminate]. intros [= <-].
    exists (String c (String d "")). split; [reflexivity|].
    cbn. rewrite asciiSpace_high by (bools; lia). rewrite E194, Ed. cbn. eauto. }
  destruct s as [|e s]; [discriminate|]. cbv zeta.
  intros H. exists (String c (String d (String e ""))).
  assert (r = s /\ 128 <= Strings.code e /\ Strings.code d <> 194) as (-> & He & Hd).
  { revert H.
    repeat match goal with
      | |- context [if ?b then _ else _] => let E := fresh "E" in destruct b eqn:E
      end; try discriminate; intros [= <-]; bools; repeat split; lia. }
  split; [reflexivity|].
  unfold String.rev. cbn [String.rev_app]. unfold Strings.cutSpaceRev.
  rewrite (asciiSpace_high e He).
  apply Nat.eqb_neq in Hd. rewrite Hd. cbn [andb]. cbv zeta.
  revert H.
  repeat match goal with
    | |- context [if ?b then _ else _] => destruct b
    end; eauto; discriminate.
Qed.

Lemma trimLeft_suffix n : forall s,
  exists pre, s = pre +:+ Strings.trimWith Strings.cutSpace n s.
Proof.
  induction n as [|n IH]; intros s; cbn [Strings.trimWith].
  - exists "". reflexivity.
  - destruct (Strings.cutSpace s) as [r|] eqn:E; [|exists ""; reflexivity].
    destruct (cutSpace_rune _ _ E) as (enc & -> & _).
    destruct (IH r) as (pre & Hpre). exists (enc +:+ pre).
    rewrite app_assoc_s. now rewrite <- Hpre.
Qed.

Lemma trimLeft_all_space n : forall s,
  Strings.trimWith Strings.cutSpace n s = "" -> s <> "" ->
  exists x, Strings.cutSpaceRev (String.rev s) = Some x.
Proof.
  induction n as [|n IH]; intros s H Hs; cbn [Strings.trimWith] in H; [contradiction|].
  destruct (Strings.cutSpace s) as [r|] eqn:E; [|contradiction].
  destruct (cutSpace_rune _ _ E) as (enc & -> & x & Hx).
  rewrite rev_append. destruct r as [|c r].
  - rewrite app_empty_l. eauto.
  - destruct (IH (String c r) H) as (y & Hy); [discriminate|].
    eapply cutSpaceRev_extend; exact Hy.
Qed.

Lemma rev_empty s : String.rev s = "" -> s = "".
Proof. intros H. rewrite <- (rev_involutive s), H. reflexivity. Qed.

Lemma TrimSpace_no_trailing_space s : Strings.cutSpaceRev (String.rev (Strings.TrimSpace s)) = None.
Proof.
  unfold Strings.TrimSpace, Strings.TrimRightSpace. rewrite rev_involutive.
  apply trimWith_fixed; [apply cutSpaceRev_shorter|]. now rewrite rev_length.
Qed.

Lemma module_path_not_empty line :
  isModuleLine line = true -> modulePathOf line <> "".
Proof.
  unfold isModuleLine, modulePathOf. intros H.
  apply HasPrefix_split in H.
  pose proof (TrimSpace_no_trailing_space line) as Hend.
  set (T := Strings.TrimSpace line) in *.
  change (String.length "module ") with 7 in H.
  set (rest := Strings.drop 7 T) in *.
  assert (Hcontra : forall a x, Strings.cutSpaceRev (String.rev a) = Some x ->
            forall b, T = b +:+ a -> False).
  { intros a x Ha b Hb. rewrite Hb, rev_append in Hend.
    destruct (cutSpaceRev_extend _ (String.rev b) _ Ha) as (y & Hy). congruence. }
  intros Hempty. unfold Strings.TrimSpace, Strings.TrimRightSpace in Hempty.
  apply rev_empty in Hempty.
  destruct (trimLeft_suffix (String.length rest) rest) as (pre & Hpre).
  fold (Strings.TrimLeftSpace rest) in Hpre.
  apply trimWith_empty in Hempty as [Hempty | (x & Hx)].
  - apply rev_empty in Hempty.
    destruct rest as [|c rest'] eqn:Erest.
    + apply (Hcontra " " "" eq_refl "module"). exact H.
    + destruct (trimLeft_all_space _ _ Hempty) as (x & Hx); [discriminate|].
      eapply Hcontra; [exact Hx | exact H].
  - eapply (Hcontra _ _ Hx ("module " +:+ pre)).
    rewrite app_assoc_s, <- Hpre. exact H.
Qed.

Lemma find_first {A} (f : A -> bool) before x after :
  Forall (fun y => f y = false) before -> f x = true ->
  List.find f (before ++ x :: after) = Some x.
Proof.
  intros Hb Hx. induction Hb as [|y before Hy _ IH]; cbn.
  - now rewrite Hx.
  - now rewrite Hy.
Qed.

Lemma find_none {A} (f : A -> bool) l :
  Forall (fun y => f y = false) l -> List.find f l = None.
Proof.
  intros H. induction H as [|y l Hy _ IH]; cbn; [reflexivity|]. now rewrite Hy.
Qed.

(** ** White space, rune by rune *)

Lemma each_white (P : string -> Prop) :
  Forall P Spec.whiteRunes -> forall r, r ∈ Spec.whiteRunes -> P r.
Proof. intros H r Hr. exact (proj1 (Forall_forall P _) H r Hr). Qed.

Ltac for_each_white :=
  lazymatch goal with
  | |- forall r, r ∈ Spec.whiteRunes -> @?P r => apply (each_white P)
  end;
  unfold Spec.whiteRunes; cbn [map];
  repeat apply List.Forall_cons; [..|apply List.Forall_nil]; cbv beta.

Ltac in_white := apply (bool_decide_unpack _); vm_compute; exact I.

Lemma cutSpace_white r : r ∈ Spec.whiteRunes -> forall t, Strings.cutSpace (r +:+ t) = Some t.
Proof. revert r. for_each_white; intros t; reflexivity. Qed.

Lemma cutSpaceRev_white r :
  r ∈ Spec.whiteRunes -> forall t, Strings.cutSpaceRev (String.rev r +:+ t) = Some t.
Proof. revert r. for_each_white; intros t; reflexivity. Qed.

Lemma white_not_empty r : r ∈ Spec.whiteRunes -> 1 <= String.length r.
Proof. revert r. for_each_white; cbn; lia. Qed.

Lemma code_pin c n : Strings.code c = n -> c = ascii_of_nat n.
Proof. intros <-. unfold Strings.code. now rewrite ascii_nat_embedding. Qed.

Ltac pin :=
  repeat match goal with
    | H : Strings.code ?c = _ |- _ => apply code_pin in H; subst c
    end.

Lemma asciiSpace_cases c :
  Strings.asciiSpace c = true ->
  c = ascii_of_nat 9 \/ c = ascii_of_nat 10 \/ c = ascii_of_nat 11 \/ c = ascii_of_nat 12
  \/ c = ascii_of_nat 13 \/ c = ascii_of_nat 32.
Proof.
  unfold Strings.asciiSpace. cbv zeta. intros H. bools.
  - assert (Strings.code c = 9 \/ Strings.code c = 10 \/ Strings.code c = 11
            \/ Strings.code c = 12 \/ Strings.code c = 13) as Hc by lia.
    destruct Hc as [Hc|[Hc|[Hc|[Hc|Hc]]]]; apply code_pin in Hc; auto 10.
  - apply code_pin in H. auto 10.
Qed.

Lemma found1 c t :
  String c "" ∈ Spec.whiteRunes -> exists r, r ∈ Spec.whiteRunes /\ String c t = r +:+ t.
Proof. intros H. now exists (String c ""). Qed.

Lemma found2 c d t :
  String c (String d "") ∈ Spec.whiteRunes ->
  exists r, r ∈ Spec.whiteRunes /\ String c (String d t) = r +:+ t.
Proof. intros H. now exists (String c (String d "")). Qed.

Lemma found3 c d e t :
  String c (String d (String e "")) ∈ Spec.whiteRunes ->
  exists r, r ∈ Spec.whiteRunes /\ String c (String d (String e t)) = r +:+ t.
Proof. intros H. now exists (String c (String d (String e ""))). Qed.

Ltac range_cases c lo hi :=
  let H := fresh "Hr" in
  assert (H : exists k, k <= hi - lo /\ Strings.code c = lo + k)
    by (exists (Strings.code c - lo); lia);
  destruct H as (k & Hk & H);
  do 11 (try (destruct k as [|k]; [cbn in H|])); [..|lia].

(** What [cutSpace] removes is a white-space rune. *)
Lemma cutSpace_is_white s t :
  Strings.cutSpace s = Some t -> exists r, r ∈ Spec.whiteRunes /\ s = r +:+ t.
Proof.
  unfold Strings.cutSpace. destruct s as [|c s]; [discriminate|].
  destruct (Strings.asciiSpace c) eqn:Ec.
  { intros [= <-]. apply asciiSpace_cases in Ec.
    destruct Ec as [->|[->|[->|[->|[->| ->]]]]]; apply found1; in_white. }
  destruct s as [|d s]; [discriminate|].
  destruct (Nat.eqb (Strings.code c) 194) eqn:E194.
  { destruct (_ || _) eqn:Ed; [|discriminate]. intros [= <-].
    bools; pin; apply found2; in_white. }
  destruct s as [|e s]; [discriminate|]. cbv zeta.
  repeat match goal with
    | |- context [if ?b then _ else _] => let E := fresh "E" in destruct b eqn:E
    end; try discriminate; intros [= <-]; clear Ec E194.
  - bools. pin. apply found3; in_white.
  - bools; [range_cases e 128 138|..]; pin; apply found3; in_white.
  - bools. pin. apply found3; in_white.
  - bools. pin. apply found3; in_white.
Qed.

Lemma foundRev1 c t :
  String c "" ∈ Spec.whiteRunes ->
  exists r, r ∈ Spec.whiteRunes /\ String c t = String.rev r +:+ t.
Proof. intros H. now exists (String c ""). Qed.

Lemma foundRev2 c d t :
  String d (String c "") ∈ Spec.whiteRunes ->
  exists r, r ∈ Spec.whiteRunes /\ String c (String d t) = String.rev r +:+ t.
Proof. intros H. now exists (String d (String c "")). Qed.

Lemma foundRev3 c d e t :
  String e (String d (String c "")) ∈ Spec.whiteRunes ->
  exists r, r ∈ Spec.whiteRunes /\ String c (String d (String e t)) = String.rev r +:+ t.
Proof. intros H. now exists (String e (String d (String c ""))). Qed.

(** What [cutSpaceRev] removes is a white-space rune, read backwards. *)
Lemma cutSpaceRev_is_white s t :
  Strings.cutSpaceRev s = Some t ->
  exists r, r ∈ Spec.whiteRunes /\ s = String.rev r +:+ t.
Proof.
  unfold Strings.cutSpaceRev. destruct s as [|c s]; [discriminate|].
  destruct (Strings.asciiSpace c) eqn:Ec.
  { intros [= <-]. apply asciiSpace_cases in Ec.
    destruct Ec as [->|[->|[->|[->|[->| ->]]]]]; apply foundRev1; in_white. }
  destruct s as [|d s]; [discriminate|].
  destruct (Nat.eqb (Strings.code d) 194 && _) eqn:E194.
  { intros [= <-]. bools; pin; apply foundRev2; in_white. }
  destruct s as [|e s]; [discriminate|]. cbv zeta.
  repeat match goal with
    | |- context [if ?b then _ else _] => let E := fresh "E" in destruct b eqn:E
    end; try discriminate; intros [= <-]; clear Ec E194.
  - bools. pin. apply foundRev3; in_white.
  - bools; [range_cases c 128 138|..]; pin; apply foundRev3; in_white.
  - bools. pin. apply foundRev3; in_white.
  - bools. pin. apply foundRev3; in_white.
Qed.

(** ** Blank strings *)

Lemma blank_app a b : Spec.blank a -> Spec.blank b -> Spec.blank (a +:+ b).
Proof.
  induction 1 as [|r s Hr Hs IH]; intros Hb; [exact Hb|].
  rewrite app_assoc_s. apply Spec.blank_rune; auto.
Qed.

Lemma blank_one r : r ∈ Spec.whiteRunes -> Spec.blank r.
Proof.
  intros H. rewrite <- (app_empty_r r). apply Spec.blank_rune; [exact H | constructor].
Qed.

(** A blank string that is not empty ends with a white-space rune. *)
Lemma blank_last b :
  Spec.blank b -> b <> "" ->
  exists b' r, Spec.blank b' /\ r ∈ Spec.whiteRunes /\ b = b' +:+ r.
Proof.
  induction 1 as [|r s Hr Hs IH]; intros Hne; [congruence|].
  destruct s as [|c s].
  - exists "", r. rewrite app_empty_r. repeat split; [constructor | exact Hr].
  - destruct IH as (b' & r' & Hb' & Hr' & E); [discriminate|].
    exists (r +:+ b'), r'. rewrite E, app_assoc_s.
    repeat split; [apply Spec.blank_rune; assumption | exact Hr'].
Qed.

Lemma blank_length_ind (P : string -> Prop) :
  P "" ->
  (forall b r, Spec.blank b -> P b -> r ∈ Spec.whiteRunes -> P (b +:+ r)) ->
  forall b, Spec.blank b -> P b.
Proof.
  intros H0 Hstep b.
  remember (String.length b) as n eqn:En. revert b En.
  induction n as [n IH] using lt_wf_ind. intros b En Hb.
  destruct b as [|c b0] eqn:Eb; [exact H0|]. rewrite <- Eb in *.
  destruct (blank_last b Hb) as (b' & r & Hb' & Hr & E); [now rewrite Eb|].
  rewrite E. apply Hstep; [exact Hb' | | exact Hr].
  apply (IH (String.length b')); [|reflexivity | exact Hb'].
  rewrite En, E, length_append. pose proof (white_not_empty r Hr). lia.
Qed.

Lemma blank_end b :
  Spec.blank b -> b <> "" -> exists x, Strings.cutSpaceRev (String.rev b) = Some x.
Proof.
  intros Hb Hne. destruct (blank_last b Hb Hne) as (b' & r & _ & Hr & ->).
  rewrite rev_append. exists (String.rev b'). now apply cutSpaceRev_white.
Qed.

(** ** Trimming, told by what is cut *)

Lemma trimWith_fixpoint cut n s : cut s = None -> Strings.trimWith cut n s = s.
Proof. intros H. destruct n; cbn [Strings.trimWith]; [reflexivity | now rewrite H]. Qed.

Lemma trimLeft_blank lead : Spec.blank lead ->
  forall n s, Strings.cutSpace s = None -> String.length lead <= n ->
  Strings.trimWith Strings.cutSpace n (lead +:+ s) = s.
Proof.
  induction 1 as [|r b Hr Hb IH]; intros n s Hs Hn.
  - rewrite app_empty_l. now apply trimWith_fixpoint.
  - rewrite length_append in Hn. pose proof (white_not_empty r Hr).
    destruct n as [|n]; [lia|]. cbn [Strings.trimWith].
    rewrite app_assoc_s, (cutSpace_white r Hr). apply IH; [exact Hs | lia].
Qed.

Lemma TrimLeftSpace_blank lead s :
  Spec.blank lead -> Strings.cutSpace s = None -> Strings.TrimLeftSpace (lead +:+ s) = s.
Proof.
  intros Hb Hs. unfold Strings.TrimLeftSpace. apply trimLeft_blank; [exact Hb | exact Hs |].
  rewrite length_append. lia.
Qed.

Lemma trimRight_blank trail : Spec.blank trail ->
  forall n body, Strings.cutSpaceRev (String.rev body) = None -> String.length trail <= n ->
  Strings.trimWith Strings.cutSpaceRev n (String.rev (body +:+ trail)) = String.rev body.
Proof.
  intros Hb. pattern trail. revert trail Hb. apply blank_length_ind.
  - intros n body Hs _. rewrite app_empty_r. now apply trimWith_fixpoint.
  - intros b r Hb IH Hr n body Hs Hn.
    rewrite length_append in Hn. pose proof (white_not_empty r Hr).
    destruct n as [|n]; [lia|]. cbn [Strings.trimWith].
    rewrite <- app_assoc_s, rev_append, (cutSpaceRev_white r Hr).
    apply IH; [exact Hs | lia].
Qed.

Lemma TrimRightSpace_blank body trail :
  Spec.blank trail -> Strings.cutSpaceRev (String.rev body) = None ->
  Strings.TrimRightSpace (body +:+ trail) = body.
Proof.
  intros Hb Hs. unfold Strings.TrimRightSpace.
  rewrite trimRight_blank; [apply rev_involutive | exact Hb | exact Hs |].
  rewrite length_append. lia.
Qed.

Lemma trimLeft_cut n : forall s,
  exists lead, Spec.blank lead /\ s = lead +:+ Strings.trimWith Strings.cutSpace n s.
Proof.
  induction n as [|n IH]; intros s; cbn [Strings.trimWith].
  - exists "". split; [constructor | reflexivity].
  - destruct (Strings.cutSpace s) as [r|] eqn:E.
    + destruct (cutSpace_is_white _ _ E) as (x & Hx & ->).
      destruct (IH r) as (lead & Hlead & Hr). exists (x +:+ lead).
      split; [now apply Spec.blank_rune|]. rewrite app_assoc_s. now rewrite <- Hr.
    + exists "". split; [constructor | reflexivity].
Qed.

Lemma trimRight_cut n : forall s,
  exists trail, Spec.blank trail
    /\ s = String.rev trail +:+ Strings.trimWith Strings.cutSpaceRev n s.
Proof.
  induction n as [|n IH]; intros s; cbn [Strings.trimWith].
  - exists "". split; [constructor | reflexivity].
  - destruct (Strings.cutSpaceRev s) as [r|] eqn:E.
    + destruct (cutSpaceRev_is_white _ _ E) as (x & Hx & ->).
      destruct (IH r) as (trail & Htrail & Hr). exists (trail +:+ x).
      split; [apply blank_app; [exact Htrail | now apply blank_one]|].
      rewrite rev_append, app_assoc_s. now rewrite <- Hr.
    + exists "". split; [constructor | reflexivity].
Qed.

Lemma TrimLeftSpace_cut s :
  exists lead, Spec.blank lead /\ s = lead +:+ Strings.TrimLeftSpace s.
Proof. apply trimLeft_cut. Qed.

Lemma TrimRightSpace_cut s :
  exists trail, Spec.blank trail /\ s = Strings.TrimRightSpace s +:+ trail.
Proof.
  unfold Strings.TrimRightSpace.
  destruct (trimRight_cut (String.length s) (String.rev s)) as (trail & Hb & E).
  exists trail. split; [exact Hb|].
  apply (f_equal String.rev) in E. rewrite rev_involutive, rev_append, rev_involutive in E.
  exact E.
Qed.

Lemma TrimLeftSpace_start s : Strings.cutSpace (Strings.TrimLeftSpace s) = None.
Proof. apply trimWith_fixed; [apply cutSpace_shorter | reflexivity]. Qed.

Lemma not_startsWhite s : Strings.cutSpace s = None <-> ~ Spec.startsWhite s.
Proof.
  split.
  - intros H (r & t & Hr & ->). rewrite (cutSpace_white r Hr) in H. discriminate H.
  - intros H. destruct (Strings.cutSpace s) as [t|] eqn:E; [|reflexivity].
    exfalso. apply H. destruct (cutSpace_is_white _ _ E) as (r & Hr & ->). now exists r, t.
Qed.

Lemma not_endsWhite s : Strings.cutSpaceRev (String.rev s) = None <-> ~ Spec.endsWhite s.
Proof.
  split.
  - intros H (r & t & Hr & ->). rewrite rev_append, (cutSpaceRev_white r Hr) in H.
    discriminate H.
  - intros H. destruct (Strings.cutSpaceRev (String.rev s)) as [t|] eqn:E; [|reflexivity].
    exfalso. apply H. destruct (cutSpaceRev_is_white _ _ E) as (r & Hr & E').
    exists r, (String.rev t). split; [exact Hr|].
    apply (f_equal String.rev) in E'. now rewrite rev_involutive, rev_append, rev_involutive in E'.
Qed.

(** The last byte of a white-space rune, and the byte before it. *)
Lemma white_end r : r ∈ Spec.whiteRunes -> forall t,
  exists z0 Z', String.rev r +:+ t = String z0 Z'
    /\ Strings.code z0 <> 194 /\ Strings.code z0 <> 225
    /\ Strings.code z0 <> 226 /\ Strings.code z0 <> 227
    /\ (Strings.code z0 = 154 \/ Strings.code z0 = 128 \/ Strings.code z0 = 129 ->
        match Z' with
        | "" => True
        | String z1 _ =>
            Strings.code z1 <> 225 /\ Strings.code z1 <> 226 /\ Strings.code z1 <> 227
        end).
Proof.
  revert r. for_each_white; intros t; eexists _, _; (split; [reflexivity|]);
    (do 4 (split; [intros H; vm_compute in H; discriminate H|]));
    first [ intros [H|[H|H]]; vm_compute in H; discriminate H
          | intros _; repeat split; intros H; vm_compute in H; discriminate H ].
Qed.

(** Where a white-space rune ends, no white-space rune can end one or two
    bytes later that began before. *)
Lemma cutSpaceRev_after_white a r t :
  a <> "" -> Strings.cutSpaceRev a = None -> r ∈ Spec.whiteRunes ->
  Strings.cutSpaceRev (a +:+ String.rev r +:+ t) = None.
Proof.
  intros Ha Hnone Hr.
  destruct (white_end r Hr t) as (z0 & Z & -> & H194 & H225 & H226 & H227 & Hmid).
  destruct a as [|c [|d [|e a]]]; [congruence| | |].
  - unfold Strings.cutSpaceRev in Hnone.
    destruct (Strings.asciiSpace c) eqn:Ec; [discriminate|].
    rewrite !app_cons, app_empty_l. unfold Strings.cutSpaceRev. rewrite Ec.
    apply Nat.eqb_neq in H194. rewrite H194. cbn [andb].
    destruct Z as [|z1 Z]; [reflexivity|]. cbv zeta.
    repeat match goal with
      | |- context [if ?b then _ else _] => let E := fresh "E" in destruct b eqn:E
      end; try reflexivity; exfalso; bools; lia.
  - unfold Strings.cutSpaceRev in Hnone.
    destruct (Strings.asciiSpace c) eqn:Ec; [discriminate|].
    destruct (Nat.eqb (Strings.code d) 194 && _) eqn:Ed; [discriminate|].
    rewrite !app_cons, app_empty_l. unfold Strings.cutSpaceRev. rewrite Ec, Ed. cbv zeta.
    repeat match goal with
      | |- context [if ?b then _ else _] => let E := fresh "E" in destruct b eqn:E
      end; try reflexivity; exfalso; bools; lia.
  - rewrite !app_cons. revert Hnone. unfold Strings.cutSpaceRev.
    repeat match goal with
      | |- context [if ?b then _ else _] => destruct b
      end; congruence.
Qed.

(** A line of the form [module <path>] passes the test of [getModulePath],
    which reads [path] from it. *)
Lemma declares_read line path :
  Spec.declares line path -> isModuleLine line = true /\ modulePathOf line = path.
Proof.
  intros (Hne & Hstart & Hend & lead & gap & trail & Hlead & Hgap & Htrail & ->).
  apply not_startsWhite in Hstart. apply not_endsWhite in Hend.
  assert (Hgapend : exists r t, r ∈ Spec.whiteRunes
                      /\ String.rev ("module " +:+ gap) = String.rev r +:+ t).
  { destruct gap as [|g gap'] eqn:Eg.
    - exists " ", "eludom". split; [in_white | reflexivity].
    - rewrite <- Eg in *. destruct (blank_last gap Hgap) as (b & r & _ & Hr & ->);
        [now rewrite Eg|].
      exists r, (String.rev ("module " +:+ b)). split; [exact Hr|].
      rewrite <- app_assoc_s. now rewrite rev_append. }
  assert (Hbody : Strings.cutSpaceRev (String.rev ("module " +:+ gap +:+ path)) = None).
  { rewrite <- app_assoc_s, rev_append.
    destruct Hgapend as (r & t & Hr & ->).
    apply cutSpaceRev_after_white; [|exact Hend | exact Hr].
    intros E. apply rev_empty in E. contradiction. }
  assert (Htrim : Strings.TrimSpace (lead +:+ "module " +:+ gap +:+ path +:+ trail)
                  = "module " +:+ gap +:+ path).
  { unfold Strings.TrimSpace. rewrite TrimLeftSpace_blank; [|exact Hlead | reflexivity].
    replace ("module " +:+ gap +:+ path +:+ trail)
      with (("module " +:+ gap +:+ path) +:+ trail) by now rewrite !app_assoc_s.
    now apply TrimRightSpace_blank. }
  unfold isModuleLine, modulePathOf. rewrite Htrim. split; [apply HasPrefix_append|].
  change 7 with (String.length "module "). rewrite drop_append.
  unfold Strings.TrimSpace. rewrite TrimLeftSpace_blank; [|exact Hgap | exact Hstart].
  rewrite <- (app_empty_r path) at 1. apply TrimRightSpace_blank; [constructor | exact Hend].
Qed.

(** A line that passes the test of [getModulePath] is of the form
    [module <path>], for the path read from it. *)
Lemma read_declares line :
  isModuleLine line = true -> Spec.declares line (modulePathOf line).
Proof.
  intros H. pose proof (module_path_not_empty line H) as Hne.
  unfold isModuleLine in H. apply HasPrefix_split in H.
  change (String.length "module ") with 7 in H.
  unfold modulePathOf in *.
  set (T := Strings.TrimSpace line) in *. set (rest := Strings.drop 7 T) in *.
  (* the line around its trimmed text *)
  destruct (TrimLeftSpace_cut line) as (lead & Hlead & Eline).
  destruct (TrimRightSpace_cut (Strings.TrimLeftSpace line)) as (trail & Htrail & Eleft).
  fold (Strings.TrimSpace line) in Eleft. fold T in Eleft.
  (* the rest around the path *)
  destruct (TrimLeftSpace_cut rest) as (gap & Hgap & Erest).
  destruct (TrimRightSpace_cut (Strings.TrimLeftSpace rest)) as (trail2 & Htrail2 & Eleft2).
  fold (Strings.TrimSpace rest) in Eleft2.
  (* the trimmed text does not end with white space *)
  assert (trail2 = "") as ->.
  { destruct trail2 as [|c t2] eqn:E2; [reflexivity|]. exfalso. rewrite <- E2 in *.
    destruct (blank_end trail2 Htrail2) as (x & Hx); [now rewrite E2|].
    pose proof (TrimSpace_no_trailing_space line) as Hend. fold T in Hend.
    rewrite H, Erest, Eleft2, <- !app_assoc_s, rev_append in Hend.
    destruct (cutSpaceRev_extend _ (String.rev (("module " +:+ gap) +:+ Strings.TrimSpace rest))
                _ Hx) as (y & Hy).
    congruence. }
  rewrite app_empty_r in Eleft2.
  split; [exact Hne|]. split; [|split].
  - apply not_startsWhite. rewrite <- Eleft2. apply TrimLeftSpace_start.
  - apply not_endsWhite. apply TrimSpace_no_trailing_space.
  - exists lead, gap, trail. repeat (split; [assumption|]).
    rewrite Eline at 1. rewrite Eleft, H, Erest, Eleft2 at 1.
    now rewrite !app_assoc_s.
Qed.

Lemma moduleLine_test line : Spec.moduleLine line <-> isModuleLine line = true.
Proof.
  split.
  - intros (path & H). apply (declares_read line path H).
  - intros H. exists (modulePathOf line). now apply read_declares.
Qed.

(** ** Lines *)

Lemma Split_one l :
  (forall a b, l <> a +:+ Modules.nl +:+ b) -> forall rest,
  Strings.Split (l +:+ Modules.nl +:+ rest) (ascii_of_nat 10)
  = l :: Strings.Split rest (ascii_of_nat 10).
Proof.
  induction l as [|c l IH]; intros H rest.
  - reflexivity.
  - rewrite app_cons. cbn [Strings.Split].
    destruct (Ascii.eqb c (ascii_of_nat 10)) eqn:E.
    + apply Ascii.eqb_eq in E. subst c. exfalso. apply (H "" l). reflexivity.
    + rewrite IH; [reflexivity|]. intros a b ->. apply (H (String c a) b). reflexivity.
Qed.

Lemma Split_last l :
  (forall a b, l <> a +:+ Modules.nl +:+ b) -> Strings.Split l (ascii_of_nat 10) = [l].
Proof.
  induction l as [|c l IH]; intros H; [reflexivity|].
  cbn [Strings.Split].
  destruct (Ascii.eqb c (ascii_of_nat 10)) eqn:E.
  - apply Ascii.eqb_eq in E. subst c. exfalso. apply (H "" l). reflexivity.
  - rewrite IH; [reflexivity|]. intros a b ->. apply (H (String c a) b). reflexivity.
Qed.

Lemma Split_lines content ls :
  Spec.linesOf content ls -> Strings.Split content (ascii_of_nat 10) = ls.
Proof.
  intros (Hne & -> & Hall). induction ls as [|l ls IH]; [congruence|].
  apply Forall_cons in Hall as [Hl Hls].
  destruct ls as [|l' ls'].
  - now apply Split_last.
  - change (String.concat Modules.nl (l :: l' :: ls'))
      with (l +:+ Modules.nl +:+ String.concat Modules.nl (l' :: ls')).
    rewrite Split_one by exact Hl. f_equal. apply IH; [discriminate | exact Hls].
Qed.

Lemma oneLine_noByte l :
  Strings.noByte (ascii_of_nat 10) l = true -> forall a b, l <> a +:+ Modules.nl +:+ b.
Proof.
  intros H a b ->. induction a as [|c a IH].
  - cbn in H. discriminate H.
  - rewrite app_cons in H. cbn [Strings.noByte] in H.
    apply andb_true_iff in H as [_ H]. auto.
Qed.

Lemma getModulePath_found e p w content before line after :
  Os.ReadFile (disk w) (p ++ ["go.mod"]) = Ok content ->
  Strings.Split content (ascii_of_nat 10) = before ++ line :: after ->
  Forall (fun l => isModuleLine l = false) before ->
  isModuleLine line = true ->
  Engine.getModulePath e p w = (Ok (modulePathOf line), w).
Proof.
  intros H Hsplit Hbefore Hline.
  unfold Engine.getModulePath, bind, orWrap, osReadFile, Filepath.Join.
  rewrite H, Hsplit.
  change (fun line0 => Strings.HasPrefix (Strings.TrimSpace line0) "module ")
    with isModuleLine.
  rewrite (find_first _ _ _ _ Hbefore Hline).
  unfold Strings.TrimPrefix. unfold isModuleLine in Hline. rewrite Hline.
  reflexivity.
Qed.

Lemma getModulePath_inv e p w path w' :
  Engine.getModulePath e p w = (Ok path, w') ->
  w' = w /\ exists line, isModuleLine line = true /\ path = modulePathOf line.
Proof.
  unfold Engine.getModulePath, bind, orWrap, osReadFile, Filepath.Join.
  destruct (Os.ReadFile (disk w) (p ++ ["go.mod"])) as [content|err]; [|discriminate].
  cbn [fst snd].
  change (fun line0 => Strings.HasPrefix (Strings.TrimSpace line0) "module ")
    with isModuleLine.
  destruct (List.find isModuleLine _) as [line|] eqn:Ef; [|discriminate].
  apply find_some in Ef as [_ Hline].
  intros [= <- <-]. split; [reflexivity|]. exists line.
  split; [exact Hline|].
  unfold modulePathOf, Strings.TrimPrefix. unfold isModuleLine in Hline. now rewrite Hline.
Qed.

Lemma not_moduleLine l : ~ Spec.moduleLine l -> isModuleLine l = false.
Proof.
  intros H. destruct (isModuleLine l) eqn:E; [|reflexivity].
  exfalso. apply H. now apply moduleLine_test.
Qed.

Lemma getModulePath_spec e p w :
  (forall msg, Os.ReadFile (disk w) (p ++ ["go.mod"]) = Err msg ->
     Engine.getModulePath e p w = (Err ("failed to read go.mod: " +:+ msg), w))
  /\ (forall content ls,
        Os.ReadFile (disk w) (p ++ ["go.mod"]) = Ok content ->
        Spec.linesOf content ls ->
        (forall before line after path,
           ls = before ++ line :: after ->
           Forall (fun l => ~ Spec.moduleLine l) before ->
           Spec.declares line path ->
           Engine.getModulePath e p w = (Ok path, w))
        /\ (Forall (fun l => ~ Spec.moduleLine l) ls ->
            Engine.getModulePath e p w = (Err "module path not found in go.mod", w)))
  /\ (forall path w', Engine.getModulePath e p w = (Ok path, w') -> path <> "" /\ w' = w).
Proof.
  split; [|split].
  - intros msg H. unfold Engine.getModulePath, bind, orWrap, osReadFile, Filepath.Join.
    now rewrite H.
  - intros content ls H Hlines. apply Split_lines in Hlines. split.
    + intros before line after path -> Hbefore Hline.
      destruct (declares_read line path Hline) as [Htest <-].
      apply (getModulePath_found e p w content before line after H Hlines); [|exact Htest].
      eapply Forall_impl; [exact Hbefore|]. intros l. apply not_moduleLine.
    + intros Hnone. unfold Engine.getModulePath, bind, orWrap, osReadFile, Filepath.Join.
      rewrite H, Hlines.
      change (fun line0 => Strings.HasPrefix (Strings.TrimSpace line0) "module ")
        with isModuleLine.
      rewrite find_none; [reflexivity|].
      eapply Forall_impl; [exact Hnone|]. intros l. apply not_moduleLine.
  - intros path w' H. apply getModulePath_inv in H as (-> & line & Hline & ->).
    split; [now apply module_path_not_empty | reflexivity].
Qed.

Lemma blank_byte c s : String c "" ∈ Spec.whiteRunes -> Spec.blank s -> Spec.blank (String c s).
Proof. intros Hc Hs. exact (Spec.blank_rune (String c "") s Hc Hs). Qed.

(** C8.  [getModulePath] fails with the error of the read when [go.mod]
    cannot be read, and with [module path not found in go.mod] when no line
    of the file is of the form [module <path>].  Otherwise it returns the
    path of the first line of that form: the text that follows the word
    [module] and a space, without the white space around it, white space
    being allowed before the word and after the path.  What it returns on
    success is never the empty path, and it leaves the world as it is. *)
Theorem getModulePath_reads_manifest e p w :
  (forall msg, Os.ReadFile (disk w) (p ++ ["go.mod"]) = Err msg ->
     Engine.getModulePath e p w = (Err ("failed to read go.mod: " +:+ msg), w))
  /\ (forall content ls,
        Os.ReadFile (disk w) (p ++ ["go.mod"]) = Ok content ->
        Spec.linesOf content ls ->
        (forall before line after path,
           ls = before ++ line :: after ->
           Forall (fun l => ~ Spec.moduleLine l) before ->
           Spec.declares line path ->
           Engine.getModulePath e p w = (Ok path, w))
        /\ (Forall (fun l => ~ Spec.moduleLine l) ls ->
            Engine.getModulePath e p w = (Err "module path not found in go.mod", w)))
  /\ (forall path w', Engine.getModulePath e p w = (Ok path, w') -> path <> "" /\ w' = w).
Proof. exact (getModulePath_spec e p w). Qed.

Lemma ran_to_completion {A} (r : result A * World) a : r.1 = Ok a -> r = (Ok a, r.2).
Proof. destruct r as [x w]. cbn. now intros ->. Qed.

(** C1 fails as stated: with [Force] off, on a destination that exists and
    holds a file, [InitProject] succeeds and writes into it. *)
Lemma InitProject_over_existing_destination :
  let w := Sample.world Sample.occupied Sample.toolsOk in
  let r := Engine.InitProject Sample.store Engine.NewEngine ["demo"] Sample.opts w in
  Force Sample.opts = false
  /\ disk w !! ["demo"; "old.txt"] = Some (File "old")
  /\ r.1 = Ok tt
  /\ disk r.2 !! ["demo"; "README.md"] = Some (File "# demo")
  /\ disk r.2 !! ["demo"; "old.txt"] = Some (File "old").
Proof. vm_compute. repeat split. Qed.

(** C1, as amended, on the occupied destination. *)
Lemma destination_conflict_witness :
  Cmd.initRunE Sample.store Sample.flags "demo" (Sample.world Sample.occupied Sample.toolsOk)
  = (Err "directory demo already exists (use --force to overwrite)",
     Sample.world Sample.occupied Sample.toolsOk)
  /\ Engine.InitProject Sample.store Engine.NewEngine ["demo"] Sample.opts
       (Sample.world Sample.occupied Sample.toolsOk)
     = Engine.afterDirectoryPrep Sample.store Engine.NewEngine ["demo"] Sample.opts
         (Sample.world Sample.occupied Sample.toolsOk)
  /\ (forall q, ["demo"] `prefix_of` q ->
        filter (fun kv => Os.below ["demo"] kv.1 = false) Sample.occupied !! q = None).
Proof.
  pose proof (destination_conflict Sample.store Engine.NewEngine ["demo"] Sample.opts
                Sample.flags "demo" (Sample.world Sample.occupied Sample.toolsOk))
    as (Hcmd & Hkeep & _).
  pose proof (destination_conflict Sample.store Engine.NewEngine ["demo"] Sample.forced
                Sample.flags "demo" (Sample.world Sample.occupied Sample.toolsOk))
    as (_ & _ & Hforce).
  split; [|split].
  - apply Hcmd; reflexivity.
  - apply Hkeep; reflexivity.
  - apply (Hforce eq_refl eq_refl _ eq_refl).
Defined.

(** ** The template lexer *)

Lemma rev_cons c s : String.rev (String c s) = String.rev s +:+ String c "".
Proof. change (String c s) with (String c "" +:+ s). now rewrite rev_append. Qed.

Lemma lexFrom_step st ln cl c r out st' :
  Template.step st ln cl c r = (out, st') -> st' <> Template.Stop ->
  Template.lexFrom st ln cl (String c r)
  = out ++ Template.lexFrom st' (Template.nextLine ln c) (Template.nextCol cl c) r.
Proof.
  intros H Hs. cbn [Template.lexFrom]. rewrite H. destruct st'; congruence.
Qed.

(** Text without a left brace is read as it stands. *)
Lemma lexFrom_text pre :
  Strings.noByte "{" pre = true -> forall acc ln cl rest,
  Template.lexFrom (Template.InText acc false) ln cl (pre +:+ rest)
  = Template.lexFrom (Template.InText (String.rev pre +:+ acc) false)
      (Template.lineAfter ln pre) (Template.colAfter cl pre) rest.
Proof.
  induction pre as [|c p IH]; intros H acc ln cl rest; [reflexivity|].
  cbn [Strings.noByte] in H. apply andb_true_iff in H as [Hc Hp].
  apply negb_true_iff in Hc.
  rewrite app_cons.
  rewrite (lexFrom_step _ _ _ _ _ [] (Template.InText (String c acc) false));
    [|unfold Template.step; now rewrite Hc | discriminate].
  rewrite app_nil_l, (IH Hp). cbn [Template.lineAfter Template.colAfter].
  now rewrite rev_cons, app_assoc_s.
Qed.

Lemma lexFrom_text_end pre :
  Strings.noByte "{" pre = true -> forall ln cl,
  Template.lexFrom (Template.InText "" false) ln cl pre
  = Template.textItem pre
    ++ [Template.Tok Template.ItemEOF "" (Template.lineAfter ln pre)
          (Template.colAfter cl pre)].
Proof.
  intros H ln cl. rewrite <- (app_empty_r pre) at 1. rewrite (lexFrom_text pre H).
  cbn [Template.lexFrom Template.atEOF]. now rewrite app_empty_r, rev_involutive.
Qed.

Lemma letter_not_newline c : Template.isAlnum c = true -> Ascii.eqb c Template.newline = false.
Proof. destruct c as [[] [] [] [] [] [] [] []]; vm_compute; congruence. Qed.

Lemma letter_starts_field c r :
  Template.isLetter c = true ->
  Template.step Template.Inside 1 0 "." (String c r) = ([], Template.InField "" 1 0)
  /\ forall ln cl,
       Template.step Template.Inside ln cl "." (String c r) = ([], Template.InField "" ln cl).
Proof.
  intros H.
  assert (forall ln cl,
            Template.step Template.Inside ln cl "." (String c r)
            = ([], Template.InField "" ln cl)); [|split; auto].
  intros ln cl. unfold Template.step.
  change (Ascii.eqb "." "}") with false. cbn [andb].
  change (Template.atTrimRightDelim (String "." (String c r))) with false.
  change (Template.isSpace ".") with false.
  change (Ascii.eqb "." Template.dquote) with false.
  change (Ascii.eqb "." ".") with true. cbv iota.
  revert H. unfold Template.atTerminator, Template.isAlnum, Template.isLetter,
    Template.isDigit, Template.isSpace, Strings.HasPrefix.
  destruct c as [[] [] [] [] [] [] [] []]; vm_compute; congruence.
Qed.

(** The bytes of a field name are read up to what ends the name. *)
Lemma lexFrom_field key :
  Template.allAlnum key = true -> forall c acc sl sc ln cl rest,
  Template.isAlnum c = true ->
  Template.headIs Template.isAlnum rest = false -> Template.atTerminator rest = true ->
  Template.lexFrom (Template.InField acc sl sc) ln cl (String c key +:+ rest)
  = Template.Tok Template.ItemField (String "." (String.rev acc +:+ String c key)) sl sc
    :: Template.lexFrom Template.Inside ln (cl + String.length (String c key)) rest.
Proof.
  induction key as [|d key IH]; intros Hkey c acc sl sc ln cl rest Hc Hhead Hterm.
  - rewrite app_cons, app_empty_l.
    rewrite (lexFrom_step _ _ _ _ _
               [Template.Tok Template.ItemField (String "." (String.rev (String c acc))) sl sc]
               Template.Inside); [| |discriminate].
    + unfold Template.nextLine, Template.nextCol. rewrite (letter_not_newline c Hc).
      cbn [app String.length]. rewrite rev_cons. f_equal. f_equal. lia.
    + unfold Template.step, Template.fieldStep. now rewrite Hhead, Hterm.
  - cbn [Template.allAlnum] in Hkey. apply andb_true_iff in Hkey as [Hd Hkey].
    rewrite app_cons.
    rewrite (lexFrom_step _ _ _ _ _ [] (Template.InField (String c acc) sl sc));
      [| |discriminate].
    + unfold Template.nextLine, Template.nextCol. rewrite (letter_not_newline c Hc).
      rewrite app_nil_l, <- app_cons, (IH Hkey d (String c acc) sl sc ln (S cl) rest Hd Hhead Hterm).
      rewrite rev_cons, app_assoc_s. cbn [String.length]. f_equal. f_equal. lia.
    + unfold Template.step, Template.fieldStep. rewrite app_cons. cbn [Template.headIs].
      now rewrite Hd.
Qed.

Lemma isIdent_head key :
  Template.isIdent key = true ->
  exists c k, key = String c k /\ Template.isLetter c = true /\ Template.allAlnum k = true.
Proof.
  destruct key as [|c k]; [discriminate|]. cbn [Template.isIdent]. intros H.
  apply andb_true_iff in H as [Hc Hk]. now exists c, k.
Qed.

Lemma textItem_nonempty c s : Template.textItem (String c s) = [Template.Text (String c s)].
Proof. reflexivity. Qed.

(** The tokens of a field action that follows text without a left brace:
    the text, the left delimiter and the field, then what the rest of the
    template is read as. *)
Lemma lex_field_action pre key rest :
  Strings.noByte "{" pre = true -> Template.isIdent key = true ->
  Template.headIs Template.isAlnum rest = false -> Template.atTerminator rest = true ->
  let ln := Template.lineAfter 1 pre in
  let cl := Template.colAfter 0 pre in
  Template.lex (pre +:+ "{{." +:+ key +:+ rest)
  = Template.textItem pre
    ++ Template.Tok Template.ItemLeftDelim "{{" ln cl
    :: Template.Tok Template.ItemField (String "." key) ln (cl + 2)
    :: Template.lexFrom Template.Inside ln (cl + 2 + S (String.length key)) rest.
Proof.
  intros Hpre Hkey Hhead Hterm ln cl.
  destruct (isIdent_head key Hkey) as (c & k & -> & Hc & Hk).
  unfold Template.lex. rewrite (lexFrom_text pre Hpre). fold ln cl. rewrite app_empty_r.
  change ("{{." +:+ String c k +:+ rest)
    with (String "{" (String "{" (String "." (String c (k +:+ rest))))).
  rewrite (lexFrom_step _ _ _ _ _
             (Template.textItem (String.rev (String.rev pre))
              ++ [Template.Tok Template.ItemLeftDelim "{{" ln cl])
             (Template.Skip 1 Template.Inside)); [|reflexivity | discriminate].
  rewrite rev_involutive, <- app_assoc. f_equal. cbn [app]. f_equal.
  rewrite (lexFrom_step _ _ _ _ _ [] Template.Inside); [|reflexivity | discriminate].
  rewrite app_nil_l.
  change (Template.nextLine (Template.nextLine ln "{") "{") with ln.
  change (Template.nextCol (Template.nextCol cl "{") "{") with (S (S cl)).
  rewrite (lexFrom_step _ _ _ _ _ [] (Template.InField "" ln (S (S cl))));
    [|apply (letter_starts_field c (k +:+ rest) Hc) | discriminate].
  rewrite app_nil_l.
  change (Template.nextLine ln ".") with ln.
  change (Template.nextCol (S (S cl)) ".") with (S (S (S cl))).
  rewrite <- app_cons.
  rewrite (lexFrom_field k Hk c "" ln (S (S cl)) ln (S (S (S cl))) rest);
    [| unfold Template.isAlnum; now rewrite Hc | exact Hhead | exact Hterm].
  unfold String.rev at 1. cbn [String.rev_app]. rewrite app_empty_l.
  replace (cl + 2) with (S (S cl)) by lia.
  replace (S (S (S cl)) + String.length (String c k))
    with (S (S cl) + S (String.length (String c k))) by lia.
  reflexivity.
Qed.

Lemma lexFrom_close ln cl post :
  Strings.noByte "{" post = true ->
  Template.lexFrom Template.Inside ln cl ("}}" +:+ post)
  = Template.Tok Template.ItemRightDelim "}}" ln cl
    :: Template.textItem post
    ++ [Template.Tok Template.ItemEOF "" (Template.lineAfter ln post)
          (Template.colAfter (S (S cl)) post)].
Proof.
  intros Hpost. change ("}}" +:+ post) with (String "}" (String "}" post)).
  rewrite (lexFrom_step _ _ _ _ _ [Template.Tok Template.ItemRightDelim "}}" ln cl]
             (Template.Skip 1 (Template.InText "" false))); [|reflexivity | discriminate].
  cbn [app]. f_equal.
  rewrite (lexFrom_step _ _ _ _ _ [] (Template.InText "" false)); [|reflexivity | discriminate].
  rewrite app_nil_l. apply (lexFrom_text_end post Hpost).
Qed.

Lemma lineAfter_feeds s : forall ln, Template.lineAfter ln s = ln + lineFeeds s.
Proof.
  induction s as [|c s IH]; intros ln; cbn [Template.lineAfter lineFeeds]; [lia|].
  rewrite IH. unfold Template.nextLine, Template.newline.
  destruct (Ascii.eqb c (ascii_of_nat 10)); lia.
Qed.

(** ** Rendering *)

Lemma render_same e content data :
  Engine.renderTemplate e content data = Modules.renderTemplate content data.
Proof. reflexivity. Qed.

Lemma render_plain pre (data : gmap string Template.Value) :
  Strings.noByte "{" pre = true -> Modules.renderTemplate pre data = Ok pre.
Proof.
  intros Hpre. unfold Modules.renderTemplate, Template.Parse, Template.lex.
  rewrite (lexFrom_text_end pre Hpre).
  destruct pre as [|c pre]; [reflexivity|]. cbn. now rewrite app_empty_r.
Qed.

Lemma render_field pre key post (data : gmap string Template.Value) :
  Strings.noByte "{" pre = true -> Template.isIdent key = true ->
  Strings.noByte "{" post = true ->
  Modules.renderTemplate (pre +:+ "{{." +:+ key +:+ "}}" +:+ post) data
  = Ok (pre +:+ Template.printValue (data !! key) +:+ post).
Proof.
  intros Hpre Hkey Hpost. unfold Modules.renderTemplate, Template.Parse.
  rewrite (lex_field_action pre key ("}}" +:+ post) Hpre Hkey eq_refl eq_refl).
  rewrite (lexFrom_close _ _ post Hpost).
  destruct pre as [|c pre], post as [|d post];
    cbn [Template.textItem app Template.segments rev Template.build Template.skipSpace
         Template.isSpaceItem Template.pipeline Template.startsOperand Template.operands
         Template.closing result_map Template.lineOf Strings.drop
         Template.Execute Template.execNode Template.evalCommand Template.what
         Template.printR];
    rewrite ?app_empty_r, ?app_empty_l; reflexivity.
Qed.

Lemma render_unclosed pre key (data : gmap string Template.Value) :
  Strings.noByte "{" pre = true -> Template.isIdent key = true ->
  Modules.renderTemplate (pre +:+ "{{." +:+ key) data
  = Err ("template: template:" +:+ Template.showNat (1 + lineFeeds pre)
         +:+ ": unclosed action").
Proof.
  intros Hpre Hkey. unfold Modules.renderTemplate, Template.Parse.
  rewrite <- (app_empty_r key) at 1.
  rewrite (lex_field_action pre key "" Hpre Hkey eq_refl eq_refl).
  rewrite lineAfter_feeds.
  destruct pre as [|c pre];
    cbn [Template.textItem app Template.segments rev Template.build Template.skipSpace
         Template.isSpaceItem Template.pipeline Template.startsOperand Template.operands
         Template.closing result_map Template.lineOf Strings.drop Template.lexFrom
         Template.atEOF Template.lexError];
    rewrite Nat.eqb_refl; cbn [negb andb]; unfold Template.parseError;
    now rewrite app_empty_r.
Qed.

(** C2 fails as stated: a template that interpolates a key absent from the
    mapping renders with success, the key printed as [<no value>]. *)
Lemma missing_key_is_not_an_error :
  Engine.renderTemplate Engine.NewEngine "Hello {{.Name}}" ∅ = Ok "Hello <no value>"
  /\ Modules.renderTemplate "Hello {{.Name}}" ∅ = Ok "Hello <no value>".
Proof. split; reflexivity. Qed.

(** C2, as amended.  Literal text followed by the interpolation of a key
    that is absent from the mapping renders with success, in both
    renderers: the text followed by the placeholder [<no value>]. *)
Theorem missing_key_prints_no_value e pre key (data : gmap string Template.Value) :
  Strings.noByte "{" pre = true -> Template.isIdent key = true -> data !! key = None ->
  Engine.renderTemplate e (pre +:+ "{{." +:+ key +:+ "}}") data = Ok (pre +:+ "<no value>")
  /\ Modules.renderTemplate (pre +:+ "{{." +:+ key +:+ "}}") data
     = Ok (pre +:+ "<no value>").
Proof.
  intros Hpre Hkey Hdata. rewrite render_same.
  pose proof (render_field pre key "" data Hpre Hkey eq_refl) as H.
  rewrite Hdata in H. split; exact H.
Qed.

(** C2, as amended, on a greeting. *)
Lemma missing_key_prints_no_value_witness :
  Engine.renderTemplate Engine.NewEngine ("Hello " +:+ "{{." +:+ "Name" +:+ "}}") ∅
  = Ok ("Hello " +:+ "<no value>").
Proof.
  apply (missing_key_prints_no_value Engine.NewEngine "Hello " "Name" ∅); reflexivity.
Defined.

(** C3 fails as stated: [go mod tidy] is started and fails, and [AddModule]
    returns success. *)
Lemma AddModule_tidy_failure_is_not_fatal :
  let w := Sample.world Sample.generated Sample.tidyFails in
  let r := Engine.AddModule Sample.store Engine.NewEngine []
             (Engine.mkAddOptions "docker" "" "" "") w in
  (tools w tidy [] (disk r.2)).1.1 = false
  /\ ran r.2 = [(tidy, [])]
  /\ r.1 = Ok tt.
Proof. vm_compute. repeat split. Qed.

(** C6 on the README template of the sample base bundle. *)
Lemma overlay_file_entry_witness :
  let w := Sample.world ∅ Sample.toolsOk in
  let step := Engine.walkFn Sample.store Engine.NewEngine ["files"; "base"] ["demo"]
                Sample.data (["files"; "base"] ++ [] ++ ["README.md.tmpl"]) false None w in
  disk step.2 !! (["demo"] ++ [] ++ ["README.md"]) = Some (File "# demo").
Proof.
  intros w step.
  pose proof (overlay_file_entry Sample.store Engine.NewEngine ["files"; "base"] ["demo"]
                Sample.data [] "README.md.tmpl" "# {{.ProjectName}}" w eq_refl)
    as (Htmpl & _).
  destruct (Htmpl "README.md" eq_refl) as (_ & Hok).
  apply (Hok "# demo" step.2); [reflexivity|].
  apply ran_to_completion. vm_compute. reflexivity.
Defined.

(** C7 on the sample store: the base bundle renders README.md, the docker
    bundle then replaces it. *)
Lemma later_bundle_wins_witness :
  let w := Sample.world ∅ Sample.toolsOk in
  let wA := (Engine.applyTemplate Sample.store Engine.NewEngine ["files"; "base"] ["demo"]
               Sample.data w).2 in
  let wB := (Modules.ApplyModuleTemplate Sample.store ["files"; "docker"] ["demo"]
               Sample.data wA).2 in
  disk wA !! ["demo"; "README.md"] = Some (File "# demo")
  /\ disk wB !! ["demo"; "README.md"] = Some (File "docker notes").
Proof.
  intros w wA wB. split; [vm_compute; reflexivity|].
  apply (later_bundle_wins Sample.store Engine.NewEngine
           ["files"; "base"] ["files"; "docker"] ["demo"] Sample.data Sample.data
           [ FileEntry "LICENSE" "MIT";
             FileEntry "README.md.tmpl" "# {{.ProjectName}}";
             DirEntry "cmd" [ FileEntry "main.go" "package main" ] ]
           [ FileEntry "Dockerfile" "FROM golang";
             FileEntry "README.md" "docker notes" ]
           ["files"; "base"; "README.md.tmpl"] ["files"; "docker"; "README.md"]
           "# demo" "docker notes" ["demo"; "README.md"]
           [(["files"; "docker"; "Dockerfile"], false)] [] w wA wB).
  - reflexivity.
  - cbn. right. left.
  - reflexivity.
  - reflexivity.
  - reflexivity.
  - reflexivity.
  - intros q out Hq. inversion Hq.
  - exact (ran_to_completion
             (Engine.applyTemplate Sample.store Engine.NewEngine ["files"; "base"] ["demo"]
                Sample.data w) tt ltac:(vm_compute; reflexivity)).
  - exact (ran_to_completion
             (Modules.ApplyModuleTemplate Sample.store ["files"; "docker"] ["demo"]
                Sample.data wA) tt ltac:(vm_compute; reflexivity)).
Defined.

(** C8 on a manifest whose module line comes second and is padded with
    spaces and a tab. *)
Lemma getModulePath_reads_manifest_witness :
  let w := Sample.world More.padded Sample.toolsOk in
  Engine.getModulePath Engine.NewEngine [] w = (Ok "example.com/demo", w).
Proof.
  intros w.
  destruct (getModulePath_reads_manifest Engine.NewEngine [] w) as (_ & Hread & _).
  destruct (Hread _ [ "// generated";
                      "  module " +:+ Modules.tab +:+ " example.com/demo  ";
                      "go 1.22"; "" ] eq_refl) as [Hfound _].
  { split; [discriminate|]. split; [reflexivity|].
    repeat (apply List.Forall_cons; [apply oneLine_noByte; reflexivity|]).
    apply List.Forall_nil. }
  apply (Hfound ["// generated"] _ ["go 1.22"; ""] "example.com/demo" eq_refl).
  - apply List.Forall_cons; [|apply List.Forall_nil].
    intros H. apply moduleLine_test in H. discriminate H.
  - split; [discriminate|].
    split; [apply not_startsWhite; reflexivity|].
    split; [apply not_endsWhite; reflexivity|].
    exists "  ", (Modules.tab +:+ " "), "  ".
    split; [repeat (apply blank_byte; [in_white|]); constructor|].
    split; [repeat (apply blank_byte; [in_white|]); constructor|].
    split; [repeat (apply blank_byte; [in_white|]); constructor|].
    reflexivity.
Defined.

(** C10.  The renderer of the engine and the renderer of the modules return
    the same result on every template text and mapping, and so do the two
    overlay appliers built on them. *)
Theorem renderers_agree e content (data : gmap string Template.Value) :
  Engine.renderTemplate e content data = Modules.renderTemplate content data
  /\ (forall tfs tp dp w,
        Engine.applyTemplate tfs e tp dp data w
        = Modules.ApplyModuleTemplate tfs tp dp data w).
Proof. split; reflexivity. Qed.

(** ** The cases of the repository's tests *)

Example test_render_simple_variable :
  Engine.renderTemplate Engine.NewEngine "Hello {{.Name}}"
    {[ "Name" := Template.VString "World" ]} = Ok "Hello World".
Proof. reflexivity. Qed.

Example test_render_conditional :
  Engine.renderTemplate Engine.NewEngine "{{if .Show}}Visible{{end}}"
    {[ "Show" := Template.VBool true ]} = Ok "Visible"
  /\ Engine.renderTemplate Engine.NewEngine "{{if .Show}}Visible{{end}}"
       {[ "Show" := Template.VBool false ]} = Ok "".
Proof. split; reflexivity. Qed.

Example test_render_invalid_template :
  is_err (Engine.renderTemplate Engine.NewEngine "{{.InvalidSyntax" ∅) = true.
Proof. reflexivity. Qed.

Example test_render_equality :
  let q := String Template.dquote "" in
  let t := "{{if eq .Database " +:+ q +:+ "postgres" +:+ q +:+ "}}"
           +:+ Modules.nl +:+ "DATABASE_URL=postgres://localhost:5432/db"
           +:+ Modules.nl +:+ "{{end}}" in
  Modules.renderTemplate t {[ "Database" := Template.VString "postgres" ]}
  = Ok (Modules.nl +:+ "DATABASE_URL=postgres://localhost:5432/db" +:+ Modules.nl)
  /\ Modules.renderTemplate t {[ "Database" := Template.VString "none" ]} = Ok "".
Proof. split; reflexivity. Qed.

Example test_registry :
  Modules.GetModule Modules.NewRegistry "db" "postgres" = Some Modules.PostgresModule
  /\ Modules.GetModule Modules.NewRegistry "db" "mongo" = Some Modules.MongoModule
  /\ Modules.GetModule Modules.NewRegistry "openapi" "gen" = Some Modules.OpenAPIGenModule
  /\ Modules.GetModule Modules.NewRegistry "docker" "" = Some Modules.DockerModule
  /\ Modules.GetModule Modules.NewRegistry "db" "nonexistent" = None
  /\ Modules.GetModule Modules.NewRegistry "nonexistent" "test" = None.
Proof. repeat split; reflexivity. Qed.

Example test_get_module_path :
  let manifest := "module github.com/test/project" +:+ Modules.nl +:+ Modules.nl
                  +:+ "go 1.22" +:+ Modules.nl in
  (Engine.getModulePath Engine.NewEngine ["tmp"]
     (Sample.world {[ ["tmp"] := Dir; ["tmp"; "go.mod"] := File manifest ]} Sample.toolsOk)).1
  = Ok "github.com/test/project"
  /\ is_err (Engine.getModulePath Engine.NewEngine ["tmp"]
               (Sample.world {[ ["tmp"] := Dir ]} Sample.toolsOk)).1 = true.
Proof. split; vm_compute; reflexivity. Qed.

Example test_write_file :
  let r := Modules.WriteFile ["tmp"; "subdir"; "test.txt"] "test content"
             (Sample.world {[ ["tmp"] := Dir ]} Sample.toolsOk) in
  r.1 = Ok tt /\ Os.ReadFile (disk r.2) ["tmp"; "subdir"; "test.txt"] = Ok "test content".
Proof. vm_compute. split; reflexivity. Qed.

(** ** The project path of a name *)

Example projectPathOf_resolves :
  Cmd.projectPathOf "demo" = ["demo"]
  /\ Cmd.projectPathOf "./demo/" = ["demo"]
  /\ Cmd.projectPathOf "a/../b" = ["b"]
  /\ Cmd.projectPathOf "x/y/.." = ["x"]
  /\ Cmd.projectPathOf "x//y/./z" = ["x"; "y"; "z"]
  /\ Cmd.projectPathOf "../b" = [".."; "b"]
  /\ Cmd.projectPathOf "a/../../b" = [".."; "b"]
  /\ Cmd.projectPathOf "/srv/app" = ["srv"; "app"]
  /\ Cmd.projectPathOf "." = [].
Proof. repeat split; reflexivity. Qed.

(** A name that leads to an existing path by way of [..] is refused like
    the path itself, and with [--force] it is that path that is removed:
    under the name [demo/sub/..] the file the user kept in [demo] is
    gone. *)
Example initRunE_resolves_the_name :
  let w := Sample.world More.shared Sample.toolsOk in
  Cmd.initRunE Sample.store Sample.flags "other/../demo" w
  = (Err "directory other/../demo already exists (use --force to overwrite)", w)
  /\ (Cmd.initRunE Sample.store Sample.forcedFlags "demo/sub/.." w).1 = Ok tt
  /\ disk (Cmd.initRunE Sample.store Sample.forcedFlags "demo/sub/.." w).2
       !! ["demo"; "old.txt"] = None.
Proof. vm_compute. repeat split. Qed.

(** [CopyFile] from a source below a regular file, and from a directory. *)
Example test_copy_bad_source :
  let w := Sample.world More.shared Sample.toolsOk in
  (Engine.CopyFile ["other"; "notes.txt"; "x"] ["copy"] w).1
  = Err "open other/notes.txt/x: not a directory"
  /\ (Engine.CopyFile ["other"; "nothing"] ["copy"] w).1
     = Err "open other/nothing: no such file or directory"
  /\ (Engine.CopyFile ["other"] ["copy"] w).1
     = Err "write copy: copy_file_range: is a directory".
Proof. vm_compute. repeat split. Qed.

(** ** The template syntax of the architecture document *)

Example test_render_documented_syntax :
  let q := String Template.dquote "" in
  let nl := Modules.nl in
  let data : gmap string Template.Value :=
    {[ "Database" := Template.VString "postgres"; "ProjectName" := Template.VString "demo";
       "ModulePath" := Template.VString "example.com/demo";
       "HasDocker" := Template.VBool true ]} in
  (* a conditional with a trim marker and a quoted literal *)
  Modules.renderTemplate
    ("import (" +:+ nl +:+ "{{- if eq .Database " +:+ q +:+ "postgres" +:+ q +:+ "}}" +:+ nl
     +:+ "  pq" +:+ nl +:+ "{{- end}}" +:+ nl +:+ ")") data
  = Ok ("import (" +:+ nl +:+ "  pq" +:+ nl +:+ ")")
  (* variable substitution *)
  /\ Modules.renderTemplate
       ("package {{.ProjectName}}" +:+ nl +:+ "module {{.ModulePath}}") data
     = Ok ("package demo" +:+ nl +:+ "module example.com/demo")
  (* a loop over a key that is absent writes nothing *)
  /\ Modules.renderTemplate
       ("items:" +:+ nl +:+ "{{- range .Items}}" +:+ nl +:+ "- {{.}}" +:+ nl +:+ "{{- end}}")
       data
     = Ok "items:"
  (* a loop over the data goes through its values in the order of the keys *)
  /\ Modules.renderTemplate ("{{range .}}- {{.}}" +:+ nl +:+ "{{end}}") data
     = Ok ("- postgres" +:+ nl +:+ "- true" +:+ nl +:+ "- example.com/demo" +:+ nl
           +:+ "- demo" +:+ nl)
  (* else if, ne, not, and a literal with a space *)
  /\ Modules.renderTemplate
       ("{{if ne .Database " +:+ q +:+ "postgres" +:+ q +:+ "}}a"
        +:+ "{{else if eq .ProjectName " +:+ q +:+ "my demo" +:+ q +:+ " "
        +:+ q +:+ "demo" +:+ q +:+ "}}b{{else}}c{{end}}"
        +:+ "{{if not .Missing}}d{{end}}{{/* a note */ -}}   e") data
     = Ok "bde"
  (* with, and the data printed as a whole *)
  /\ Modules.renderTemplate "{{with .ProjectName}}<{{.}}>{{end}}{{.}}"
       {[ "ProjectName" := Template.VString "demo"; "HasDocker" := Template.VBool true ]}
     = Ok "<demo>map[HasDocker:true ProjectName:demo]".
Proof. repeat split; vm_compute; reflexivity. Qed.

Example test_render_errors :
  let q := String Template.dquote "" in
  let nl := Modules.nl in
  let data : gmap string Template.Value :=
    {[ "Database" := Template.VString "postgres"; "HasDocker" := Template.VBool true ]} in
  Modules.renderTemplate ("a" +:+ nl +:+ "{{if .Database" +:+ nl +:+ "  ") data
  = Err "template: template:3: unclosed action started at template:2"
  /\ Modules.renderTemplate ("{{eq .Database " +:+ q +:+ "postgres}}") data
     = Err "template: template:1: unterminated quoted string"
  /\ Modules.renderTemplate "{{/* no end" data = Err "template: template:1: unclosed comment"
  /\ Modules.renderTemplate ("{{if .Database}}" +:+ nl +:+ "x") data
     = Err "template: template:2: unexpected EOF"
  /\ Modules.renderTemplate "x{{end}}" data = Err "template: template:1: unexpected {{end}}"
  /\ Modules.renderTemplate "{{if}}x{{end}}" data
     = Err "template: template:1: missing value for if"
  /\ Modules.renderTemplate "{{frobnicate .Database}}" data
     = Err ("template: template:1: function " +:+ q +:+ "frobnicate" +:+ q +:+ " not defined")
  /\ Modules.renderTemplate ("{{if eq .HasDocker " +:+ q +:+ "yes" +:+ q +:+ "}}x{{end}}") data
     = Err ("template: template:1:5: executing " +:+ q +:+ "template" +:+ q
            +:+ " at <eq .HasDocker " +:+ q +:+ "yes" +:+ q
            +:+ ">: error calling eq: incompatible types for comparison")
  /\ Modules.renderTemplate "{{range .Database}}x{{end}}" data
     = Err ("template: template:1:8: executing " +:+ q +:+ "template" +:+ q
            +:+ " at <.Database>: range can't iterate over postgres").
Proof. repeat split; vm_compute; reflexivity. Qed.

(** * Further properties of the code *)

(** ** The registry *)

Lemma GetModule_Register_at r c n m c' n' :
  Modules.GetModule (Modules.Register r c n m) c' n'
  = if decide (c = c' /\ n = n') then Some m else Modules.GetModule r c' n'.
Proof.
  unfold Modules.GetModule, Modules.Register. cbn [Modules.modules].
  destruct (decide (c = c')) as [<-|Hc].
  - rewrite lookup_insert_eq.
    destruct (decide (n = n')) as [<-|Hn].
    + rewrite lookup_insert_eq. rewrite decide_True by done. reflexivity.
    + rewrite lookup_insert_ne by exact Hn.
      rewrite decide_False by (intros [_ ?]; contradiction).
      destruct (Modules.modules r !! c); [reflexivity | apply lookup_empty].
  - rewrite lookup_insert_ne by exact Hc.
    rewrite decide_False by (intros [? _]; contradiction). reflexivity.
Qed.

(** X1.  A module registered under a category and a name is the one [GetModule]
    returns for them; registering again under the same pair replaces the
    module; a lookup under any other pair is as it was before. *)
Theorem Register_then_GetModule r c n m :
  Modules.GetModule (Modules.Register r c n m) c n = Some m
  /\ (forall m', Modules.GetModule (Modules.Register (Modules.Register r c n m') c n m) c n
                 = Some m)
  /\ (forall c' n', (c', n') <> (c, n) ->
        Modules.GetModule (Modules.Register r c n m) c' n' = Modules.GetModule r c' n').
Proof.
  split; [|split].
  - rewrite GetModule_Register_at. now rewrite decide_True.
  - intros m'. rewrite GetModule_Register_at. now rewrite decide_True.
  - intros c' n' H. rewrite GetModule_Register_at.
    rewrite decide_False; [reflexivity|]. intros [-> ->]. now apply H.
Qed.

(** X1 on the default registry: registering under db/postgres leaves db/mongo as it is. *)
Lemma Register_then_GetModule_witness :
  Modules.GetModule (Modules.Register Modules.NewRegistry "db" "postgres" Modules.MongoModule)
    "db" "mongo"
  = Modules.GetModule Modules.NewRegistry "db" "mongo".
Proof.
  apply (proj2 (proj2 (Register_then_GetModule Modules.NewRegistry "db" "postgres"
                         Modules.MongoModule))).
  discriminate.
Defined.

Lemma GetModule_NewRegistry c n :
  Modules.GetModule Modules.NewRegistry c n
  = if decide ("docker" = c /\ "" = n) then Some Modules.DockerModule
    else if decide ("openapi" = c /\ "manual" = n) then Some Modules.OpenAPIManualModule
    else if decide ("openapi" = c /\ "gen" = n) then Some Modules.OpenAPIGenModule
    else if decide ("db" = c /\ "mongo" = n) then Some Modules.MongoModule
    else if decide ("db" = c /\ "postgres" = n) then Some Modules.PostgresModule
    else None.
Proof.
  unfold Modules.NewRegistry. rewrite !GetModule_Register_at.
  repeat case_decide; reflexivity.
Qed.

(** X2.  The registry [NewRegistry] builds resolves exactly the five
    registrations db/postgres, db/mongo, openapi/gen, openapi/manual and
    docker under the empty name, each to its module; [GetModule] returns no
    module for any other category and name. *)
Theorem NewRegistry_holds_the_five_modules c n m :
  Modules.GetModule Modules.NewRegistry c n = Some m <-> (c, n, m) ∈ registered.
Proof.
  unfold registered. rewrite !elem_of_cons, elem_of_nil. split.
  - rewrite GetModule_NewRegistry.
    repeat case_decide; intros Hm; try discriminate Hm; injection Hm as <-;
      repeat match goal with H : _ /\ _ |- _ => destruct H end; subst; tauto.
  - intros H.
    repeat (destruct H as [H|H]; [injection H as -> -> ->; reflexivity|]).
    contradiction.
Qed.

(** ** Validation *)

Lemma validate_ok_iff e opts :
  Engine.validateInitOptions e opts = Ok tt
  <-> Router opts ∈ ["chi"; "gin"; "fiber"]
      /\ Database opts ∈ ["none"; "postgres"; "mongo"]
      /\ OpenAPI opts ∈ ["none"; "gen"; "manual"]
      /\ Migrations opts ∈ ["none"; "goose"].
Proof.
  rewrite validateInitOptions_spec.
  unfold Spec.firstViolation, Spec.domains, Spec.violates.
  cbn [List.find Spec.fieldOf Spec.allowed].
  repeat (case_bool_decide; cbn [negb]); split; try discriminate; try tauto.
Qed.

(** X3.  [validateInitOptions] returns no error exactly when the router is one of
    chi, gin, fiber, the database one of none, postgres, mongo, the openapi
    mode one of none, gen, manual, and the migration tool one of none,
    goose. *)
Theorem validateInitOptions_accepts_exactly_the_domains e opts :
  Engine.validateInitOptions e opts = Ok tt
  <-> Router opts ∈ ["chi"; "gin"; "fiber"]
      /\ Database opts ∈ ["none"; "postgres"; "mongo"]
      /\ OpenAPI opts ∈ ["none"; "gen"; "manual"]
      /\ Migrations opts ∈ ["none"; "goose"].
Proof. apply validate_ok_iff. Qed.

(** X4.  For options that pass validation every lookup [InitProject] makes
    in the registry of [NewEngine] finds a module: the database when it is not
    none, the openapi mode when it is not none, and docker.  The errors
    with which [InitProject] reports a module it did not find cannot occur
    with the default registry. *)
Theorem validated_selections_resolve e opts :
  Engine.validateInitOptions e opts = Ok tt ->
  (Database opts <> "none" ->
     exists m, Modules.GetModule (Engine.registry Engine.NewEngine) "db" (Database opts) = Some m)
  /\ (OpenAPI opts <> "none" ->
        exists m, Modules.GetModule (Engine.registry Engine.NewEngine) "openapi" (OpenAPI opts)
                  = Some m)
  /\ Modules.GetModule (Engine.registry Engine.NewEngine) "docker" "" = Some Modules.DockerModule.
Proof.
  intros H. apply validate_ok_iff in H as (_ & Hd & Ho & _).
  rewrite !elem_of_cons, elem_of_nil in Hd, Ho.
  split; [|split].
  - intros Hn. destruct Hd as [Hd|[Hd|[Hd|[]]]]; [contradiction| |]; rewrite Hd; eauto.
  - intros Hn. destruct Ho as [Ho|[Ho|[Ho|[]]]]; [contradiction| |]; rewrite Ho; eauto.
  - reflexivity.
Qed.

(** X4 for the database postgres. *)
Lemma validated_selections_resolve_witness :
  exists m, Modules.GetModule (Engine.registry Engine.NewEngine) "db" "postgres" = Some m.
Proof.
  apply (proj1 (validated_selections_resolve Engine.NewEngine
                  (mkInitOptions "demo" "example.com/demo" "gin" "postgres" "gen" "api.yaml"
                     true "goose" false) eq_refl)).
  discriminate.
Defined.

(** ** The post-generation steps *)

Lemma runPostSteps_ends e p opts w :
  postStepsOutcome "" opts p w (disk w) (Engine.runPostSteps e p opts w).1
    (Engine.runPostSteps e p opts w).2
  /\ stdout (Engine.runPostSteps e p opts w).2 = stdout w
  /\ ctxObj (Engine.runPostSteps e p opts w).2 = ctxObj w
  /\ seen (Engine.runPostSteps e p opts w).2 = seen w.
Proof.
  unfold Engine.runPostSteps, bind, CombinedOutput, fail, ret, postStepsOutcome,
    goModInit, goModTidy, goFmt.
  destruct (tools w _ p (disk w)) as [[ok1 out1] d1] eqn:E1. cbn.
  destruct (tools w ["go"; "mod"; "tidy"] p d1) as [[ok2 out2] d2] eqn:E2.
  destruct (tools w ["go"; "fmt"; "./..."] p d2) as [[ok3 out3] d3] eqn:E3.
  destruct ok1; cbn; [|repeat split].
  rewrite E2. cbn. destruct ok2; cbn; [|repeat split; now rewrite <- app_assoc].
  rewrite E3. cbn. repeat split. now rewrite <- !app_assoc.
Qed.

Lemma runPostSteps_run e p opts w :
  let init := (["go"; "mod"; "init"; ModulePath opts], p) in
  let tidy := (["go"; "mod"; "tidy"], p) in
  let format := (["go"; "fmt"; "./..."], p) in
  let after d cmds := mkWorld d (stdout w) (ran w ++ cmds) (tools w) (ctxObj w) (seen w) in
  forall ok1 out1 d1, tools w init.1 p (disk w) = (ok1, out1, d1) ->
  (ok1 = false ->
     Engine.runPostSteps e p opts w
     = (Err ("go mod init failed: " +:+ out1), after d1 [init]))
  /\ (ok1 = true ->
      forall ok2 out2 d2, tools w tidy.1 p d1 = (ok2, out2, d2) ->
      (ok2 = false ->
         Engine.runPostSteps e p opts w
         = (Err ("go mod tidy failed: " +:+ out2), after d2 [init; tidy]))
      /\ (ok2 = true ->
          forall ok3 out3 d3, tools w format.1 p d2 = (ok3, out3, d3) ->
          Engine.runPostSteps e p opts w = (Ok tt, after d3 [init; tidy; format]))).
Proof.
  intros init tidy format after ok1 out1 d1 E1. subst init tidy format after. cbn [fst] in *.
  unfold Engine.runPostSteps, bind, CombinedOutput, fail, ret.
  rewrite E1. cbn. split; [now intros ->|]. intros -> ok2 out2 d2 E2. cbn.
  rewrite E2. cbn. split; [intros ->; cbn; now rewrite <- app_assoc|].
  intros -> ok3 out3 d3 E3. cbn. rewrite E3. cbn. now rewrite <- !app_assoc.
Qed.

(** X5.  [runPostSteps] starts [go mod init <module path>], then
    [go mod tidy], then [go fmt ./...], all in the project directory, each
    on the tree the command before it left.  When init fails the run ends
    with the error [go mod init failed: ] followed by the output of that
    very command, and tidy and fmt are not started; when tidy fails it
    ends with [go mod tidy failed: ] followed by the output of tidy, and
    fmt is not started; otherwise it succeeds whatever fmt answers.  In
    every case the world left is the one the last command started has
    left, with the commands started appended to the record. *)
Theorem runPostSteps_outcome e p opts w :
  let init := (["go"; "mod"; "init"; ModulePath opts], p) in
  let tidy := (["go"; "mod"; "tidy"], p) in
  let format := (["go"; "fmt"; "./..."], p) in
  let after d cmds := mkWorld d (stdout w) (ran w ++ cmds) (tools w) (ctxObj w) (seen w) in
  forall ok1 out1 d1, tools w init.1 p (disk w) = (ok1, out1, d1) ->
  (ok1 = false ->
     Engine.runPostSteps e p opts w
     = (Err ("go mod init failed: " +:+ out1), after d1 [init]))
  /\ (ok1 = true ->
      forall ok2 out2 d2, tools w tidy.1 p d1 = (ok2, out2, d2) ->
      (ok2 = false ->
         Engine.runPostSteps e p opts w
         = (Err ("go mod tidy failed: " +:+ out2), after d2 [init; tidy]))
      /\ (ok2 = true ->
          forall ok3 out3 d3, tools w format.1 p d2 = (ok3, out3, d3) ->
          Engine.runPostSteps e p opts w = (Ok tt, after d3 [init; tidy; format]))).
Proof. exact (runPostSteps_run e p opts w). Qed.

(** X5 with tools among which [go mod tidy] fails, and with tools that all
    succeed although the tree of the project is empty. *)
Lemma runPostSteps_outcome_witness :
  let w := Sample.world Sample.generated Sample.tidyFails in
  let v := Sample.world ∅ Sample.toolsOk in
  Engine.runPostSteps Engine.NewEngine ["demo"] Sample.opts w
  = (Err "go mod tidy failed: go: no network",
     mkWorld Sample.generated [] [ (["go"; "mod"; "init"; "example.com/demo"], ["demo"]);
                                   (["go"; "mod"; "tidy"], ["demo"]) ]
       Sample.tidyFails zeroContext [])
  /\ Engine.runPostSteps Engine.NewEngine ["demo"] Sample.opts v
     = (Ok tt,
        mkWorld ∅ [] [ (["go"; "mod"; "init"; "example.com/demo"], ["demo"]);
                       (["go"; "mod"; "tidy"], ["demo"]);
                       (["go"; "fmt"; "./..."], ["demo"]) ]
          Sample.toolsOk zeroContext []).
Proof.
  intros w v. split.
  - destruct (runPostSteps_outcome Engine.NewEngine ["demo"] Sample.opts w
                true "" Sample.generated eq_refl) as [_ H].
    destruct (H eq_refl false "go: no network" Sample.generated eq_refl) as [H' _].
    exact (H' eq_refl).
  - destruct (runPostSteps_outcome Engine.NewEngine ["demo"] Sample.opts v
                true "" ∅ eq_refl) as [_ H].
    destruct (H eq_refl true "" ∅ eq_refl) as [_ H'].
    exact (H' eq_refl true "" ∅ eq_refl).
Defined.

(** ** The commands and the progress lines of [InitProject] *)

Lemma quiet_refl w : quiet w w.
Proof. split; reflexivity. Qed.

Lemma quiet_trans w1 w2 w3 : quiet w1 w2 -> quiet w2 w3 -> quiet w1 w3.
Proof. intros (a1 & a2) (b1 & b2). split; congruence. Qed.

Lemma keeps_quiet w w' : keeps w w' -> quiet w w'.
Proof. intros (_ & a & b). now split. Qed.

Lemma quiet_of_keeps {A} (m : M A) : respects keeps m -> respects quiet m.
Proof. apply respects_weaken. apply keeps_quiet. Qed.

Lemma quiet_of_diskOnly {A} (m : M A) : respects sameButDisk m -> respects quiet m.
Proof.
  apply respects_weaken. intros w w' H. apply keeps_quiet, sameButDisk_keeps, H.
Qed.

Ltac stays_quiet :=
  repeat lazymatch goal with
    | |- respects _ (bind _ _) => apply (respects_bind _ quiet_trans); [|intros ?]
    | |- respects _ (orWrap _ _) => apply respects_orWrap
    | |- respects _ (println _) => intros ?; split; reflexivity
    | |- respects _ (newCtx _) => intros ?; split; reflexivity
    | |- respects _ (modifyCtx _) => intros ?; split; reflexivity
    | |- respects _ (ret _) => apply (respects_ret _ quiet_refl)
    | |- respects _ (fail _) => apply (respects_fail _ quiet_refl)
    | |- respects _ (liftResult _) => apply (respects_liftResult _ quiet_refl)
    | |- respects _ getCtx => apply (respects_getCtx _ quiet_refl)
    | |- respects _ (osStat _) => apply (respects_osStat _ quiet_refl)
    | |- respects _ (Modules.Apply _ _) => apply quiet_of_keeps, keeps_Apply
    | |- respects _ (Engine.applyTemplate _ _ _ _ _) =>
        apply quiet_of_diskOnly, diskOnly_applyTemplate
    | |- respects _ (Engine.getModulePath _ _) =>
        apply quiet_of_diskOnly, diskOnly_getModulePath
    | |- respects _ (osMkdirAll _) => apply quiet_of_diskOnly, diskOnly_liftOs
    | |- respects _ (osRemoveAll _) => apply quiet_of_diskOnly, diskOnly_liftOs
    | |- respects _ (osWriteFile _ _) => apply quiet_of_diskOnly, diskOnly_liftOs
    | |- respects _ (if ?b then _ else _) => destruct b
    | |- respects _ (match ?x with _ => _ end) => destruct x
    end.

Lemma InitProject_ends tfs e p opts w :
  let r := Engine.InitProject tfs e p opts w in
  (ran r.2 = ran w /\ exists msg, r.1 = Err msg)
  \/ exists d0, postStepsOutcome "post-generation steps failed: " opts p w d0 r.1 r.2.
Proof.
  cbv zeta.
  set (Q := fun (r : result unit) (w' : World) =>
              (ran w' = ran w /\ exists msg, r = Err msg)
              \/ exists d0,
                   postStepsOutcome "post-generation steps failed: " opts p w d0 r w').
  change (Q (Engine.InitProject tfs e p opts w).1 (Engine.InitProject tfs e p opts w).2).
  assert (Herr : forall e0 w1, quiet w w1 -> Q (Err e0) w1).
  { intros e0 w1 (Hr & _). left. split; [exact Hr | now exists e0]. }
  unfold Engine.InitProject.
  repeat lazymatch goal with
    | |- _ (bind _ _ _).1 _ =>
        apply (step _ quiet_trans w);
          [first [apply quiet_refl | eassumption] | solve [stays_quiet] | exact Herr |];
        intros ? ? ?
    end.
  lazymatch goal with
  | K : quiet w ?w1 |- _ (orWrap _ _ ?w1).1 _ =>
      destruct K as (Hr & Ht);
      pose proof (runPostSteps_ends e p opts w1) as (Hp & _);
      unfold orWrap;
      destruct (Engine.runPostSteps e p opts w1) as [[u|msg] wEnd];
      right; exists (disk w1)
  end; cbn [fst snd] in Hp |- *; unfold postStepsOutcome in *; rewrite Hr, Ht in Hp.
  - destruct (tools w (goModInit opts) p (disk _)) as [[ok1 out1] d1].
    destruct (tools w goModTidy p d1) as [[ok2 out2] d2].
    destruct (tools w goFmt p d2) as [[ok3 out3] d3].
    destruct ok1, ok2; cbn [negb] in Hp |- *; destruct u;
      try exact Hp; destruct Hp as [Hp _]; discriminate Hp.
  - destruct (tools w (goModInit opts) p (disk _)) as [[ok1 out1] d1].
    destruct (tools w goModTidy p d1) as [[ok2 out2] d2].
    destruct (tools w goFmt p d2) as [[ok3 out3] d3].
    unfold wrap.
    destruct ok1, ok2; cbn [negb] in Hp |- *; destruct Hp as (Hm & Hp);
      try discriminate Hm; injection Hm as ->; (split; [reflexivity | exact Hp]).
Qed.

(** X6.  The external commands of a run of [InitProject].  Either the run
    failed before the post-generation steps and started no command, or
    it reached them and then, from the tree [d0] found there: init, tidy
    and fmt were started in this order in the project directory, each on
    the tree the one before it left; a failure of init ends the run with
    [post-generation steps failed: go mod init failed: ] followed by the
    output of that very command, tidy and fmt not being started; a failure
    of tidy ends it likewise with the output of tidy, fmt not being
    started; otherwise the run succeeds whatever fmt answers.  The tree is
    then the one the last command started has left. *)
Theorem InitProject_commands tfs e p opts w :
  let r := Engine.InitProject tfs e p opts w in
  let init := (["go"; "mod"; "init"; ModulePath opts], p) in
  let tidy := (["go"; "mod"; "tidy"], p) in
  let format := (["go"; "fmt"; "./..."], p) in
  (ran r.2 = ran w /\ exists msg, r.1 = Err msg)
  \/ exists d0,
       let '(ok1, out1, d1) := tools w init.1 p d0 in
       let '(ok2, out2, d2) := tools w tidy.1 p d1 in
       let '(ok3, out3, d3) := tools w format.1 p d2 in
       if negb ok1 then
         r.1 = Err ("post-generation steps failed: go mod init failed: " +:+ out1)
         /\ ran r.2 = ran w ++ [init] /\ disk r.2 = d1
       else if negb ok2 then
         r.1 = Err ("post-generation steps failed: go mod tidy failed: " +:+ out2)
         /\ ran r.2 = ran w ++ [init; tidy] /\ disk r.2 = d2
       else
         r.1 = Ok tt /\ ran r.2 = ran w ++ [init; tidy; format] /\ disk r.2 = d3.
Proof. exact (InitProject_ends tfs e p opts w). Qed.

Lemma orWrap_ok {A} prefix (m : M A) w a w' :
  orWrap prefix m w = (Ok a, w') -> m w = (Ok a, w').
Proof.
  unfold orWrap. destruct (m w) as [[a0|e] w1]; intros H; [exact H | discriminate H].
Qed.

Lemma diskOnly_run {A} (m : M A) w r w' :
  respects sameButDisk m -> m w = (r, w') ->
  stdout w' = stdout w /\ seen w' = seen w /\ ctxObj w' = ctxObj w.
Proof.
  intros Hm H. specialize (Hm w). rewrite H in Hm.
  destruct Hm as (a & _ & _ & b & c). auto.
Qed.

(** One optional capability of [InitProject]: its line is printed and its
    module applied. *)
Lemma capability_trace tfs (mo : option Modules.ModuleImpl) line notFound failed w w' :
  (println line ;;
   match mo with
   | None => fail notFound
   | Some mod_ => orWrap failed (Modules.Apply tfs mod_)
   end) w = (Ok tt, w') ->
  stdout w' = stdout w ++ [line] /\ seen w' = seen w ++ [ctxObj w]
  /\ ctxObj w' = ctxObj w.
Proof.
  intros H. apply bind_inv_ok in H as ([] & w1 & Hp & H).
  injection Hp as <-. destruct mo as [m|]; [|discriminate H].
  apply orWrap_ok in H.
  match type of H with ?f ?x = _ => pose proof (Apply_frame tfs m x) as F end.
  cbv zeta in F. rewrite H in F. cbn in F.
  destruct F as (a & _ & _ & b & c). auto.
Qed.

Lemma InitProject_trace tfs e p opts w w' :
  Engine.InitProject tfs e p opts w = (Ok tt, w') ->
  let c := mkContext p opts (Engine.templateDataOf opts) in
  stdout w' = stdout w ++ ["→ Applying base template..."]
     ++ (if decide (Database opts = "none") then []
         else ["→ Adding " +:+ Database opts +:+ " database..."])
     ++ (if decide (OpenAPI opts = "none") then []
         else ["→ Adding OpenAPI (" +:+ OpenAPI opts +:+ " mode)..."])
     ++ (if Docker opts then ["→ Adding Docker configuration..."] else [])
     ++ ["→ Running post-generation steps..."]
  /\ seen w' = seen w
       ++ (if decide (Database opts = "none") then [] else [c])
       ++ (if decide (OpenAPI opts = "none") then [] else [c])
       ++ (if Docker opts then [c] else []).
Proof.
  intros H c. unfold Engine.InitProject in H.
  apply bind_inv_ok in H as ([] & w1 & H1 & H).
  apply bind_inv_ok in H as ([] & w2 & H2 & H).
  apply bind_inv_ok in H as ([] & w3 & H3 & H).
  apply bind_inv_ok in H as ([] & w4 & H4 & H).
  apply bind_inv_ok in H as ([] & w5 & H5 & H).
  apply bind_inv_ok in H as (ctx & w6 & H6 & H).
  apply bind_inv_ok in H as ([] & w7 & H7 & H).
  apply bind_inv_ok in H as ([] & w8 & H8 & H).
  apply bind_inv_ok in H as ([] & w9 & H9 & H).
  apply bind_inv_ok in H as ([] & w10 & H10 & H).
  apply bind_inv_ok in H as ([] & w11 & H11 & H).
  apply orWrap_ok in H.
  (* the steps that touch the tree only *)
  apply diskOnly_run in H1 as (O1 & S1 & C1); [|disk_only].
  apply diskOnly_run in H2 as (O2 & S2 & C2); [|disk_only].
  apply diskOnly_run in H3 as (O3 & S3 & C3); [|disk_only].
  injection H4 as <-. injection H5 as <-. injection H6 as <- <-.
  apply diskOnly_run in H7 as (O7 & S7 & C7);
    [|apply respects_orWrap, diskOnly_applyTemplate].
  cbn in O7, S7, C7.
  (* the three capabilities *)
  assert (T8 : stdout w8 = stdout w7
                 ++ (if decide (Database opts = "none") then []
                     else ["→ Adding " +:+ Database opts +:+ " database..."])
               /\ seen w8 = seen w7
                    ++ (if decide (Database opts = "none") then [] else [ctxObj w7])
               /\ ctxObj w8 = ctxObj w7).
  { destruct (decide (Database opts = "none")).
    - injection H8 as <-. now rewrite !app_nil_r.
    - eapply capability_trace; exact H8. }
  assert (T9 : stdout w9 = stdout w8
                 ++ (if decide (OpenAPI opts = "none") then []
                     else ["→ Adding OpenAPI (" +:+ OpenAPI opts +:+ " mode)..."])
               /\ seen w9 = seen w8
                    ++ (if decide (OpenAPI opts = "none") then [] else [ctxObj w8])
               /\ ctxObj w9 = ctxObj w8).
  { destruct (decide (OpenAPI opts = "none")).
    - injection H9 as <-. now rewrite !app_nil_r.
    - eapply capability_trace; exact H9. }
  assert (T10 : stdout w10 = stdout w9
                  ++ (if Docker opts then ["→ Adding Docker configuration..."] else [])
                /\ seen w10 = seen w9 ++ (if Docker opts then [ctxObj w9] else [])
                /\ ctxObj w10 = ctxObj w9).
  { destruct (Docker opts).
    - eapply capability_trace; exact H10.
    - injection H10 as <-. now rewrite !app_nil_r. }
  injection H11 as <-.
  pose proof (runPostSteps_ends e p opts
                (mkWorld (disk w10) (stdout w10 ++ ["→ Running post-generation steps..."])
                   (ran w10) (tools w10) (ctxObj w10) (seen w10))) as (_ & OP & _ & SP).
  rewrite H in OP, SP. cbn in OP, SP.
  destruct T8 as (O8 & S8 & C8), T9 as (O9 & S9 & C9), T10 as (O10 & S10 & _).
  rewrite C9, C8, C7 in S10. rewrite C8, C7 in S9. rewrite C7 in S8.
  split.
  - rewrite OP, O10, O9, O8, O7. cbn. rewrite O3, O2, O1.
    rewrite <- !app_assoc. reflexivity.
  - rewrite SP, S10, S9, S8, S7. cbn. rewrite S3, S2, S1.
    rewrite <- !app_assoc. reflexivity.
Qed.

(** X7.  A successful [InitProject] prints exactly these progress lines, in this
    order: the base template line, one line for the database when it is
    not none, one for OpenAPI when it is not none, one for Docker when it
    is selected, and the post-generation line. *)
Theorem InitProject_progress_lines tfs e p opts w w' :
  Engine.InitProject tfs e p opts w = (Ok tt, w') ->
  stdout w' = stdout w ++ ["→ Applying base template..."]
     ++ (if decide (Database opts = "none") then []
         else ["→ Adding " +:+ Database opts +:+ " database..."])
     ++ (if decide (OpenAPI opts = "none") then []
         else ["→ Adding OpenAPI (" +:+ OpenAPI opts +:+ " mode)..."])
     ++ (if Docker opts then ["→ Adding Docker configuration..."] else [])
     ++ ["→ Running post-generation steps..."].
Proof. intros H. exact (proj1 (InitProject_trace tfs e p opts w w' H)). Qed.

(** X7 on the sample bundle with Docker selected. *)
Lemma InitProject_progress_lines_witness :
  stdout (Engine.InitProject Sample.store Engine.NewEngine ["demo"] More.dockerOpts
            (Sample.world ∅ Sample.toolsOk)).2
  = [ "→ Applying base template..."; "→ Adding Docker configuration...";
      "→ Running post-generation steps..." ].
Proof.
  apply (InitProject_progress_lines Sample.store Engine.NewEngine ["demo"] More.dockerOpts
           (Sample.world ∅ Sample.toolsOk)).
  apply ran_to_completion. vm_compute. reflexivity.
Defined.

Lemma capability_run tfs (mo : option Modules.ModuleImpl) line notFound failed w w' :
  (println line ;;
   match mo with
   | None => fail notFound
   | Some mod_ => orWrap failed (Modules.Apply tfs mod_)
   end) w = (Ok tt, w') ->
  exists m, mo = Some m /\ Modules.Apply tfs m (println line w).2 = (Ok tt, w').
Proof.
  intros H. apply bind_inv_ok in H as ([] & w1 & Hp & H).
  destruct mo as [m|]; [|discriminate H].
  apply orWrap_ok in H. exists m. split; [reflexivity|].
  now rewrite Hp.
Qed.

Lemma InitProject_run tfs e p opts w w' :
  Engine.InitProject tfs e p opts w = (Ok tt, w') ->
  let c := mkContext p opts (Engine.templateDataOf opts) in
  let applied (selected : bool) (kind name line : string) (v v' : World) :=
    if selected then
      exists m, Modules.GetModule (Engine.registry e) kind name = Some m
                /\ ctxObj v = c
                /\ Modules.Apply tfs m (println line v).2 = (Ok tt, v')
    else v' = v in
  exists wDir wBase wDb wApi wDocker,
    ((if Force opts
      then orWrap "failed to remove existing directory" (osRemoveAll p)
      else ret tt) ;;
     orWrap "failed to create project directory" (osMkdirAll p)) w = (Ok tt, wDir)
    /\ Engine.applyTemplate tfs e ["files"; "base"] p (Engine.templateDataOf opts)
         (println "→ Applying base template..." (setCtx c wDir)).2 = (Ok tt, wBase)
    /\ applied (negb (bool_decide (Database opts = "none"))) "db" (Database opts)
         ("→ Adding " +:+ Database opts +:+ " database...") wBase wDb
    /\ applied (negb (bool_decide (OpenAPI opts = "none"))) "openapi" (OpenAPI opts)
         ("→ Adding OpenAPI (" +:+ OpenAPI opts +:+ " mode)...") wDb wApi
    /\ applied (Docker opts) "docker" "" "→ Adding Docker configuration..." wApi wDocker
    /\ Engine.runPostSteps e p opts (println "→ Running post-generation steps..." wDocker).2
       = (Ok tt, w').
Proof.
  intros H c applied. unfold Engine.InitProject in H.
  apply bind_inv_ok in H as ([] & w1 & H1 & H).
  apply bind_inv_ok in H as ([] & w2 & H2 & H).
  apply bind_inv_ok in H as ([] & w3 & H3 & H).
  apply bind_inv_ok in H as ([] & w4 & H4 & H).
  apply bind_inv_ok in H as ([] & w5 & H5 & H).
  apply bind_inv_ok in H as (ctx & w6 & H6 & H).
  apply bind_inv_ok in H as ([] & w7 & H7 & H).
  apply bind_inv_ok in H as ([] & w8 & H8 & H).
  apply bind_inv_ok in H as ([] & w9 & H9 & H).
  apply bind_inv_ok in H as ([] & w10 & H10 & H).
  apply bind_inv_ok in H as ([] & w11 & H11 & H).
  apply orWrap_ok in H.
  injection H4 as <-. injection H5 as <-. injection H6 as <- <-.
  apply orWrap_ok in H7. cbn [ctxObj setCtx TemplateData] in H7.
  assert (C7 : ctxObj w7 = c).
  { apply diskOnly_run in H7 as (_ & _ & C7); [|apply diskOnly_applyTemplate].
    exact C7. }
  exists w3, w7, w8, w9, w10.
  split.
  { unfold liftResult in H1. injection H1 as _ <-.
    unfold bind at 1. now rewrite H2. }
  split; [exact H7|].
  assert (A8 : applied (negb (bool_decide (Database opts = "none"))) "db" (Database opts)
                 ("→ Adding " +:+ Database opts +:+ " database...") w7 w8
               /\ ctxObj w8 = c).
  { unfold applied. destruct (decide (Database opts = "none")) as [E|E].
    - rewrite bool_decide_eq_true_2 by exact E. injection H8 as <-. now split.
    - rewrite bool_decide_eq_false_2 by exact E. cbn [negb].
      pose proof (capability_trace _ _ _ _ _ _ _ H8) as (_ & _ & C8).
      apply capability_run in H8 as (m & Hm & Ha).
      split; [exists m; now repeat split | congruence]. }
  destruct A8 as [A8 C8]. split; [exact A8|].
  assert (A9 : applied (negb (bool_decide (OpenAPI opts = "none"))) "openapi" (OpenAPI opts)
                 ("→ Adding OpenAPI (" +:+ OpenAPI opts +:+ " mode)...") w8 w9
               /\ ctxObj w9 = c).
  { unfold applied. destruct (decide (OpenAPI opts = "none")) as [E|E].
    - rewrite bool_decide_eq_true_2 by exact E. injection H9 as <-. now split.
    - rewrite bool_decide_eq_false_2 by exact E. cbn [negb].
      pose proof (capability_trace _ _ _ _ _ _ _ H9) as (_ & _ & C9).
      apply capability_run in H9 as (m & Hm & Ha).
      split; [exists m; now repeat split | congruence]. }
  destruct A9 as [A9 C9]. split; [exact A9|].
  split.
  - unfold applied. destruct (Docker opts).
    + apply capability_run in H10 as (m & Hm & Ha). exists m. now repeat split.
    + now injection H10 as <-.
  - injection H11 as <-. exact H.
Qed.

(** X8.  The steps of a successful [InitProject], in their order.  The
    directory is prepared: removed first when [Force] is set, then created.
    The base bundle is applied to the project path with the template data
    of the options.  Then, when the database is not none, the module the registry
    holds under [db] and the name of the database is applied; then, when
    the openapi mode is not none, the module held under [openapi] and that
    mode; then, when Docker is selected, the module held under [docker].
    Each module is applied in the world the step before it left, after its
    progress line, with the context built from the project path and the
    options; a capability that is not selected leaves the world as it is.
    The post-generation steps run last, in the world the last of these
    steps left, and leave the world the run ends in. *)
Theorem InitProject_applies_selected_modules tfs e p opts w w' :
  Engine.InitProject tfs e p opts w = (Ok tt, w') ->
  let c := mkContext p opts (Engine.templateDataOf opts) in
  let applied (selected : bool) (kind name line : string) (v v' : World) :=
    if selected then
      exists m, Modules.GetModule (Engine.registry e) kind name = Some m
                /\ ctxObj v = c
                /\ Modules.Apply tfs m (println line v).2 = (Ok tt, v')
    else v' = v in
  exists wDir wBase wDb wApi wDocker,
    ((if Force opts
      then orWrap "failed to remove existing directory" (osRemoveAll p)
      else ret tt) ;;
     orWrap "failed to create project directory" (osMkdirAll p)) w = (Ok tt, wDir)
    /\ Engine.applyTemplate tfs e ["files"; "base"] p (Engine.templateDataOf opts)
         (println "→ Applying base template..." (setCtx c wDir)).2 = (Ok tt, wBase)
    /\ applied (negb (bool_decide (Database opts = "none"))) "db" (Database opts)
         ("→ Adding " +:+ Database opts +:+ " database...") wBase wDb
    /\ applied (negb (bool_decide (OpenAPI opts = "none"))) "openapi" (OpenAPI opts)
         ("→ Adding OpenAPI (" +:+ OpenAPI opts +:+ " mode)...") wDb wApi
    /\ applied (Docker opts) "docker" "" "→ Adding Docker configuration..." wApi wDocker
    /\ Engine.runPostSteps e p opts (println "→ Running post-generation steps..." wDocker).2
       = (Ok tt, w').
Proof. exact (InitProject_run tfs e p opts w w'). Qed.

(** X8 with Docker alone selected: the docker module is the one applied,
    to what the base bundle left, and the post-generation steps follow
    it. *)
Lemma InitProject_applies_selected_modules_witness :
  let w := Sample.world ∅ Sample.toolsOk in
  let w' := (Engine.InitProject Sample.store Engine.NewEngine ["demo"] More.dockerOpts w).2 in
  let c := mkContext ["demo"] More.dockerOpts (Engine.templateDataOf More.dockerOpts) in
  exists wDir wBase wDocker,
    Engine.applyTemplate Sample.store Engine.NewEngine ["files"; "base"] ["demo"]
      (Engine.templateDataOf More.dockerOpts)
      (println "→ Applying base template..." (setCtx c wDir)).2 = (Ok tt, wBase)
    /\ ctxObj wBase = c
    /\ Modules.Apply Sample.store Modules.DockerModule
         (println "→ Adding Docker configuration..." wBase).2 = (Ok tt, wDocker)
    /\ Engine.runPostSteps Engine.NewEngine ["demo"] More.dockerOpts
         (println "→ Running post-generation steps..." wDocker).2 = (Ok tt, w').
Proof.
  intros w w' c. subst w'.
  assert (H1 : (Engine.InitProject Sample.store Engine.NewEngine ["demo"] More.dockerOpts w).1
               = Ok tt) by (vm_compute; reflexivity).
  pose proof (ran_to_completion _ tt H1) as Hrun.
  set (w' := (Engine.InitProject _ _ _ _ w).2) in *. clearbody w'.
  destruct (InitProject_applies_selected_modules Sample.store Engine.NewEngine ["demo"]
              More.dockerOpts w w' Hrun)
    as (wDir & wBase & wDb & wApi & wDocker & _ & Hbase & Hdb & Hapi & Hdocker & Hpost).
  change (bool_decide (Database More.dockerOpts = "none")) with true in Hdb.
  change (bool_decide (OpenAPI More.dockerOpts = "none")) with true in Hapi.
  change (Docker More.dockerOpts) with true in Hdocker.
  cbn [negb] in Hdb, Hapi. subst wDb wApi.
  destruct Hdocker as (m & Hm & Hc & Ha). injection Hm as <-.
  exists wDir, wBase, wDocker. repeat split; assumption.
Defined.

(** ** [AddModule] *)

Lemma getModulePath_reads_only e p w : (Engine.getModulePath e p w).2 = w.
Proof.
  unfold Engine.getModulePath, bind, orWrap, osReadFile.
  destruct (Os.ReadFile (disk w) _); [|reflexivity]. cbn.
  destruct (List.find _ _); reflexivity.
Qed.

Lemma getModulePath_run e p w :
  Engine.getModulePath e p w = ((Engine.getModulePath e p w).1, w).
Proof.
  rewrite <- (getModulePath_reads_only e p w) at 3. apply surjective_pairing.
Qed.

Lemma AddModule_without_manifest tfs e p opts w msg :
  (Engine.getModulePath e p w).1 = Err msg ->
  Engine.AddModule tfs e p opts w = (Err msg, w).
Proof.
  intros H. unfold Engine.AddModule. unfold bind at 1.
  rewrite getModulePath_run, H. reflexivity.
Qed.

Lemma getModulePath_of_disk e p w w0 :
  disk w0 = disk w -> (Engine.getModulePath e p w0).1 = (Engine.getModulePath e p w).1.
Proof.
  intros H. unfold Engine.getModulePath, bind, orWrap, osReadFile. rewrite H.
  destruct (Os.ReadFile (disk w) _); [|reflexivity]. cbn.
  destruct (List.find _ _); reflexivity.
Qed.

(** X9.  What [AddModule] rejects.  An unreadable manifest, or one without a
    module line, is returned as [getModulePath]'s error with the world
    untouched.  Past that: db without a type, openapi without a mode and a
    module name other than db, openapi, docker each fail with their message
    before anything is written or run; a db type the registry does not know
    is reported as a module that was not found, nothing written, printed
    or run. *)
Theorem AddModule_rejections tfs e p opts w :
  (forall msg, (Engine.getModulePath e p w).1 = Err msg ->
     Engine.AddModule tfs e p opts w = (Err msg, w))
  /\ (forall modPath, (Engine.getModulePath e p w).1 = Ok modPath ->
      let c0 := mkContext p (mkInitOptions "" modPath "" "" "" "" false "" false)
                  {[ "ModulePath" := Template.VString modPath ]} in
      (Engine.Module_ opts = "db" -> Engine.Type_ opts = "" ->
         Engine.AddModule tfs e p opts w
         = (Err "--type flag is required for db module", setCtx c0 w))
      /\ (Engine.Module_ opts = "openapi" -> Engine.Mode opts = "" ->
            Engine.AddModule tfs e p opts w
            = (Err "--mode flag is required for openapi module", setCtx c0 w))
      /\ (Engine.Module_ opts ∉ ["db"; "openapi"; "docker"] ->
            Engine.AddModule tfs e p opts w
            = (Err ("unknown module: " +:+ Engine.Module_ opts), setCtx c0 w))
      /\ (Engine.Module_ opts = "db" -> Engine.Type_ opts <> "" ->
          Modules.GetModule (Engine.registry e) "db" (Engine.Type_ opts) = None ->
          let r := Engine.AddModule tfs e p opts w in
          r.1 = Err "module not found: db"
          /\ disk r.2 = disk w /\ ran r.2 = ran w /\ stdout r.2 = stdout w
          /\ seen r.2 = seen w)).
Proof.
  split.
  - intros msg H. now apply AddModule_without_manifest.
  - intros modPath H c0.
    assert (Hstart : forall k : string -> M unit,
              bind (Engine.getModulePath e p) k w = k modPath w).
    { intros k. unfold bind. now rewrite getModulePath_run, H. }
    unfold Engine.AddModule. rewrite Hstart. clear Hstart.
    unfold bind, newCtx, fail. fold c0.
    split; [|split; [|split]].
    + intros Hm Ht.
      rewrite decide_True by exact Hm. rewrite decide_True by exact Ht. reflexivity.
    + intros Hm Ht.
      destruct (decide (Engine.Module_ opts = "db")) as [Hd|_]; [congruence|].
      rewrite decide_True by exact Hm. rewrite decide_True by exact Ht. reflexivity.
    + intros Hm. rewrite !elem_of_cons, elem_of_nil in Hm.
      rewrite !decide_False by tauto. reflexivity.
    + intros Hm Ht Hg. cbv zeta.
      rewrite decide_True by exact Hm. rewrite decide_False by exact Ht.
      rewrite Hg. cbn. repeat split. now rewrite Hm.
Qed.

(** X9 on a generated project: db without a type. *)
Lemma AddModule_rejections_witness :
  Engine.AddModule Sample.store Engine.NewEngine []
    (Engine.mkAddOptions "db" "" "" "") (Sample.world Sample.generated Sample.toolsOk)
  = (Err "--type flag is required for db module",
     setCtx (mkContext [] (mkInitOptions "" "example.com/demo" "" "" "" "" false "" false)
               {[ "ModulePath" := Template.VString "example.com/demo" ]})
       (Sample.world Sample.generated Sample.toolsOk)).
Proof.
  apply (proj1 (proj2 (AddModule_rejections Sample.store Engine.NewEngine []
                         (Engine.mkAddOptions "db" "" "" "")
                         (Sample.world Sample.generated Sample.toolsOk))
                 "example.com/demo" eq_refl)); reflexivity.
Defined.

Lemma AddModule_tail p w w' :
  (println "→ Running go mod tidy..." ;;
   let* r := CombinedOutput ["go"; "mod"; "tidy"] p in
   (if negb r.1 then println ("Warning: go mod tidy failed: " +:+ r.2) else ret tt) ;;
   ret tt) w = (Ok tt, w') ->
  seen w' = seen w /\ ctxObj w' = ctxObj w.
Proof.
  unfold bind, println, CombinedOutput, ret. cbn.
  destruct (tools w _ p (disk w)) as [[ok output] d]. destruct ok; cbn;
    intros [= <-]; split; reflexivity.
Qed.

(** X10.  The context a successful [AddModule] hands to the module: the project
    path and the module path read from go.mod, and nothing else of a
    project: project name, router and migration tool are empty, and the
    template data has no ProjectName, Router or Migrations key (a bundle
    that prints one of them prints the no-value text). *)
Theorem AddModule_context tfs e p opts w w' :
  Engine.AddModule tfs e p opts w = (Ok tt, w') ->
  exists modPath c,
    (Engine.getModulePath e p w).1 = Ok modPath
    /\ seen w' = seen w ++ [c] /\ ctxObj w' = c
    /\ ProjectPath c = p
    /\ ModulePath (Options c) = modPath
    /\ ProjectName (Options c) = ""
    /\ Router (Options c) = ""
    /\ Migrations (Options c) = ""
    /\ TemplateData c !! "ModulePath" = Some (Template.VString modPath)
    /\ TemplateData c !! "ProjectName" = None
    /\ TemplateData c !! "Router" = None
    /\ TemplateData c !! "Migrations" = None.
Proof.
  intros H. unfold Engine.AddModule in H.
  apply bind_inv_ok in H as (modPath & w1 & H1 & H).
  rewrite getModulePath_run in H1. injection H1 as H1 <-.
  apply bind_inv_ok in H as ([] & w2 & H2 & H). injection H2 as <-.
  apply bind_inv_ok in H as (mo & w3 & Hsel & H).
  destruct mo as [m|]; [|discriminate H].
  apply bind_inv_ok in H as ([] & w4 & Happly & H).
  apply orWrap_ok in Happly.
  pose proof (Apply_frame tfs m w3) as F. cbv zeta in F. rewrite Happly in F.
  cbn [snd] in F. destruct F as (_ & _ & _ & Fc & Fs).
  apply AddModule_tail in H as (Ts & Tc).
  assert (Hctx : seen w3 = seen w
            /\ ProjectPath (ctxObj w3) = p
            /\ ModulePath (Options (ctxObj w3)) = modPath
            /\ ProjectName (Options (ctxObj w3)) = ""
            /\ Router (Options (ctxObj w3)) = ""
            /\ Migrations (Options (ctxObj w3)) = ""
            /\ TemplateData (ctxObj w3) !! "ModulePath" = Some (Template.VString modPath)
            /\ TemplateData (ctxObj w3) !! "ProjectName" = None
            /\ TemplateData (ctxObj w3) !! "Router" = None
            /\ TemplateData (ctxObj w3) !! "Migrations" = None).
  { clear - Hsel. unfold bind, modifyCtx, ret, fail in Hsel.
    repeat match type of Hsel with
      | context [decide ?P] => destruct (decide P)
      end; try discriminate Hsel; injection Hsel as _ <-; cbn; repeat split; reflexivity. }
  destruct Hctx as (Hs & Hrest).
  exists modPath, (ctxObj w3). split; [exact H1|].
  split; [now rewrite Ts, Fs, Hs|]. split; [now rewrite Tc, Fc|]. exact Hrest.
Qed.

(** X10 on a generated project, adding docker. *)
Lemma AddModule_context_witness :
  exists modPath c,
    (Engine.getModulePath Engine.NewEngine [] (Sample.world Sample.generated Sample.toolsOk)).1
    = Ok modPath
    /\ seen (Engine.AddModule Sample.store Engine.NewEngine []
               (Engine.mkAddOptions "docker" "" "" "")
               (Sample.world Sample.generated Sample.toolsOk)).2 = [] ++ [c]
    /\ TemplateData c !! "ProjectName" = None.
Proof.
  destruct (AddModule_context Sample.store Engine.NewEngine []
              (Engine.mkAddOptions "docker" "" "" "")
              (Sample.world Sample.generated Sample.toolsOk)
              (Engine.AddModule Sample.store Engine.NewEngine []
                 (Engine.mkAddOptions "docker" "" "" "")
                 (Sample.world Sample.generated Sample.toolsOk)).2)
    as (modPath & c & H1 & H2 & _ & _ & _ & _ & _ & _ & _ & H3 & _).
  - apply ran_to_completion. vm_compute. reflexivity.
  - exists modPath, c. auto.
Defined.

(** ** The [add] command *)

(** X11.  The [add] command outside a project.  Without a go.mod in the
    working directory it fails with its own message and does nothing.  When go.mod
    exists but no module path can be read from it, the engine's error comes
    back wrapped, after the line that announces the module was printed and
    with nothing written or run; a go.mod that is a directory is such a
    case. *)
Theorem addRunE_outside_a_project tfs flags name w :
  (Os.Stat (disk w) ["go.mod"] = false ->
     Cmd.addRunE tfs flags name w
     = (Err "not in a Go project directory (go.mod not found)", w))
  /\ (forall msg, Os.Stat (disk w) ["go.mod"] = true ->
        (Engine.getModulePath Engine.NewEngine [] w).1 = Err msg ->
        let r := Cmd.addRunE tfs flags name w in
        r.1 = Err ("failed to add module: " +:+ msg)
        /\ disk r.2 = disk w /\ ran r.2 = ran w
        /\ stdout r.2 = stdout w ++ ["Adding module: " +:+ name])
  /\ (disk w !! ["go.mod"] = Some Dir ->
        (Cmd.addRunE tfs flags name w).1
        = Err "failed to add module: failed to read go.mod: read go.mod: is a directory").
Proof.
  assert (Hfail : forall msg, Os.Stat (disk w) ["go.mod"] = true ->
            (Engine.getModulePath Engine.NewEngine [] w).1 = Err msg ->
            let r := Cmd.addRunE tfs flags name w in
            r.1 = Err ("failed to add module: " +:+ msg)
            /\ disk r.2 = disk w /\ ran r.2 = ran w
            /\ stdout r.2 = stdout w ++ ["Adding module: " +:+ name]).
  { intros msg Hs Hg. cbv zeta.
    assert (Hrun : Cmd.addRunE tfs flags name w
                   = (Err ("failed to add module: " +:+ msg),
                      mkWorld (disk w) (stdout w ++ ["Adding module: " +:+ name]) (ran w)
                        (tools w) (ctxObj w) (seen w))).
    { unfold Cmd.addRunE. unfold bind at 1. unfold osStat. rewrite Hs. cbn [negb].
      unfold bind at 1. unfold println at 1. unfold bind at 1. unfold orWrap.
      rewrite (AddModule_without_manifest _ _ _ _ _ msg); [reflexivity|].
      rewrite <- Hg. now apply getModulePath_of_disk. }
    rewrite Hrun. cbn. repeat split. }
  split; [|split].
  - intros Hs. unfold Cmd.addRunE, bind, osStat. now rewrite Hs.
  - exact Hfail.
  - intros Hd. apply (Hfail "failed to read go.mod: read go.mod: is a directory").
    + unfold Os.Stat. now rewrite Hd.
    + unfold Engine.getModulePath, bind, orWrap, osReadFile, Os.ReadFile, Filepath.Join.
      cbn [app]. now rewrite Hd.
Qed.

(** X11 in a directory without go.mod. *)
Lemma addRunE_outside_a_project_witness :
  Cmd.addRunE Sample.store (Cmd.mkAddFlags "postgres" "" "") "db"
    (Sample.world Sample.occupied Sample.toolsOk)
  = (Err "not in a Go project directory (go.mod not found)",
     Sample.world Sample.occupied Sample.toolsOk).
Proof.
  apply (proj1 (addRunE_outside_a_project Sample.store (Cmd.mkAddFlags "postgres" "" "")
                  "db" (Sample.world Sample.occupied Sample.toolsOk))).
  reflexivity.
Defined.

(** ** The tree: what [MkdirAll] and [WriteFile] change *)

Lemma Rel_inv base : forall target rel,
  Filepath.Rel base target = Ok rel -> target = base ++ rel.
Proof.
  induction base as [|b base IH]; intros target rel H; simpl in H.
  - now injection H as ->.
  - destruct target as [|t target]; [discriminate|].
    destruct (decide (b = t)) as [->|]; [|discriminate].
    simpl. f_equal. now apply IH.
Qed.

Lemma mkdirFrom_changes todo : forall (fs : gmap (list string) fnode) at_ fs',
  Os.mkdirFrom fs at_ todo = Ok fs' ->
  forall k, fs' !! k = fs !! k
            \/ (fs !! k = None /\ fs' !! k = Some Dir
                /\ at_ `prefix_of` k /\ k `prefix_of` at_ ++ todo /\ k <> at_).
Proof.
  induction todo as [|c rest IH]; intros fs at_ fs' H k; simpl in H.
  - injection H as <-. now left.
  - assert (Hq : forall k', (at_ ++ [c]) `prefix_of` k' -> k' `prefix_of` (at_ ++ [c]) ++ rest ->
                  at_ `prefix_of` k' /\ k' `prefix_of` at_ ++ c :: rest /\ k' <> at_).
    { intros k' H1 H2. split; [|split].
      - etrans; [|exact H1]. now apply prefix_app_r.
      - now rewrite <- app_assoc in H2.
      - intros ->. destruct H1 as [x Hx]. rewrite <- app_assoc in Hx.
        apply (f_equal length) in Hx. rewrite length_app in Hx. simpl in Hx. lia. }
    destruct (fs !! (at_ ++ [c])) as [[|?]|] eqn:E; [| discriminate |].
    + destruct (IH _ _ _ H k) as [->|(Hn & Hd & H1 & H2 & _)]; [now left|].
      right. split; [exact Hn|]. split; [exact Hd|]. now apply Hq.
    + destruct (IH _ _ _ H k) as [Hk|(Hn & Hd & H1 & H2 & H3)].
      * destruct (decide (k = at_ ++ [c])) as [->|Hne].
        -- right. rewrite Hk, lookup_insert_eq. split; [exact E|]. split; [reflexivity|].
           apply Hq; [reflexivity|]. now apply prefix_app_r.
        -- left. rewrite Hk. now rewrite lookup_insert_ne.
      * right. destruct (decide (k = at_ ++ [c])) as [->|Hne]; [congruence|].
        rewrite lookup_insert_ne in Hn by congruence.
        split; [exact Hn|]. split; [exact Hd|]. now apply Hq.
Qed.

Lemma mkdirFrom_isDir todo : forall (fs : gmap (list string) fnode) at_ fs',
  Os.mkdirFrom fs at_ todo = Ok fs' ->
  Os.isDir fs at_ = true -> Os.isDir fs' (at_ ++ todo) = true.
Proof.
  induction todo as [|c rest IH]; intros fs at_ fs' H Hd; simpl in H.
  - injection H as <-. now rewrite app_nil_r.
  - assert (Hne : exists x y, at_ ++ [c] = x :: y).
    { destruct at_; simpl; eauto. }
    destruct Hne as (x & y & Hxy).
    replace (at_ ++ c :: rest) with ((at_ ++ [c]) ++ rest) by now rewrite <- app_assoc.
    destruct (fs !! (at_ ++ [c])) as [[|?]|] eqn:E; [| discriminate |].
    + apply (IH _ _ _ H). unfold Os.isDir. rewrite Hxy. rewrite <- Hxy. now rewrite E.
    + apply (IH _ _ _ H). unfold Os.isDir. rewrite Hxy. rewrite <- Hxy.
      now rewrite lookup_insert_eq.
Qed.

Lemma MkdirAll_isDir (fs : gmap (list string) fnode) p fs' :
  Os.MkdirAll fs p = Ok fs' -> Os.isDir fs' p = true.
Proof.
  unfold Os.MkdirAll. destruct (Os.isDir fs p) eqn:E; intros H.
  - now injection H as <-.
  - now apply (mkdirFrom_isDir _ _ _ _ H).
Qed.

Lemma MkdirAll_changes (fs : gmap (list string) fnode) p fs' :
  Os.MkdirAll fs p = Ok fs' ->
  forall k, fs' !! k = fs !! k
            \/ (fs !! k = None /\ fs' !! k = Some Dir /\ k `prefix_of` p /\ k <> []).
Proof.
  unfold Os.MkdirAll. destruct (Os.isDir fs p); intros H k.
  - injection H as <-. now left.
  - destruct (mkdirFrom_changes _ _ _ _ H k) as [?|(? & ? & ? & ? & ?)]; [now left|].
    right. auto.
Qed.

Lemma isDir_mono (fs fs' : gmap (list string) fnode) q :
  (forall k v, fs !! k = Some v -> fs' !! k = Some v) ->
  Os.isDir fs q = true -> Os.isDir fs' q = true.
Proof.
  intros Hm. unfold Os.isDir. destruct q as [|x q]; [reflexivity|].
  destruct (fs !! (x :: q)) as [[|?]|] eqn:E; try discriminate.
  now rewrite (Hm _ _ E).
Qed.

Lemma WriteFile_named (fs : gmap (list string) fnode) p content fs' :
  Os.WriteFile fs p content = Ok fs' -> p <> [] /\ Os.isDir fs (removelast p) = true.
Proof.
  unfold Os.WriteFile. destruct (last p) eqn:El; [|discriminate].
  destruct (decide (s = "")); [discriminate|].
  destruct (Os.isDir fs (removelast p)) eqn:E.
  - intros _. split; [|reflexivity]. intros ->. discriminate El.
  - destruct (fs !! removelast p) as [[|?]|]; discriminate.
Qed.

Lemma removelast_neq {A} (p : list A) : p <> [] -> removelast p <> p.
Proof.
  intros Hp E. apply (f_equal length) in E.
  destruct (exists_last Hp) as (l & a & ->).
  rewrite removelast_last, length_app in E. simpl in E. lia.
Qed.

Lemma removelast_prefix {A} (p : list A) : removelast p `prefix_of` p.
Proof.
  destruct (decide (length p = 0)) as [E|E].
  - destruct p; [reflexivity | discriminate].
  - assert (Hp : p <> []) by (intros ->; now apply E).
    destruct (exists_last Hp) as (l & a & ->).
    rewrite removelast_last. now apply prefix_app_r.
Qed.

(** ** Writing a file through [modules.WriteFile] *)

Lemma modWriteFile_inv p content w w' :
  Modules.WriteFile p content w = (Ok tt, w') ->
  exists d1, Os.MkdirAll (disk w) (Filepath.Dir p) = Ok d1
             /\ Os.WriteFile d1 p content = Ok (<[p := File content]> d1)
             /\ w' = setDisk (<[p := File content]> d1) w.
Proof.
  intros H. unfold Modules.WriteFile in H.
  apply bind_inv_ok in H as ([] & w1 & H1 & H2).
  unfold osMkdirAll in H1. unfold osWriteFile in H2.
  apply liftOs_ok in H1 as (d1 & Hd1 & ->).
  apply liftOs_ok in H2 as (d2 & Hd2 & ->).
  cbn in Hd2. pose proof (WriteFile_ok _ _ _ _ Hd2) as ->.
  exists d1. split; [exact Hd1|]. split; [exact Hd2|].
  now destruct w.
Qed.

(** X12.  After a successful [modules.WriteFile] the path reads back the content
    written, its parent is a directory, every other node of the tree is
    still there, nothing has changed except on the way down to the path,
    and nothing but the tree has changed. *)
Theorem WriteFile_then_read p content w w' :
  Modules.WriteFile p content w = (Ok tt, w') ->
  Os.ReadFile (disk w') p = Ok content
  /\ Os.isDir (disk w') (Filepath.Dir p) = true
  /\ (forall k v, k <> p -> disk w !! k = Some v -> disk w' !! k = Some v)
  /\ (forall k, ~ k `prefix_of` p -> disk w' !! k = disk w !! k)
  /\ sameButDisk w w'.
Proof.
  intros H. apply modWriteFile_inv in H as (d1 & Hd1 & Hd2 & ->).
  destruct (WriteFile_named _ _ _ _ Hd2) as [Hp Hdir].
  cbn [disk setDisk]. split; [|split; [|split; [|split]]].
  - unfold Os.ReadFile. destruct p; [congruence|]. now rewrite lookup_insert_eq.
  - pose proof (MkdirAll_isDir _ _ _ Hd1) as Hd. apply removelast_neq in Hp.
    unfold Filepath.Dir, Os.isDir in *.
    destruct (removelast p) as [|x q]; [reflexivity|].
    now rewrite lookup_insert_ne by congruence.
  - intros k v Hne Hk. rewrite lookup_insert_ne by congruence.
    now apply (MkdirAll_mono _ _ _ Hd1).
  - intros k Hnp. rewrite lookup_insert_ne by (intros <-; now apply Hnp).
    destruct (MkdirAll_changes _ _ _ Hd1 k) as [->|(_ & _ & Hpre & _)]; [reflexivity|].
    exfalso. apply Hnp. etrans; [exact Hpre|]. apply removelast_prefix.
  - now destruct w.
Qed.

(** X12 writing into a directory that does not exist yet. *)
Lemma WriteFile_then_read_witness :
  let p := ["demo"; "migrations"; ".gitkeep"] in
  let w := Sample.world ∅ Sample.toolsOk in
  let w' := (Modules.WriteFile p "" w).2 in
  Os.ReadFile (disk w') p = Ok ""
  /\ Os.isDir (disk w') ["demo"; "migrations"] = true.
Proof.
  intros p w w'.
  destruct (WriteFile_then_read p "" w w') as (H1 & H2 & _).
  - apply ran_to_completion. vm_compute. reflexivity.
  - split; [exact H1 | exact H2].
Defined.

(** ** A bundle that is missing from the store, or is a file *)

Lemma ApplyModuleTemplate_missing tfs tp dp data w :
  Store.open tfs tp = None ->
  Modules.ApplyModuleTemplate tfs tp dp data w
  = (Err ("open " +:+ pathString tp +:+ ": file does not exist"), w).
Proof.
  intros H. unfold Modules.ApplyModuleTemplate, Fs.WalkDir. now rewrite H.
Qed.

(** X13.  A bundle that is missing from the store makes both overlay functions
    fail with the store's error and the tree untouched, and makes the
    module of that bundle fail with its own prefix in front; a bundle path
    that names a file of the store is accepted and nothing is written. *)
Theorem bundle_not_a_directory tfs e tp dp data m w :
  (Store.open tfs tp = None ->
     Modules.ApplyModuleTemplate tfs tp dp data w
     = (Err ("open " +:+ pathString tp +:+ ": file does not exist"), w)
     /\ Engine.applyTemplate tfs e tp dp data w
        = (Err ("open " +:+ pathString tp +:+ ": file does not exist"), w))
  /\ (forall c, Store.open tfs tp = Some (Store.OFile c) ->
        Modules.ApplyModuleTemplate tfs tp dp data w = (Ok tt, w)
        /\ Engine.applyTemplate tfs e tp dp data w = (Ok tt, w))
  /\ (Store.open tfs (bundleOf m) = None ->
        (Modules.Apply tfs m w).1
        = Err ("failed to apply " +:+ bundleLabel m +:+ " template: open "
               +:+ pathString (bundleOf m) +:+ ": file does not exist")
        /\ disk (Modules.Apply tfs m w).2 = disk w).
Proof.
  split; [|split].
  - intros H. rewrite applyTemplate_same. split; now apply ApplyModuleTemplate_missing.
  - intros c H. rewrite applyTemplate_same.
    assert (Hm : Modules.ApplyModuleTemplate tfs tp dp data w = (Ok tt, w)).
    { unfold Modules.ApplyModuleTemplate, Fs.WalkDir. rewrite H. apply walkFn_root. }
    now split.
  - intros H.
    assert (Hrun : Modules.Apply tfs m w
                   = (Err ("failed to apply " +:+ bundleLabel m +:+ " template: open "
                           +:+ pathString (bundleOf m) +:+ ": file does not exist"),
                      (observe w).2)).
    { unfold Modules.Apply.
      destruct m; cbn [bundleOf bundleLabel] in *;
        [unfold Modules.PostgresModule_Apply | unfold Modules.MongoModule_Apply
        | unfold Modules.OpenAPIGenModule_Apply | unfold Modules.OpenAPIManualModule_Apply
        | unfold Modules.DockerModule_Apply];
        unfold bind, getCtx, orWrap; cbn beta iota; cbn [fst snd observe];
        rewrite (ApplyModuleTemplate_missing _ _ _ _ _ H); reflexivity. }
    rewrite Hrun. split; reflexivity.
Qed.

(** X13 the postgres module on a store without its bundle. *)
Lemma bundle_not_a_directory_witness :
  let w := Sample.world ∅ Sample.toolsOk in
  (Modules.Apply Sample.store Modules.PostgresModule w).1
  = Err "failed to apply postgres template: open files/db/postgres: file does not exist"
  /\ disk (Modules.Apply Sample.store Modules.PostgresModule w).2 = disk w.
Proof.
  intros w.
  destruct (bundle_not_a_directory Sample.store Engine.NewEngine [] [] ∅
              Modules.PostgresModule w) as (_ & _ & H).
  apply H. reflexivity.
Defined.

(** ** What an overlay leaves alone *)

Lemma respects_forEach_in (R : World -> World -> Prop) {A} (l : list A) (f : A -> M unit) :
  (forall w, R w w) -> (forall w1 w2 w3, R w1 w2 -> R w2 w3 -> R w1 w3) ->
  (forall a, a ∈ l -> respects R (f a)) -> respects R (forEach l f).
Proof.
  intros Hrefl Htrans. induction l as [|a l IH]; intros Hf w; simpl.
  - apply Hrefl.
  - unfold bind. assert (Ha : R w (f a w).2) by (apply Hf; left).
    destruct (f a w) as [[u|e] w1]; cbn in *; [|exact Ha].
    eapply Htrans; [exact Ha|]. apply IH. intros b Hb. apply Hf. now right.
Qed.

Lemma liftOs_cases f w :
  (exists e, liftOs f w = (Err e, w))
  \/ (exists d, f (disk w) = Ok d /\ liftOs f w = (Ok tt, setDisk d w)).
Proof.
  unfold liftOs. destruct (f (disk w)) as [d|e]; [right | left]; eauto.
Qed.

Lemma stays_refl k (v : fnode) w : stays k v w w.
Proof. now intros H. Qed.

Lemma stays_trans k (v : fnode) w1 w2 w3 : stays k v w1 w2 -> stays k v w2 w3 -> stays k v w1 w3.
Proof. unfold stays. auto. Qed.

Lemma stays_osMkdirAll k v p : respects (stays k v) (osMkdirAll p).
Proof.
  intros w Hk. unfold osMkdirAll.
  destruct (liftOs_cases (fun d => Os.MkdirAll d p) w) as [(e & ->)|(d & Hd & ->)]; [exact Hk|].
  cbn. now apply (MkdirAll_mono _ _ _ Hd).
Qed.

Lemma stays_osWriteFile k v p content : p <> k -> respects (stays k v) (osWriteFile p content).
Proof.
  intros Hne w Hk. unfold osWriteFile.
  destruct (liftOs_cases (fun d => Os.WriteFile d p content) w) as [(e & ->)|(d & Hd & ->)];
    [exact Hk|].
  cbn. rewrite (WriteFile_ok _ _ _ _ Hd). now rewrite lookup_insert_ne.
Qed.

Lemma stays_walkFn tfs tp dp data k v q d :
  (d = false -> forall out, Modules.written tfs tp dp data q = Ok out -> out.1 <> k) ->
  respects (stays k v) (Modules.walkFn tfs tp dp data q d None).
Proof.
  intros Hq w. destruct (decide (q = tp)) as [->|Hne].
  - rewrite walkFn_root. apply stays_refl.
  - destruct d.
    + unfold Modules.walkFn. destruct (decide (q = tp)); [congruence|].
      unfold bind, liftResult. destruct (Filepath.Rel tp q); [|apply stays_refl].
      apply stays_osMkdirAll.
    + rewrite (walkFn_file _ _ _ _ _ _ Hne).
      destruct (Modules.written tfs tp dp data q) as [out|e] eqn:E; [|apply stays_refl].
      apply (respects_bind _ (stays_trans k v)); [apply stays_osMkdirAll|].
      intros _. apply stays_osWriteFile. now apply Hq.
Qed.

(** X14.  An overlay, whether it succeeds or fails part-way, leaves every node of
    the tree in place that is not the destination of a file of the
    bundle. *)
Theorem overlay_spares_untargeted tfs tp dp data k v w :
  disk w !! k = Some v ->
  (forall ch q out, Store.open tfs tp = Some (Store.ODir ch) ->
     (q, false) ∈ Store.walkList tp ch ->
     Modules.written tfs tp dp data q = Ok out -> out.1 <> k) ->
  disk (Modules.ApplyModuleTemplate tfs tp dp data w).2 !! k = Some v.
Proof.
  intros Hk Hfree. revert Hk. change (stays k v w (Modules.ApplyModuleTemplate tfs tp dp data w).2).
  destruct (Store.open tfs tp) as [[c|ch]|] eqn:E.
  - unfold Modules.ApplyModuleTemplate, Fs.WalkDir. rewrite E, walkFn_root. apply stays_refl.
  - rewrite (ApplyModuleTemplate_dir _ _ _ _ _ _ E).
    apply (respects_forEach_in (stays k v)); [apply stays_refl | apply stays_trans |].
    intros [q d] Hin. apply stays_walkFn. cbn. intros -> out Hout.
    now apply (Hfree ch q out).
  - rewrite (ApplyModuleTemplate_missing _ _ _ _ _ E). apply stays_refl.
Qed.

(** X14 a file of the user's in the destination survives the base overlay. *)
Lemma overlay_spares_untargeted_witness :
  let w := Sample.world More.shared Sample.toolsOk in
  disk (Modules.ApplyModuleTemplate Sample.store ["files"; "base"] ["demo"] Sample.data w).2
    !! ["demo"; "old.txt"] = Some (File "old").
Proof.
  intros w.
  apply (overlay_spares_untargeted Sample.store ["files"; "base"] ["demo"] Sample.data
           ["demo"; "old.txt"] (File "old") w).
  - reflexivity.
  - intros ch q out Hopen Hin Hout. vm_compute in Hopen. injection Hopen as <-.
    apply list_elem_of_In in Hin. cbn in Hin.
    destruct Hin as [Hq|[Hq|[Hq|[Hq|[]]]]]; try discriminate Hq;
      injection Hq as <-; vm_compute in Hout; injection Hout as <-; discriminate.
Defined.

(** ** An overlay stays below its destination *)

Lemma confined_refl dp w : confined dp w w.
Proof. intros H. split; [exact H | reflexivity]. Qed.

Lemma confined_trans dp w1 w2 w3 : confined dp w1 w2 -> confined dp w2 w3 -> confined dp w1 w3.
Proof.
  intros H12 H23 H1. destruct (H12 H1) as [H2 E2]. destruct (H23 H2) as [H3 E3].
  split; [exact H3|]. intros k Hk. now rewrite E3, E2.
Qed.

Lemma confined_osMkdirAll dp rel : respects (confined dp) (osMkdirAll (dp ++ rel)).
Proof.
  intros w. unfold osMkdirAll.
  destruct (liftOs_cases (fun d => Os.MkdirAll d (dp ++ rel)) w) as [(e & ->)|(d & Hd & ->)];
    [apply confined_refl|].
  intros Hdirs. cbn [snd disk setDisk]. split.
  - intros q Hq. apply (isDir_mono (disk w)); [apply (MkdirAll_mono _ _ _ Hd) | now apply Hdirs].
  - intros k Hk. destruct (MkdirAll_changes _ _ _ Hd k) as [->|(Hn & _ & Hpre & Hne)];
      [reflexivity|].
    exfalso. destruct (prefix_weak_total dp k (dp ++ rel)) as [H|H];
      [now apply prefix_app_r | exact Hpre | now apply Hk |].
    pose proof (Hdirs k H) as Hd'. unfold Os.isDir in Hd'.
    destruct k; [congruence|]. now rewrite Hn in Hd'.
Qed.

Lemma below_not_prefix {A} (dp rel q : list A) : rel <> [] -> q `prefix_of` dp -> q <> dp ++ rel.
Proof.
  intros Hrel [x ->] E. rewrite <- app_assoc in E. apply (f_equal length) in E.
  rewrite !length_app in E. destruct rel; [congruence|]. simpl in E. lia.
Qed.

Lemma confined_osWriteFile dp rel content :
  rel <> [] -> respects (confined dp) (osWriteFile (dp ++ rel) content).
Proof.
  intros Hrel w. unfold osWriteFile.
  destruct (liftOs_cases (fun d => Os.WriteFile d (dp ++ rel) content) w)
    as [(e & ->)|(d & Hd & ->)]; [apply confined_refl|].
  intros Hdirs. cbn [snd disk setDisk]. rewrite (WriteFile_ok _ _ _ _ Hd). split.
  - intros q Hq. pose proof (Hdirs q Hq) as Hd'. unfold Os.isDir in *.
    destruct q as [|x q]; [reflexivity|].
    rewrite lookup_insert_ne; [exact Hd'|]. apply not_eq_sym. now apply below_not_prefix.
  - intros k Hk. rewrite lookup_insert_ne; [reflexivity|].
    intros <-. apply Hk. now apply prefix_app_r.
Qed.

Lemma dest_below (dp rel : list string) :
  rel <> [] ->
  (exists rel', rel' <> [] /\ Filepath.TrimSuffix (Filepath.Join dp rel) ".tmpl" = dp ++ rel'
                /\ Filepath.Dir (dp ++ rel') = dp ++ removelast rel')
  /\ Filepath.Dir (Filepath.Join dp rel) = dp ++ removelast rel.
Proof.
  intros Hrel. destruct (exists_last Hrel) as (r0 & name & ->).
  unfold Filepath.Join, Filepath.Dir. split.
  - exists (r0 ++ [Strings.TrimSuffix name ".tmpl"]).
    split; [now destruct r0|]. split.
    + rewrite app_assoc. rewrite path_TrimSuffix_snoc. now rewrite <- app_assoc.
    + rewrite app_assoc. now rewrite !removelast_last.
  - rewrite app_assoc. now rewrite !removelast_last.
Qed.

Lemma written_dest tfs tp dp data p out :
  p <> tp -> Modules.written tfs tp dp data p = Ok out ->
  exists rel', rel' <> [] /\ out.1 = dp ++ rel' /\ Filepath.Dir out.1 = dp ++ removelast rel'.
Proof.
  intros Hne. unfold Modules.written.
  destruct (Filepath.Rel tp p) as [rel|] eqn:Erel; [|discriminate].
  assert (Hrel : rel <> []).
  { intros ->. apply Rel_inv in Erel. rewrite app_nil_r in Erel. congruence. }
  destruct (dest_below dp rel Hrel) as [(rel' & Hrel' & Ht & Hd') Hd].
  destruct (Store.ReadFile tfs p) as [content|]; [|discriminate].
  destruct (Filepath.HasSuffix p ".tmpl").
  - destruct (Modules.renderTemplate content data); [|discriminate].
    intros H. injection H as <-. cbn [fst]. exists rel'. rewrite Ht. auto.
  - intros H. injection H as <-. cbn [fst]. exists rel. auto.
Qed.

Lemma confined_walkFn tfs tp dp data p d err :
  respects (confined dp) (Modules.walkFn tfs tp dp data p d err).
Proof.
  destruct err as [e|]; [apply (respects_fail _ (confined_refl dp))|].
  destruct (decide (p = tp)) as [->|Hne].
  { intros w. rewrite walkFn_root. apply confined_refl. }
  destruct d.
  - unfold Modules.walkFn. destruct (decide (p = tp)); [congruence|].
    apply (respects_bind _ (confined_trans dp));
      [apply (respects_liftResult _ (confined_refl dp))|].
    intros rel. unfold Filepath.Join. apply confined_osMkdirAll.
  - intros w. rewrite (walkFn_file _ _ _ _ _ _ Hne).
    destruct (Modules.written tfs tp dp data p) as [out|e] eqn:E; [|apply confined_refl].
    destruct (written_dest _ _ _ _ _ _ Hne E) as (rel' & Hrel' & -> & ->).
    revert w. apply (respects_bind _ (confined_trans dp)); [apply confined_osMkdirAll|].
    intros _. now apply confined_osWriteFile.
Qed.

Lemma confined_ApplyModuleTemplate tfs tp dp data :
  respects (confined dp) (Modules.ApplyModuleTemplate tfs tp dp data).
Proof.
  unfold Modules.ApplyModuleTemplate, Fs.WalkDir.
  destruct (Store.open tfs tp) as [[c|ch]|]; try apply confined_walkFn.
  apply (respects_bind _ (confined_trans dp)); [apply confined_walkFn|].
  intros _. apply (respects_forEach _ (confined_refl dp) (confined_trans dp)).
  intros [q d]. apply confined_walkFn.
Qed.

(** X15.  When the destination and the directories above it exist, an overlay
    changes nothing outside the destination, whether it succeeds or
    fails. *)
Theorem overlay_confined tfs e tp dp data w :
  (forall q, q `prefix_of` dp -> Os.isDir (disk w) q = true) ->
  forall k, ~ dp `prefix_of` k ->
    disk (Modules.ApplyModuleTemplate tfs tp dp data w).2 !! k = disk w !! k
    /\ disk (Engine.applyTemplate tfs e tp dp data w).2 !! k = disk w !! k.
Proof.
  intros Hdirs k Hk. rewrite applyTemplate_same.
  destruct (confined_ApplyModuleTemplate tfs tp dp data w Hdirs) as [_ H].
  split; now apply H.
Qed.

(** X15 a directory beside the destination. *)
Lemma overlay_confined_witness :
  let w := Sample.world More.shared Sample.toolsOk in
  disk (Modules.ApplyModuleTemplate Sample.store ["files"; "base"] ["demo"] Sample.data w).2
    !! ["other"; "notes.txt"] = disk w !! ["other"; "notes.txt"]
  /\ disk (Engine.applyTemplate Sample.store Engine.NewEngine ["files"; "base"] ["demo"]
             Sample.data w).2 !! ["other"; "notes.txt"] = disk w !! ["other"; "notes.txt"].
Proof.
  intros w.
  apply (overlay_confined Sample.store Engine.NewEngine ["files"; "base"] ["demo"]
           Sample.data w).
  - intros q [x Hx]. destruct q as [|a [|b q]]; [reflexivity | | discriminate Hx].
    injection Hx as <- _. reflexivity.
  - intros [x Hx]. discriminate Hx.
Defined.

(** ** A module stays below the project path *)

Lemma inProject_refl c w : inProject c w w.
Proof. intros H. split; [exact H|]. split; [reflexivity | apply confined_refl]. Qed.

Lemma inProject_trans c w1 w2 w3 :
  inProject c w1 w2 -> inProject c w2 w3 -> inProject c w1 w3.
Proof.
  intros H12 H23 H1. destruct (H12 H1) as (H2 & T2 & C2). destruct (H23 H2) as (H3 & T3 & C3).
  split; [exact H3|]. split; [congruence|]. now apply (confined_trans _ _ w2).
Qed.

Lemma inProject_of c {A} (m : M A) :
  respects sameButDisk m -> respects (confined (ProjectPath c)) m -> respects (inProject c) m.
Proof.
  intros Hs Hc w Hctx. destruct (Hs w) as (_ & _ & Ht & Hx & _).
  split; [congruence|]. split; [exact Ht | apply Hc].
Qed.

Lemma inProject_same c w w' :
  ctxObj w' = ctxObj w -> tools w' = tools w -> disk w' = disk w -> inProject c w w'.
Proof.
  intros Hc Ht Hd Hctx. split; [congruence|]. split; [exact Ht|].
  intros Hdirs. rewrite Hd. split; [exact Hdirs | reflexivity].
Qed.

Lemma inProject_getCtx_bind c {B} (k : Context -> M B) :
  respects (inProject c) (k c) -> respects (inProject c) (bind getCtx k).
Proof.
  intros Hk w Hctx. unfold bind, getCtx. rewrite Hctx. now apply Hk.
Qed.

Lemma confined_modWriteFile dp rel content :
  rel <> [] -> respects (confined dp) (Modules.WriteFile (Filepath.Join dp rel) content).
Proof.
  intros Hrel. unfold Modules.WriteFile.
  destruct (dest_below dp rel Hrel) as [_ ->]. unfold Filepath.Join.
  apply (respects_bind _ (confined_trans dp)); [apply confined_osMkdirAll|].
  intros _. now apply confined_osWriteFile.
Qed.

Lemma diskOnly_modWriteFile p content : respects sameButDisk (Modules.WriteFile p content).
Proof. disk_only. Qed.

Ltac in_project c :=
  repeat lazymatch goal with
    | |- respects _ (bind getCtx _) => apply inProject_getCtx_bind
    | |- respects _ (bind _ _) => apply (respects_bind _ (inProject_trans c)); [|intros ?]
    | |- respects _ (orWrap _ _) => apply respects_orWrap
    | |- respects _ (println _) => intros ?; apply inProject_same; reflexivity
    | |- respects _ observe => intros ?; apply inProject_same; reflexivity
    | |- respects _ (ret _) => apply (respects_ret _ (inProject_refl c))
    | |- respects _ (fail _) => apply (respects_fail _ (inProject_refl c))
    | |- respects _ getCtx => apply (respects_getCtx _ (inProject_refl c))
    | |- respects _ (Modules.ApplyModuleTemplate _ _ _ _) =>
        apply inProject_of; [apply diskOnly_ApplyModuleTemplate | apply confined_ApplyModuleTemplate]
    | |- respects _ (Engine.applyTemplate _ _ _ _ _) =>
        rewrite applyTemplate_same
    | |- respects _ (Modules.WriteFile (Filepath.Join (Filepath.Join ?a ?b) ?d) _) =>
        change (Filepath.Join (Filepath.Join a b) d) with ((a ++ b) ++ d);
        rewrite <- (app_assoc a b d); change (a ++ b ++ d) with (Filepath.Join a (b ++ d))
    | |- respects _ (Modules.WriteFile (Filepath.Join _ _) _) =>
        apply inProject_of; [apply diskOnly_modWriteFile | now apply confined_modWriteFile]
    | |- respects _ (if ?b then _ else _) => destruct b
    | |- respects _ (match ?x with _ => _ end) => destruct x
    end.

Lemma inProject_Apply c tfs m : respects (inProject c) (Modules.Apply tfs m).
Proof.
  unfold Modules.Apply.
  destruct m;
    [unfold Modules.PostgresModule_Apply | unfold Modules.MongoModule_Apply
    | unfold Modules.OpenAPIGenModule_Apply | unfold Modules.OpenAPIManualModule_Apply
    | unfold Modules.DockerModule_Apply]; cbv zeta; in_project c.
Qed.

(** X16.  When the project path of the context and the directories above it
    exist, [Apply] of any module changes nothing outside the project
    path, whether it succeeds or fails. *)
Theorem module_confined tfs m w :
  (forall q, q `prefix_of` ProjectPath (ctxObj w) -> Os.isDir (disk w) q = true) ->
  forall k, ~ ProjectPath (ctxObj w) `prefix_of` k ->
    disk (Modules.Apply tfs m w).2 !! k = disk w !! k.
Proof.
  intros Hdirs k Hk.
  destruct (inProject_Apply (ctxObj w) tfs m w eq_refl) as (_ & _ & Hc).
  destruct (Hc Hdirs) as [_ H]. now apply H.
Qed.

(** X16 the docker module and a directory beside the project. *)
Lemma module_confined_witness :
  let w := setCtx (mkContext ["demo"] Sample.opts Sample.data)
             (Sample.world More.shared Sample.toolsOk) in
  disk (Modules.Apply Sample.store Modules.DockerModule w).2 !! ["other"; "notes.txt"]
  = disk w !! ["other"; "notes.txt"].
Proof.
  intros w. apply (module_confined Sample.store Modules.DockerModule w).
  - intros q [x Hx]. destruct q as [|a [|b q]]; [reflexivity | | discriminate Hx].
    injection Hx as <- _. reflexivity.
  - intros [x Hx]. discriminate Hx.
Defined.

(** ** [InitProject] stays below the project path *)

Lemma runPostSteps_tame e p opts w :
  (forall argv d k, ~ p `prefix_of` k -> (tools w argv p d).2 !! k = d !! k) ->
  forall k, ~ p `prefix_of` k -> disk (Engine.runPostSteps e p opts w).2 !! k = disk w !! k.
Proof.
  intros Ht k Hk.
  unfold Engine.runPostSteps, bind, CombinedOutput, fail, ret.
  pose proof (Ht ["go"; "mod"; "init"; ModulePath opts] (disk w) k Hk) as H1.
  destruct (tools w _ p (disk w)) as [[ok1 out1] d1]. cbn in H1 |- *.
  destruct ok1; cbn; [|exact H1].
  pose proof (Ht ["go"; "mod"; "tidy"] d1 k Hk) as H2.
  destruct (tools w ["go"; "mod"; "tidy"] p d1) as [[ok2 out2] d2]. cbn in H2 |- *.
  destruct ok2; cbn; [|congruence].
  pose proof (Ht ["go"; "fmt"; "./..."] d2 k Hk) as H3.
  destruct (tools w ["go"; "fmt"; "./..."] p d2) as [[ok3 out3] d3]. cbn in H3 |- *.
  congruence.
Qed.

Lemma strict_prefix_outside {A} (p q : list A) : q `prefix_of` p -> q <> p -> ~ p `prefix_of` q.
Proof.
  intros [x ->] Hne [y Hy]. apply Hne. rewrite <- app_assoc in Hy.
  apply (f_equal length) in Hy. rewrite !length_app in Hy.
  destruct x; [now rewrite app_nil_r|]. simpl in Hy. lia.
Qed.

Lemma afterDirectoryPrep_confined tfs e p opts w :
  (forall q, q `prefix_of` p -> Os.isDir (disk w) q = true) ->
  (forall argv d k, ~ p `prefix_of` k -> (tools w argv p d).2 !! k = d !! k) ->
  forall k, ~ p `prefix_of` k ->
    disk (Engine.afterDirectoryPrep tfs e p opts w).2 !! k = disk w !! k.
Proof.
  intros Hdirs Ht k Hk.
  set (c := mkContext p opts (Engine.templateDataOf opts)).
  set (w0 := setCtx c w).
  set (Q := fun (r : result unit) (w' : World) => disk w' !! k = disk w !! k).
  change (Q (Engine.afterDirectoryPrep tfs e p opts w).1
            (Engine.afterDirectoryPrep tfs e p opts w).2).
  assert (Hin : forall w1, inProject c w0 w1 ->
                  tools w1 = tools w /\ disk w1 !! k = disk w !! k).
  { intros w1 H. destruct (H eq_refl) as (_ & T & C).
    destruct (C Hdirs) as [_ Hout]. split; [exact T | now apply Hout]. }
  assert (Herr : forall e0 w1, inProject c w0 w1 -> Q (Err e0) w1).
  { intros e0 w1 H. apply (Hin w1 H). }
  unfold Engine.afterDirectoryPrep. fold c.
  lazymatch goal with
  | |- context [bind (newCtx c) ?k w] => change (bind (newCtx c) k w) with (k tt w0)
  end.
  cbv beta.
  assert (H0 : inProject c w0 w0) by apply inProject_refl.
  repeat lazymatch goal with
    | |- _ (bind _ _ _).1 _ =>
        apply (step _ (inProject_trans c) w0);
          [first [apply inProject_refl | eassumption]
          | solve [in_project c; try apply inProject_Apply;
                   try (apply inProject_of;
                        [apply diskOnly_ApplyModuleTemplate
                        | apply confined_ApplyModuleTemplate])]
          | exact Herr |];
        intros ? ? ?
    end.
  lazymatch goal with
  | K : inProject c w0 ?w1 |- _ (orWrap _ _ ?w1).1 _ =>
      destruct (Hin w1 K) as [T D];
      pose proof (runPostSteps_tame e p opts w1) as Hp;
      rewrite T in Hp; specialize (Hp Ht k Hk);
      unfold orWrap; destruct (Engine.runPostSteps e p opts w1) as [[u|msg] wEnd]
  end; cbn [fst snd] in Hp |- *; unfold Q; congruence.
Qed.

Lemma prepare_remove p w :
  (forall q, q `prefix_of` p -> q <> p -> Os.isDir (disk w) q = true) ->
  let w1 := (osRemoveAll p w).2 in
  tools w1 = tools w
  /\ (forall q, q `prefix_of` p -> q <> p -> Os.isDir (disk w1) q = true)
  /\ (forall k, ~ p `prefix_of` k -> disk w1 !! k = disk w !! k).
Proof.
  intros Hpar. unfold osRemoveAll.
  destruct (liftOs_cases (fun d => Os.RemoveAll d p) w) as [(e & ->)|(d & Hd & ->)]; cbn.
  - auto.
  - split; [reflexivity|]. split.
    + intros q Hq Hne. pose proof (Hpar q Hq Hne) as Hdir. unfold Os.isDir in *.
      destruct q as [|x q]; [reflexivity|].
      rewrite (RemoveAll_elsewhere _ _ _ Hd); [exact Hdir|].
      now apply strict_prefix_outside.
    + intros k Hk. now apply (RemoveAll_elsewhere _ _ _ Hd).
Qed.

Lemma prepare_mkdir p w :
  (forall q, q `prefix_of` p -> q <> p -> Os.isDir (disk w) q = true) ->
  (exists e, osMkdirAll p w = (Err e, w))
  \/ (exists w1, osMkdirAll p w = (Ok tt, w1)
        /\ tools w1 = tools w
        /\ (forall q, q `prefix_of` p -> Os.isDir (disk w1) q = true)
        /\ (forall k, ~ p `prefix_of` k -> disk w1 !! k = disk w !! k)).
Proof.
  intros Hpar. unfold osMkdirAll.
  destruct (liftOs_cases (fun d => Os.MkdirAll d p) w) as [(e & ->)|(d & Hd & ->)];
    [left; eauto | right].
  eexists. split; [reflexivity|]. cbn. split; [reflexivity|]. split.
  - intros q Hq. destruct (decide (q = p)) as [->|Hne]; [apply (MkdirAll_isDir _ _ _ Hd)|].
    apply (isDir_mono (disk w)); [apply (MkdirAll_mono _ _ _ Hd) | now apply Hpar].
  - intros k Hk. destruct (MkdirAll_changes _ _ _ Hd k) as [->|(Hn & _ & Hpre & Hne)];
      [reflexivity|].
    exfalso. assert (Hkp : k <> p) by (intros ->; now apply Hk).
    pose proof (Hpar k Hpre Hkp) as Hdir. unfold Os.isDir in Hdir.
    destruct k; [congruence|]. now rewrite Hn in Hdir.
Qed.

Lemma InitProject_outside tfs e p opts w :
  (forall q, q `prefix_of` p -> q <> p -> Os.isDir (disk w) q = true) ->
  (forall argv d k, ~ p `prefix_of` k -> (tools w argv p d).2 !! k = d !! k) ->
  forall k, ~ p `prefix_of` k ->
    disk (Engine.InitProject tfs e p opts w).2 !! k = disk w !! k.
Proof.
  intros Hpar Ht k Hk. rewrite InitProject_phases.
  unfold bind at 1. unfold liftResult at 1.
  destruct (Engine.validateInitOptions e opts); [|reflexivity].
  assert (Hrm : exists w1,
             tools w1 = tools w
             /\ (forall q, q `prefix_of` p -> q <> p -> Os.isDir (disk w1) q = true)
             /\ (forall k, ~ p `prefix_of` k -> disk w1 !! k = disk w !! k)
             /\ forall B (m : M B),
                  disk (((if Force opts
                          then orWrap "failed to remove existing directory" (osRemoveAll p)
                          else ret tt) ;; m) w).2 !! k = disk w1 !! k
                  \/ ((if Force opts
                       then orWrap "failed to remove existing directory" (osRemoveAll p)
                       else ret tt) ;; m) w = m w1).
  { destruct (Force opts).
    - exists (osRemoveAll p w).2. destruct (prepare_remove p w Hpar) as (T & P & O).
      repeat (split; [assumption|]). intros B m. unfold bind, orWrap.
      destruct (osRemoveAll p w) as [[[]|err] w1]; cbn; [right | left]; reflexivity.
    - exists w. repeat (split; [auto|]). intros B m. now right. }
  destruct Hrm as (w1 & T1 & P1 & O1 & Hrun).
  destruct (Hrun _ (orWrap "failed to create project directory" (osMkdirAll p) ;;
                   Engine.afterDirectoryPrep tfs e p opts)) as [->| ->]; [now apply O1|].
  rewrite <- (O1 k Hk). unfold bind, orWrap.
  destruct (prepare_mkdir p w1 P1) as [(err & ->)|(w2 & -> & T2 & D2 & O2)]; [reflexivity|].
  rewrite <- (O2 k Hk). apply afterDirectoryPrep_confined; [exact D2 | | exact Hk].
  rewrite T2, T1. exact Ht.
Qed.



(** X18.  The same for the [init] command, for a project name that does not
    lead out of the working directory: the project path is the name with
    its [.] and [..] components resolved, as [filepath.Join] resolves them,
    and when no [..] is left in it, the directories above it exist and the
    external tools leave alone what is outside it, the command changes
    nothing outside the project path, whatever the flags and whatever the
    outcome.  A name that leads out of the working directory is left out:
    the tree does not tell which of the names above the working directory
    denote one directory. *)
Theorem initRunE_stays_in_project tfs flags name w :
  let p := Cmd.projectPathOf name in
  ".." ∉ p ->
  (forall q, q `prefix_of` p -> q <> p -> Os.isDir (disk w) q = true) ->
  (forall argv d k, ~ p `prefix_of` k -> (tools w argv p d).2 !! k = d !! k) ->
  forall k, ~ p `prefix_of` k ->
    disk (Cmd.initRunE tfs flags name w).2 !! k = disk w !! k.
Proof.
  intros p _ Hpar Ht k Hk. unfold Cmd.initRunE.
  destruct (decide (Cmd.modulePath flags = "")); [reflexivity|].
  destruct (bool_decide (Cmd.openapi flags = "gen") && bool_decide (Cmd.specPath flags = ""));
    [reflexivity|].
  fold p. unfold bind at 1. unfold osStat at 1.
  destruct (Os.Stat (disk w) p && negb (Cmd.force flags)); [reflexivity|].
  unfold bind at 1. unfold println at 1. unfold bind at 1. unfold println at 1.
  set (w2 := mkWorld _ _ _ _ _ _).
  set (opts := mkInitOptions _ _ _ _ _ _ _ _ _).
  pose proof (InitProject_outside tfs Engine.NewEngine p opts w2 Hpar Ht k Hk) as Hinit.
  unfold bind at 1. unfold orWrap.
  destruct (Engine.InitProject tfs Engine.NewEngine p opts w2) as [[[]|err] w3];
    cbn [fst snd] in Hinit |- *; exact Hinit.
Qed.

(** X18 on a forced run whose name goes through a directory of the user's
    and back: the project path is [demo], and what the user keeps in
    [other] is still there. *)
Lemma initRunE_stays_in_project_witness :
  let w := Sample.world More.shared Sample.toolsOk in
  Cmd.projectPathOf "other/../demo" = ["demo"]
  /\ disk (Cmd.initRunE Sample.store Sample.forcedFlags "other/../demo" w).2
       !! ["other"; "notes.txt"]
     = Some (File "keep").
Proof.
  intros w. split; [reflexivity|].
  change (Some (File "keep")) with (disk w !! ["other"; "notes.txt"]).
  apply (initRunE_stays_in_project Sample.store Sample.forcedFlags "other/../demo" w);
    change (Cmd.projectPathOf "other/../demo") with ["demo"].
  - intros H. rewrite elem_of_cons, elem_of_nil in H. destruct H as [H|[]]. discriminate H.
  - intros q [x Hx] Hne. destruct q as [|a [|b q]]; [reflexivity | | discriminate Hx].
    injection Hx as <- _. congruence.
  - intros argv d k _. reflexivity.
  - intros [x Hx]. discriminate Hx.
Defined.

(** ** Directories stay directories, files stay files *)

Lemma kinds_refl w : kinds w w.
Proof. intros k. split; eauto. Qed.

Lemma kinds_trans w1 w2 w3 : kinds w1 w2 -> kinds w2 w3 -> kinds w1 w3.
Proof.
  intros H12 H23 k. destruct (H12 k) as [D12 F12]. destruct (H23 k) as [D23 F23].
  split; [auto|]. intros c Hc. destruct (F12 c Hc) as [c' Hc']. eauto.
Qed.

Lemma WriteFile_not_dir (fs : gmap (list string) fnode) p content fs' :
  Os.WriteFile fs p content = Ok fs' -> fs !! p <> Some Dir.
Proof.
  unfold Os.WriteFile. destruct (last p); [|discriminate].
  destruct (decide (s = "")); [discriminate|].
  destruct (Os.isDir fs (removelast p)).
  - destruct (fs !! p) as [[|?]|]; [discriminate | discriminate | discriminate].
  - destruct (fs !! removelast p) as [[|?]|]; discriminate.
Qed.

Lemma kinds_osMkdirAll p : respects kinds (osMkdirAll p).
Proof.
  intros w. unfold osMkdirAll.
  destruct (liftOs_cases (fun d => Os.MkdirAll d p) w) as [(e & ->)|(d & Hd & ->)];
    [apply kinds_refl|].
  intros k. cbn. split.
  - apply (MkdirAll_mono _ _ _ Hd).
  - intros c Hc. exists c. now apply (MkdirAll_mono _ _ _ Hd).
Qed.

Lemma kinds_osWriteFile p content : respects kinds (osWriteFile p content).
Proof.
  intros w. unfold osWriteFile.
  destruct (liftOs_cases (fun d => Os.WriteFile d p content) w) as [(e & ->)|(d & Hd & ->)];
    [apply kinds_refl|].
  pose proof (WriteFile_not_dir _ _ _ _ Hd) as Hnd.
  rewrite (WriteFile_ok _ _ _ _ Hd). intros k. cbn.
  destruct (decide (p = k)) as [->|Hne].
  - rewrite lookup_insert_eq. split; [congruence | eauto].
  - rewrite lookup_insert_ne by exact Hne. split; eauto.
Qed.

Ltac same_kinds :=
  repeat lazymatch goal with
    | |- respects _ (bind _ _) => apply (respects_bind _ kinds_trans); [|intros ?]
    | |- respects _ (orWrap _ _) => apply respects_orWrap
    | |- respects _ (forEach _ _) => apply (respects_forEach _ kinds_refl kinds_trans); intros ?
    | |- respects _ (ret _) => apply (respects_ret _ kinds_refl)
    | |- respects _ (fail _) => apply (respects_fail _ kinds_refl)
    | |- respects _ (liftResult _) => apply (respects_liftResult _ kinds_refl)
    | |- respects _ (osMkdirAll _) => apply kinds_osMkdirAll
    | |- respects _ (osWriteFile _ _) => apply kinds_osWriteFile
    | |- respects _ (if ?b then _ else _) => destruct b
    | |- respects _ (match ?x with _ => _ end) => destruct x
    end.

Lemma kinds_walkFn tfs tp dp data p d err :
  respects kinds (Modules.walkFn tfs tp dp data p d err).
Proof. unfold Modules.walkFn. same_kinds. Qed.

Lemma kinds_walk tfs tp dp data l :
  respects kinds (forEach l (fun pd => Modules.walkFn tfs tp dp data pd.1 pd.2 None)).
Proof. same_kinds. apply kinds_walkFn. Qed.

Lemma kinds_ApplyModuleTemplate tfs tp dp data :
  respects kinds (Modules.ApplyModuleTemplate tfs tp dp data).
Proof.
  unfold Modules.ApplyModuleTemplate, Fs.WalkDir.
  destruct (Store.open tfs tp) as [[c|ch]|]; try apply kinds_walkFn.
  same_kinds; apply kinds_walkFn.
Qed.

Lemma isDir_kinds w w' q : kinds w w' -> Os.isDir (disk w) q = true -> Os.isDir (disk w') q = true.
Proof.
  intros Hk. unfold Os.isDir. destruct q as [|x q]; [reflexivity|].
  destruct (disk w !! (x :: q)) as [[|?]|] eqn:E; try discriminate.
  now rewrite (proj1 (Hk _) E).
Qed.

(** ** What a successful overlay leaves in the tree *)

Lemma WriteFile_name (fs : gmap (list string) fnode) p content fs' :
  Os.WriteFile fs p content = Ok fs' -> exists name, last p = Some name /\ name <> "".
Proof.
  unfold Os.WriteFile. destruct (last p) as [name|]; [|discriminate].
  destruct (decide (name = "")); [discriminate|]. eauto.
Qed.

Lemma WriteFile_when (fs : gmap (list string) fnode) p content name :
  last p = Some name -> name <> "" -> Os.isDir fs (removelast p) = true ->
  fs !! p <> Some Dir ->
  Os.WriteFile fs p content = Ok (<[p := File content]> fs).
Proof.
  intros Hl Hn Hd Hp. unfold Os.WriteFile. rewrite Hl.
  destruct (decide (name = "")); [congruence|]. rewrite Hd.
  destruct (fs !! p) as [[|?]|]; [congruence | reflexivity | reflexivity].
Qed.

Lemma walkFn_dir_inv tfs tp dp data q w w' :
  q <> tp -> Modules.walkFn tfs tp dp data q true None w = (Ok tt, w') ->
  exists rel d1, Filepath.Rel tp q = Ok rel
    /\ Os.MkdirAll (disk w) (dp ++ rel) = Ok d1 /\ w' = setDisk d1 w.
Proof.
  intros Hne. unfold Modules.walkFn. destruct (decide (q = tp)); [congruence|].
  unfold bind, liftResult. destruct (Filepath.Rel tp q) as [rel|]; [|discriminate].
  intros H. unfold osMkdirAll in H. apply liftOs_ok in H as (d1 & Hd1 & ->). eauto.
Qed.

Lemma walkFn_file_inv tfs tp dp data q w w' :
  q <> tp -> Modules.walkFn tfs tp dp data q false None w = (Ok tt, w') ->
  exists out d1, Modules.written tfs tp dp data q = Ok out
    /\ Os.MkdirAll (disk w) (Filepath.Dir out.1) = Ok d1
    /\ Os.WriteFile d1 out.1 out.2 = Ok (<[out.1 := File out.2]> d1)
    /\ w' = setDisk (<[out.1 := File out.2]> d1) w.
Proof.
  intros Hne. rewrite (walkFn_file _ _ _ _ _ _ Hne).
  destruct (Modules.written tfs tp dp data q) as [out|]; [|discriminate].
  intros H. apply (modWriteFile_inv out.1 out.2) in H as (d1 & H1 & H2 & ->).
  exists out, d1. auto.
Qed.

Lemma settled_kinds tfs tp dp data q d w w' :
  kinds w w' -> settled tfs tp dp data q d w -> settled tfs tp dp data q d w'.
Proof.
  intros Hk. unfold settled. destruct d.
  - intros (rel & Hrel & Hd). exists rel. split; [exact Hrel|]. now apply (isDir_kinds w).
  - intros (out & Hout & (c & Hc) & Hd & Hname). exists out. split; [exact Hout|].
    split; [apply (proj2 (Hk _) c Hc)|]. split; [now apply (isDir_kinds w) | exact Hname].
Qed.

Lemma step_settles tfs tp dp data q d w w' :
  q <> tp -> Modules.walkFn tfs tp dp data q d None w = (Ok tt, w') ->
  settled tfs tp dp data q d w'.
Proof.
  intros Hne H. destruct d.
  - apply walkFn_dir_inv in H as (rel & d1 & Hrel & Hd1 & ->); [|exact Hne].
    exists rel. split; [exact Hrel|]. cbn. apply (MkdirAll_isDir _ _ _ Hd1).
  - apply walkFn_file_inv in H as (out & d1 & Hout & Hd1 & Hw & ->); [|exact Hne].
    exists out. split; [exact Hout|]. cbn [disk setDisk].
    destruct (WriteFile_named _ _ _ _ Hw) as [Hp _].
    split; [exists out.2; now rewrite lookup_insert_eq|]. split.
    + pose proof (MkdirAll_isDir _ _ _ Hd1) as Hd. apply removelast_neq in Hp.
      unfold Filepath.Dir, Os.isDir in *.
      destruct (removelast out.1) as [|x r]; [reflexivity|].
      now rewrite lookup_insert_ne by congruence.
    + apply (WriteFile_name _ _ _ _ Hw).
Qed.

Lemma walk_settles tfs tp dp data l : forall w w',
  forEach l (fun pd => Modules.walkFn tfs tp dp data pd.1 pd.2 None) w = (Ok tt, w') ->
  (forall q d, (q, d) ∈ l -> q <> tp) ->
  forall q d, (q, d) ∈ l -> settled tfs tp dp data q d w'.
Proof.
  induction l as [|[q0 d0] l IH]; intros w w' H Hroot q d Hin.
  - inversion Hin.
  - cbn [forEach] in H. apply bind_inv_ok in H as ([] & wm & H1 & H2). cbn in H1.
    apply elem_of_cons in Hin as [Heq|Hin].
    + injection Heq as -> ->.
      apply (settled_kinds _ _ _ _ _ _ wm).
      * pose proof (kinds_walk tfs tp dp data l wm) as K. now rewrite H2 in K.
      * apply (step_settles _ _ _ _ _ _ w); [|exact H1]. apply (Hroot q0 d0). now left.
    + apply (IH wm w' H2); [|exact Hin]. intros q' d' Hin'. apply (Hroot q' d'). now right.
Qed.

Lemma lastWrite_none tfs tp dp data l k :
  lastWrite tfs tp dp data l k = None ->
  forall q out, (q, false) ∈ l -> Modules.written tfs tp dp data q = Ok out -> out.1 <> k.
Proof.
  induction l as [|[q0 d0] l IH]; intros H q out Hin Hout.
  - inversion Hin.
  - simpl in H. destruct (lastWrite tfs tp dp data l k) eqn:E; [discriminate|].
    apply elem_of_cons in Hin as [Heq|Hin]; [|now apply (IH eq_refl q out)].
    injection Heq as <- <-. rewrite Hout in H.
    destruct (decide (out.1 = k)); [discriminate | assumption].
Qed.

Lemma walk_last_write tfs tp dp data l : forall w w',
  forEach l (fun pd => Modules.walkFn tfs tp dp data pd.1 pd.2 None) w = (Ok tt, w') ->
  (forall q d, (q, d) ∈ l -> q <> tp) ->
  forall k c, lastWrite tfs tp dp data l k = Some c -> disk w' !! k = Some (File c).
Proof.
  induction l as [|[q0 d0] l IH]; intros w w' H Hroot k c Hk.
  - discriminate Hk.
  - cbn [forEach] in H. apply bind_inv_ok in H as ([] & wm & H1 & H2). cbn in H1.
    assert (Hroot' : forall q d, (q, d) ∈ l -> q <> tp).
    { intros q' d' Hin'. apply (Hroot q' d'). now right. }
    simpl in Hk. destruct (lastWrite tfs tp dp data l k) as [c'|] eqn:E.
    + injection Hk as <-. now apply (IH wm w' H2 Hroot').
    + destruct d0; [discriminate|].
      destruct (Modules.written tfs tp dp data q0) as [out|] eqn:Eout; [|discriminate].
      destruct (decide (out.1 = k)) as [<-|]; [|discriminate]. injection Hk as <-.
      apply (walk_keeps_file tfs tp dp data out.1 out.2 l wm w' H2).
      * intros q Hq. now apply (Hroot' q false).
      * now apply lastWrite_none.
      * apply walkFn_file_inv in H1 as (out' & d1 & Hout' & _ & _ & ->);
          [|apply (Hroot q0 false); now left].
        rewrite Eout in Hout'. injection Hout' as <-. cbn. now rewrite lookup_insert_eq.
Qed.

Lemma grew_refl k w : grew k w w.
Proof. now left. Qed.

Lemma grew_trans k w1 w2 w3 : grew k w1 w2 -> grew k w2 w3 -> grew k w1 w3.
Proof.
  unfold grew. intros [E12|[N1 D2]] [E23|[N2 D3]].
  - left. congruence.
  - rewrite E12 in N2. now right.
  - right. split; [exact N1 | congruence].
  - congruence.
Qed.

Lemma grew_osMkdirAll k p : respects (grew k) (osMkdirAll p).
Proof.
  intros w. unfold osMkdirAll.
  destruct (liftOs_cases (fun d => Os.MkdirAll d p) w) as [(e & ->)|(d & Hd & ->)];
    [apply grew_refl|].
  unfold grew. cbn. destruct (MkdirAll_changes _ _ _ Hd k) as [->|(Hn & Hd' & _)]; auto.
Qed.

Lemma grew_osWriteFile k p content : p <> k -> respects (grew k) (osWriteFile p content).
Proof.
  intros Hne w. unfold osWriteFile.
  destruct (liftOs_cases (fun d => Os.WriteFile d p content) w) as [(e & ->)|(d & Hd & ->)];
    [apply grew_refl|].
  left. cbn. rewrite (WriteFile_ok _ _ _ _ Hd). now rewrite lookup_insert_ne.
Qed.

Lemma grew_walkFn tfs tp dp data k q d :
  (d = false -> forall out, Modules.written tfs tp dp data q = Ok out -> out.1 <> k) ->
  respects (grew k) (Modules.walkFn tfs tp dp data q d None).
Proof.
  intros Hq w. destruct (decide (q = tp)) as [->|Hne].
  - rewrite walkFn_root. apply grew_refl.
  - destruct d.
    + unfold Modules.walkFn. destruct (decide (q = tp)); [congruence|].
      unfold bind, liftResult. destruct (Filepath.Rel tp q); [|apply grew_refl].
      apply grew_osMkdirAll.
    + rewrite (walkFn_file _ _ _ _ _ _ Hne).
      destruct (Modules.written tfs tp dp data q) as [out|e] eqn:E; [|apply grew_refl].
      apply (respects_bind _ (grew_trans k)); [apply grew_osMkdirAll|].
      intros _. apply grew_osWriteFile. now apply Hq.
Qed.

Lemma walk_grew tfs tp dp data l k w :
  lastWrite tfs tp dp data l k = None ->
  grew k w (forEach l (fun pd => Modules.walkFn tfs tp dp data pd.1 pd.2 None) w).2.
Proof.
  intros Hk. revert w.
  apply (respects_forEach_in (grew k)); [apply grew_refl | apply grew_trans |].
  intros [q d] Hin. apply grew_walkFn. cbn. intros -> out Hout.
  now apply (lastWrite_none _ _ _ _ _ _ Hk q out).
Qed.

Lemma walkList_not_root tp ch q d : (q, d) ∈ Store.walkList tp ch -> q <> tp.
Proof.
  intros Hin. destruct (walkList_below _ _ _ _ Hin) as (rel & Hrel & ->).
  now apply below_not_root.
Qed.

(** X19.  The tree after a successful overlay: every path that is the destination
    of a file of the bundle holds the bytes of the last such file in walk
    order; every other path is as it was, or is a directory the overlay
    created where there was nothing. *)
Theorem overlay_result tfs tp dp data ch w w' :
  Store.open tfs tp = Some (Store.ODir ch) ->
  Modules.ApplyModuleTemplate tfs tp dp data w = (Ok tt, w') ->
  forall k,
    match lastWrite tfs tp dp data (Store.walkList tp ch) k with
    | Some c => disk w' !! k = Some (File c)
    | None => disk w' !! k = disk w !! k \/ (disk w !! k = None /\ disk w' !! k = Some Dir)
    end.
Proof.
  intros Hopen H k. rewrite (ApplyModuleTemplate_dir _ _ _ _ _ _ Hopen) in H.
  destruct (lastWrite tfs tp dp data (Store.walkList tp ch) k) as [c|] eqn:E.
  - apply (walk_last_write _ _ _ _ _ _ _ H (walkList_not_root tp ch) k c E).
  - pose proof (walk_grew tfs tp dp data _ k w E) as G. now rewrite H in G.
Qed.

(** X20.  After a successful overlay every entry of the bundle is in place: each
    directory entry is a directory below the destination, each file entry
    is a file, under a non-empty name, whose parent is a directory. *)
Theorem overlay_materialises tfs tp dp data ch w w' :
  Store.open tfs tp = Some (Store.ODir ch) ->
  Modules.ApplyModuleTemplate tfs tp dp data w = (Ok tt, w') ->
  forall q d, (q, d) ∈ Store.walkList tp ch -> settled tfs tp dp data q d w'.
Proof.
  intros Hopen H. rewrite (ApplyModuleTemplate_dir _ _ _ _ _ _ Hopen) in H.
  apply (walk_settles _ _ _ _ _ _ _ H (walkList_not_root tp ch)).
Qed.

(** ** Applying an overlay again *)

Lemma MkdirAll_present (fs : gmap (list string) fnode) p :
  Os.isDir fs p = true -> Os.MkdirAll fs p = Ok fs.
Proof. intros H. unfold Os.MkdirAll. now rewrite H. Qed.

Lemma osMkdirAll_present p w : Os.isDir (disk w) p = true -> osMkdirAll p w = (Ok tt, w).
Proof.
  intros H. unfold osMkdirAll, liftOs. rewrite (MkdirAll_present _ _ H).
  now rewrite setDisk_id.
Qed.

Lemma step_again_dir tfs tp dp data q w :
  q <> tp -> settled tfs tp dp data q true w ->
  Modules.walkFn tfs tp dp data q true None w = (Ok tt, w).
Proof.
  intros Hne (rel & Hrel & Hd). unfold Modules.walkFn.
  destruct (decide (q = tp)); [congruence|].
  unfold bind, liftResult. rewrite Hrel. now apply osMkdirAll_present.
Qed.

Lemma step_again_file tfs tp dp data q w :
  q <> tp -> settled tfs tp dp data q false w ->
  exists out c, Modules.written tfs tp dp data q = Ok out
    /\ disk w !! out.1 = Some (File c)
    /\ Modules.walkFn tfs tp dp data q false None w
       = (Ok tt, setDisk (<[out.1 := File out.2]> (disk w)) w).
Proof.
  intros Hne (out & Hout & (c & Hc) & Hd & name & Hl & Hn).
  exists out, c. split; [exact Hout|]. split; [exact Hc|].
  rewrite (walkFn_file _ _ _ _ _ _ Hne), Hout. unfold bind.
  rewrite (osMkdirAll_present _ _ Hd). unfold osWriteFile, liftOs.
  rewrite (WriteFile_when _ _ _ name Hl Hn Hd); [reflexivity|]. congruence.
Qed.

Lemma kinds_rewrite w p c content :
  disk w !! p = Some (File c) -> kinds w (setDisk (<[p := File content]> (disk w)) w).
Proof.
  intros Hp k. cbn. destruct (decide (p = k)) as [<-|Hne].
  - rewrite lookup_insert_eq. split; [congruence | eauto].
  - rewrite lookup_insert_ne by exact Hne. split; eauto.
Qed.

Lemma walk_again tfs tp dp data l : forall w,
  (forall q d, (q, d) ∈ l -> q <> tp) ->
  (forall q d, (q, d) ∈ l -> settled tfs tp dp data q d w) ->
  exists w',
    forEach l (fun pd => Modules.walkFn tfs tp dp data pd.1 pd.2 None) w = (Ok tt, w')
    /\ sameButDisk w w'
    /\ forall k, disk w' !! k = match lastWrite tfs tp dp data l k with
                                | Some c => Some (File c)
                                | None => disk w !! k
                                end.
Proof.
  induction l as [|[q0 d0] l IH]; intros w Hroot Hset.
  - exists w. split; [reflexivity|]. split; [apply sameButDisk_refl | reflexivity].
  - assert (Hq0 : q0 <> tp) by (apply (Hroot q0 d0); now left).
    assert (H0 : settled tfs tp dp data q0 d0 w) by (apply Hset; now left).
    assert (Hroot' : forall q d, (q, d) ∈ l -> q <> tp).
    { intros q d Hin. apply (Hroot q d). now right. }
    cbn [forEach]. unfold bind. cbn [fst snd]. destruct d0.
    + rewrite (step_again_dir _ _ _ _ _ _ Hq0 H0).
      destruct (IH w Hroot') as (w' & Hrun & Hsame & Hk).
      { intros q d Hin. apply Hset. now right. }
      exists w'. split; [exact Hrun|]. split; [exact Hsame|].
      intros k. rewrite Hk. cbn [lastWrite].
      now destruct (lastWrite tfs tp dp data l k).
    + destruct (step_again_file _ _ _ _ _ _ Hq0 H0) as (out & c & Hout & Hc & ->).
      set (wm := setDisk (<[out.1 := File out.2]> (disk w)) w).
      destruct (IH wm Hroot') as (w' & Hrun & Hsame & Hk).
      { intros q d Hin. apply (settled_kinds _ _ _ _ _ _ w);
          [now apply (kinds_rewrite w out.1 c) | apply Hset; now right]. }
      exists w'. split; [exact Hrun|]. split.
      { apply (sameButDisk_trans w wm w'); [|exact Hsame]. now destruct w. }
      intros k. rewrite Hk. cbn [lastWrite]. rewrite Hout.
      destruct (lastWrite tfs tp dp data l k); [reflexivity|].
      subst wm. cbn [disk setDisk].
      destruct (decide (out.1 = k)) as [<-|Hne];
        [now rewrite lookup_insert_eq | now rewrite lookup_insert_ne].
Qed.

Lemma world_eq w w' : sameButDisk w w' -> disk w' = disk w -> w' = w.
Proof.
  destruct w, w'. unfold sameButDisk. cbn. intros (H1 & H2 & H3 & H4 & H5) H6.
  now subst.
Qed.

(** X21.  An overlay that succeeded succeeds again on the tree it left, and
    leaves the world exactly as it is. *)
Theorem overlay_idempotent tfs e tp dp data w w1 :
  Modules.ApplyModuleTemplate tfs tp dp data w = (Ok tt, w1) ->
  Modules.ApplyModuleTemplate tfs tp dp data w1 = (Ok tt, w1)
  /\ Engine.applyTemplate tfs e tp dp data w1 = (Ok tt, w1).
Proof.
  intros H. rewrite applyTemplate_same.
  assert (Hgoal : Modules.ApplyModuleTemplate tfs tp dp data w1 = (Ok tt, w1)); [|now split].
  destruct (Store.open tfs tp) as [[c|ch]|] eqn:Hopen.
  - unfold Modules.ApplyModuleTemplate, Fs.WalkDir. rewrite Hopen. apply walkFn_root.
  - pose proof H as Hrun.
    rewrite (ApplyModuleTemplate_dir _ _ _ _ _ _ Hopen) in Hrun.
    rewrite (ApplyModuleTemplate_dir _ _ _ _ _ _ Hopen).
    destruct (walk_again tfs tp dp data (Store.walkList tp ch) w1
                (walkList_not_root tp ch)
                (walk_settles _ _ _ _ _ _ _ Hrun (walkList_not_root tp ch)))
      as (w2 & Hrun2 & Hsame & Hk).
    rewrite Hrun2. f_equal. apply (world_eq _ _ Hsame).
    apply map_eq. intros k. rewrite Hk.
    destruct (lastWrite tfs tp dp data (Store.walkList tp ch) k) as [c|] eqn:E;
      [|reflexivity].
    symmetry. apply (walk_last_write _ _ _ _ _ _ _ Hrun (walkList_not_root tp ch) k c E).
  - rewrite (ApplyModuleTemplate_missing _ _ _ _ _ Hopen) in H. discriminate H.
Qed.

Ltac run_of m :=
  let H1 := fresh in
  assert (H1 : m.1 = Ok tt) by (vm_compute; reflexivity);
  let Hrun := fresh "Hrun" in
  pose proof (ran_to_completion m tt H1) as Hrun; clear H1.

(** X19 the rendered README and a file that is no destination. *)
Lemma overlay_result_witness :
  let w := Sample.world Sample.occupied Sample.toolsOk in
  let w' := (Modules.ApplyModuleTemplate Sample.store ["files"; "base"] ["demo"]
               Sample.data w).2 in
  disk w' !! ["demo"; "README.md"] = Some (File "# demo")
  /\ (disk w' !! ["demo"; "old.txt"] = disk w !! ["demo"; "old.txt"]
      \/ (disk w !! ["demo"; "old.txt"] = None /\ disk w' !! ["demo"; "old.txt"] = Some Dir)).
Proof.
  intros w w'. subst w'.
  run_of (Modules.ApplyModuleTemplate Sample.store ["files"; "base"] ["demo"] Sample.data w).
  set (w' := (Modules.ApplyModuleTemplate Sample.store ["files"; "base"] ["demo"]
                Sample.data w).2) in *.
  clearbody w'. split.
  - pose proof (overlay_result Sample.store ["files"; "base"] ["demo"] Sample.data _ w w'
                  eq_refl Hrun ["demo"; "README.md"]) as H.
    vm_compute in H. exact H.
  - pose proof (overlay_result Sample.store ["files"; "base"] ["demo"] Sample.data _ w w'
                  eq_refl Hrun ["demo"; "old.txt"]) as H.
    vm_compute in H. exact H.
Defined.

(** X20 a directory and a file of the base bundle. *)
Lemma overlay_materialises_witness :
  let w := Sample.world ∅ Sample.toolsOk in
  let w' := (Modules.ApplyModuleTemplate Sample.store ["files"; "base"] ["demo"]
               Sample.data w).2 in
  settled Sample.store ["files"; "base"] ["demo"] Sample.data
    ["files"; "base"; "cmd"] true w'
  /\ settled Sample.store ["files"; "base"] ["demo"] Sample.data
       ["files"; "base"; "cmd"; "main.go"] false w'.
Proof.
  intros w w'. subst w'.
  run_of (Modules.ApplyModuleTemplate Sample.store ["files"; "base"] ["demo"] Sample.data w).
  set (w' := (Modules.ApplyModuleTemplate Sample.store ["files"; "base"] ["demo"]
                Sample.data w).2) in *.
  clearbody w'. split.
  - apply (overlay_materialises Sample.store ["files"; "base"] ["demo"] Sample.data _ w w'
             eq_refl Hrun).
    cbn. right. right. left.
  - apply (overlay_materialises Sample.store ["files"; "base"] ["demo"] Sample.data _ w w'
             eq_refl Hrun).
    cbn. right. right. right. left.
Defined.

(** X21 the base bundle onto an occupied destination. *)
Lemma overlay_idempotent_witness :
  let w := Sample.world Sample.occupied Sample.toolsOk in
  let w1 := (Modules.ApplyModuleTemplate Sample.store ["files"; "base"] ["demo"]
               Sample.data w).2 in
  Modules.ApplyModuleTemplate Sample.store ["files"; "base"] ["demo"] Sample.data w1
  = (Ok tt, w1)
  /\ Engine.applyTemplate Sample.store Engine.NewEngine ["files"; "base"] ["demo"]
       Sample.data w1 = (Ok tt, w1).
Proof.
  intros w w1. subst w1.
  run_of (Modules.ApplyModuleTemplate Sample.store ["files"; "base"] ["demo"] Sample.data w).
  set (w1 := (Modules.ApplyModuleTemplate Sample.store ["files"; "base"] ["demo"]
                Sample.data w).2) in *.
  clearbody w1.
  exact (overlay_idempotent Sample.store Engine.NewEngine ["files"; "base"] ["demo"]
           Sample.data w w1 Hrun).
Defined.

(** ** Modules write last-writer-wins *)

Lemma lastWriter_ret w : lastWriter nothing (ret tt) w.
Proof.
  intros w1 H. injection H as <-.
  split; [reflexivity|]. split; [apply kinds_refl|]. split; [intros k; apply grew_refl|].
  intros w' _ _. exists w'. split; [reflexivity|]. split; [reflexivity|].
  split; [apply kinds_refl | reflexivity].
Qed.

Lemma lastWriter_getCtx T (k : Context -> M unit) w :
  lastWriter T (k (ctxObj w)) w -> lastWriter T (bind getCtx k) w.
Proof.
  intros H w1 Hrun. change (bind getCtx k w) with (k (ctxObj w) w) in Hrun.
  destruct (H w1 Hrun) as (Hc & Hk & Ht & Hagain).
  split; [exact Hc|]. split; [exact Hk|]. split; [exact Ht|].
  intros w' Hc' Hk'. change (bind getCtx k w') with (k (ctxObj w') w').
  destruct (Hagain w' Hc' Hk') as (w'' & Hrun' & Rest).
  exists w''. split; [now rewrite Hc' | exact Rest].
Qed.

Lemma orWrap_ok_iff {A} prefix (m : M A) w a w1 :
  orWrap prefix m w = (Ok a, w1) <-> m w = (Ok a, w1).
Proof.
  unfold orWrap. destruct (m w) as [[x|e] w2]; split; intros H;
    try discriminate H; exact H.
Qed.

Lemma lastWriter_orWrap T prefix (m : M unit) w :
  lastWriter T m w -> lastWriter T (orWrap prefix m) w.
Proof.
  intros H w1 Hrun. apply orWrap_ok_iff in Hrun.
  destruct (H w1 Hrun) as (Hc & Hk & Ht & Hagain).
  split; [exact Hc|]. split; [exact Hk|]. split; [exact Ht|].
  intros w' Hc' Hk'. destruct (Hagain w' Hc' Hk') as (w'' & Hrun' & Rest).
  exists w''. split; [now apply orWrap_ok_iff | exact Rest].
Qed.

Lemma lastWriter_seq T1 T2 (m1 : M unit) (m2 : M unit) w :
  lastWriter T1 m1 w ->
  (forall wm, m1 w = (Ok tt, wm) -> lastWriter T2 m2 wm) ->
  lastWriter (override T2 T1) (m1 ;; m2) w.
Proof.
  intros H1 H2 w1 Hrun. apply bind_inv_ok in Hrun as ([] & wm & Hrun1 & Hrun2).
  destruct (H1 wm Hrun1) as (Hc1 & Hk1 & Ht1 & Hagain1).
  destruct (H2 wm Hrun1 w1 Hrun2) as (Hc2 & Hk2 & Ht2 & Hagain2).
  split; [congruence|]. split; [now apply (kinds_trans w wm)|]. split.
  - intros k. unfold override. specialize (Ht1 k). specialize (Ht2 k).
    destruct (T2 k) as [c2|]; [exact Ht2|].
    destruct (T1 k) as [c1|].
    + destruct Ht2 as [->|[Hn _]]; [exact Ht1 | congruence].
    + now apply (grew_trans k w wm).
  - intros w' Hc' Hk'.
    destruct (Hagain1 w') as (wa & Hrun1' & Hca & Hka & Hda);
      [exact Hc' | now apply (kinds_trans wm w1) |].
    destruct (Hagain2 wa) as (wb & Hrun2' & Hcb & Hkb & Hdb);
      [congruence | now apply (kinds_trans w1 w') |].
    exists wb. split; [unfold bind; now rewrite Hrun1'|].
    split; [congruence|]. split; [now apply (kinds_trans w' wa)|].
    intros k. rewrite Hdb, Hda. unfold override. now destruct (T2 k).
Qed.

Lemma lastWriter_overlay tfs tp dp data w :
  lastWriter (bundleWrites tfs tp dp data) (Modules.ApplyModuleTemplate tfs tp dp data) w.
Proof.
  intros w1 Hrun.
  destruct (diskOnly_ApplyModuleTemplate tfs tp dp data w) as (_ & _ & _ & Hc & _).
  pose proof (kinds_ApplyModuleTemplate tfs tp dp data w) as Hk.
  rewrite Hrun in Hc, Hk. cbn in Hc, Hk.
  split; [exact Hc|]. split; [exact Hk|].
  unfold bundleWrites. destruct (Store.open tfs tp) as [[c|ch]|] eqn:Hopen.
  - assert (Hnop : forall w', Modules.ApplyModuleTemplate tfs tp dp data w' = (Ok tt, w')).
    { intros w'. unfold Modules.ApplyModuleTemplate, Fs.WalkDir. rewrite Hopen.
      apply walkFn_root. }
    rewrite Hnop in Hrun. injection Hrun as <-.
    split; [intros k; apply grew_refl|].
    intros w' _ _. exists w'. split; [apply Hnop|]. split; [reflexivity|].
    split; [apply kinds_refl | reflexivity].
  - pose proof Hrun as Hwalk. rewrite (ApplyModuleTemplate_dir _ _ _ _ _ _ Hopen) in Hwalk.
    split.
    + intros k. destruct (lastWrite tfs tp dp data (Store.walkList tp ch) k) as [c|] eqn:E.
      * apply (walk_last_write _ _ _ _ _ _ _ Hwalk (walkList_not_root tp ch) k c E).
      * pose proof (walk_grew tfs tp dp data _ k w E) as G. now rewrite Hwalk in G.
    + intros w' Hc' Hk'.
      destruct (walk_again tfs tp dp data (Store.walkList tp ch) w' (walkList_not_root tp ch))
        as (w'' & Hrun' & Hsame & Hd).
      { intros q d Hin. apply (settled_kinds _ _ _ _ _ _ w1 w' Hk').
        apply (walk_settles _ _ _ _ _ _ _ Hwalk (walkList_not_root tp ch) q d Hin). }
      exists w''. rewrite (ApplyModuleTemplate_dir _ _ _ _ _ _ Hopen).
      split; [exact Hrun'|]. split; [apply Hsame|]. split; [|exact Hd].
      pose proof (kinds_walk tfs tp dp data (Store.walkList tp ch) w') as K.
      now rewrite Hrun' in K.
  - rewrite (ApplyModuleTemplate_missing _ _ _ _ _ Hopen) in Hrun. discriminate Hrun.
Qed.

Lemma kinds_modWriteFile p content : respects kinds (Modules.WriteFile p content).
Proof. unfold Modules.WriteFile. same_kinds. Qed.

Lemma grew_modWriteFile k p content : p <> k -> respects (grew k) (Modules.WriteFile p content).
Proof.
  intros Hne. unfold Modules.WriteFile.
  apply (respects_bind _ (grew_trans k)); [apply grew_osMkdirAll|].
  intros _. now apply grew_osWriteFile.
Qed.

Lemma lastWriter_WriteFile p content w :
  lastWriter (only p content) (Modules.WriteFile p content) w.
Proof.
  intros w1 Hrun.
  destruct (diskOnly_modWriteFile p content w) as (_ & _ & _ & Hc & _).
  pose proof (kinds_modWriteFile p content w) as Hk.
  rewrite Hrun in Hc, Hk. cbn in Hc, Hk.
  split; [exact Hc|]. split; [exact Hk|].
  pose proof Hrun as Hinv. apply modWriteFile_inv in Hinv as (d1 & Hd1 & Hw & E).
  assert (Hp : disk w1 !! p = Some (File content)).
  { rewrite E. cbn. now rewrite lookup_insert_eq. }
  assert (Hdir : Os.isDir (disk w1) (Filepath.Dir p) = true).
  { destruct (WriteFile_named _ _ _ _ Hw) as [Hne _].
    pose proof (MkdirAll_isDir _ _ _ Hd1) as Hd. apply removelast_neq in Hne.
    rewrite E. unfold Filepath.Dir, Os.isDir in *. cbn [disk setDisk].
    destruct (removelast p) as [|x r]; [reflexivity|].
    now rewrite lookup_insert_ne by congruence. }
  destruct (WriteFile_name _ _ _ _ Hw) as (name & Hl & Hn).
  split.
  - intros k. unfold only. destruct (decide (k = p)) as [->|Hne]; [exact Hp|].
    pose proof (grew_modWriteFile k p content (not_eq_sym Hne) w) as G.
    now rewrite Hrun in G.
  - intros w' Hc' Hk'.
    exists (setDisk (<[p := File content]> (disk w')) w').
    destruct (proj2 (Hk' p) _ Hp) as [c' Hp'].
    split.
    { unfold Modules.WriteFile, bind.
      rewrite (osMkdirAll_present _ _ (isDir_kinds _ _ _ Hk' Hdir)).
      unfold osWriteFile, liftOs.
      rewrite (WriteFile_when _ _ _ name Hl Hn (isDir_kinds _ _ _ Hk' Hdir)); [reflexivity|].
      congruence. }
    split; [now destruct w'|]. split; [now apply (kinds_rewrite w' p c')|].
    intros k. cbn [disk setDisk]. unfold only.
    destruct (decide (k = p)) as [->|Hne];
      [now rewrite lookup_insert_eq | now rewrite lookup_insert_ne].
Qed.

Lemma lastWriter_body tfs m w :
  lastWriter (moduleWrites tfs m (ctxObj w))
    (match m with
     | Modules.PostgresModule => Modules.PostgresModule_Apply tfs
     | Modules.MongoModule => Modules.MongoModule_Apply tfs
     | Modules.OpenAPIGenModule => Modules.OpenAPIGenModule_Apply tfs
     | Modules.OpenAPIManualModule => Modules.OpenAPIManualModule_Apply tfs
     | Modules.DockerModule => Modules.DockerModule_Apply tfs
     end) w.
Proof.
  assert (Hctx : forall wm pre tp,
            orWrap pre (Modules.ApplyModuleTemplate tfs tp (ProjectPath (ctxObj w))
                          (TemplateData (ctxObj w))) w = (Ok tt, wm) ->
            ctxObj wm = ctxObj w).
  { intros wm pre tp H. apply orWrap_ok_iff in H.
    destruct (diskOnly_ApplyModuleTemplate tfs tp (ProjectPath (ctxObj w))
                (TemplateData (ctxObj w)) w) as (_ & _ & _ & Hc & _).
    now rewrite H in Hc. }
  destruct m; unfold moduleWrites, moduleExtras; cbn [bundleOf].
  - unfold Modules.PostgresModule_Apply. cbv zeta. apply lastWriter_getCtx.
    apply lastWriter_seq; [apply lastWriter_orWrap, lastWriter_overlay|].
    intros wm Hm. apply lastWriter_getCtx. rewrite (Hctx _ _ _ Hm).
    destruct (decide (Migrations (Options (ctxObj w)) = "goose")); [|apply lastWriter_ret].
    apply lastWriter_getCtx. rewrite (Hctx _ _ _ Hm).
    apply lastWriter_seq; [apply lastWriter_WriteFile|].
    intros wn _. apply lastWriter_WriteFile.
  - unfold Modules.MongoModule_Apply. cbv zeta. apply lastWriter_getCtx.
    apply lastWriter_orWrap. apply lastWriter_overlay.
  - unfold Modules.OpenAPIGenModule_Apply. cbv zeta. apply lastWriter_getCtx.
    apply lastWriter_seq; [apply lastWriter_orWrap, lastWriter_overlay|].
    intros wm Hm. apply lastWriter_getCtx. rewrite (Hctx _ _ _ Hm).
    assert (Hspec : lastWriter
              (if decide (SpecPath (Options (ctxObj w)) = "") then nothing
               else only (Filepath.Join (ProjectPath (ctxObj w)) ["api"; "openapi.yaml"])
                      (Modules.specContent (ProjectName (Options (ctxObj w)))))
              (if decide (SpecPath (Options (ctxObj w)) = "") then ret tt
               else let* ctx := getCtx in
                    Modules.WriteFile (Filepath.Join (ProjectPath ctx) ["api"; "openapi.yaml"])
                      (Modules.specContent (ProjectName (Options ctx)))) wm).
    { destruct (decide (SpecPath (Options (ctxObj w)) = "")); [apply lastWriter_ret|].
      apply lastWriter_getCtx. rewrite (Hctx _ _ _ Hm). apply lastWriter_WriteFile. }
    apply lastWriter_seq; [exact Hspec|].
    intros wn Hn. apply lastWriter_getCtx.
    destruct (Hspec wn Hn) as (Hcn & _). rewrite Hcn, (Hctx _ _ _ Hm).
    apply lastWriter_WriteFile.
  - unfold Modules.OpenAPIManualModule_Apply. cbv zeta. apply lastWriter_getCtx.
    apply lastWriter_orWrap. apply lastWriter_overlay.
  - unfold Modules.DockerModule_Apply. cbv zeta. apply lastWriter_getCtx.
    apply lastWriter_orWrap. apply lastWriter_overlay.
Qed.

Lemma lastWriter_Apply tfs m w :
  lastWriter (moduleWrites tfs m (ctxObj w)) (Modules.Apply tfs m) w.
Proof.
  pose proof (lastWriter_body tfs m (observe w).2) as H.
  intros w1 Hrun. destruct (H w1 Hrun) as (Hc & Hk & Ht & Hagain).
  split; [exact Hc|]. split; [exact Hk|]. split; [exact Ht|].
  intros w' Hc' Hk'. destruct (Hagain (observe w').2 Hc' Hk') as (w'' & Hrun' & Hc'' & Hk'' & Hd).
  exists w''. split; [exact Hrun'|]. split; [exact Hc''|]. split; [exact Hk'' | exact Hd].
Qed.

Lemma ReadFile_file (fs : gmap (list string) fnode) p c :
  fs !! p = Some (File c) -> p <> [] -> Os.ReadFile fs p = Ok c.
Proof.
  intros H Hp. unfold Os.ReadFile. destruct p; [congruence|]. now rewrite H.
Qed.

(** X22.  The tree after a successful [Apply] of a module: a path the module
    writes (its bundle's files, then the files its [Apply] adds, the later
    write winning) holds those bytes; every other path is as it was, or is
    a directory created where there was nothing. *)
Theorem module_result tfs m w w1 :
  Modules.Apply tfs m w = (Ok tt, w1) ->
  forall k,
    match moduleWrites tfs m (ctxObj w) k with
    | Some c => disk w1 !! k = Some (File c)
    | None => disk w1 !! k = disk w !! k \/ (disk w !! k = None /\ disk w1 !! k = Some Dir)
    end.
Proof.
  intros Hrun. destruct (lastWriter_Apply tfs m w w1 Hrun) as (_ & _ & Ht & _). exact Ht.
Qed.

(** X23.  A module whose [Apply] succeeded can be applied again: the second
    [Apply] succeeds and leaves the tree and the context as they are. *)
Theorem module_idempotent tfs m w w1 :
  Modules.Apply tfs m w = (Ok tt, w1) ->
  exists w2, Modules.Apply tfs m w1 = (Ok tt, w2)
             /\ disk w2 = disk w1 /\ ctxObj w2 = ctxObj w1.
Proof.
  intros Hrun. destruct (lastWriter_Apply tfs m w w1 Hrun) as (Hc & _ & Ht & Hagain).
  destruct (Hagain w1 Hc (kinds_refl w1)) as (w2 & Hrun2 & Hc2 & _ & Hd).
  exists w2. split; [exact Hrun2|]. split; [|exact Hc2].
  apply map_eq. intros k. rewrite Hd. specialize (Ht k).
  destruct (moduleWrites tfs m (ctxObj w) k); [now symmetry | reflexivity].
Qed.

(** X24.  After a successful [Apply] of the postgres module with the migration
    tool goose, [migrations/.gitkeep] is an empty file and
    [migrations/00001_initial.sql] holds the initial migration, whatever the
    bundle put there; with any other migration tool the module writes its
    bundle and nothing else. *)
Theorem PostgresModule_migrations tfs w w1 :
  let c := ctxObj w in
  let keep := ProjectPath c ++ ["migrations"; ".gitkeep"] in
  let initial := ProjectPath c ++ ["migrations"; "00001_initial.sql"] in
  Modules.Apply tfs Modules.PostgresModule w = (Ok tt, w1) ->
  (Migrations (Options c) = "goose" ->
     Os.ReadFile (disk w1) keep = Ok ""
     /\ Os.ReadFile (disk w1) initial = Ok Modules.migration)
  /\ (Migrations (Options c) <> "goose" ->
      forall k, bundleWrites tfs ["files"; "db"; "postgres"] (ProjectPath c) (TemplateData c) k
                = None ->
        disk w1 !! k = disk w !! k \/ (disk w !! k = None /\ disk w1 !! k = Some Dir)).
Proof.
  intros c keep initial Hrun.
  destruct (lastWriter_Apply tfs _ w w1 Hrun) as (_ & _ & Ht & _). fold c in Ht.
  unfold moduleWrites, moduleExtras, override, Filepath.Join in Ht. cbn [bundleOf] in Ht.
  rewrite <- !app_assoc in Ht. cbn [app] in Ht. fold keep initial in Ht.
  split.
  - intros Hg. destruct (decide (Migrations (Options c) = "goose")); [|congruence].
    assert (Hne : keep <> initial).
    { unfold keep, initial. intros E. apply app_inv_head in E. discriminate E. }
    split.
    + specialize (Ht keep). unfold only in Ht.
      destruct (decide (keep = initial)); [congruence|].
      destruct (decide (keep = keep)); [|congruence].
      apply (ReadFile_file _ _ _ Ht). unfold keep. now destruct (ProjectPath c).
    + specialize (Ht initial). unfold only in Ht.
      destruct (decide (initial = initial)); [|congruence].
      apply (ReadFile_file _ _ _ Ht). unfold initial. now destruct (ProjectPath c).
  - intros Hg k Hk. destruct (decide (Migrations (Options c) = "goose")); [congruence|].
    specialize (Ht k). unfold nothing in Ht. now rewrite Hk in Ht.
Qed.

(** X25.  After a successful [Apply] of the openapi gen module the project's
    [Makefile] holds the two generation targets, whatever the bundle put
    there.  When a spec path is set, [api/openapi.yaml] holds the sample
    specification titled with the project name (the file the spec path
    names is never read); when it is empty, nothing is written besides the
    bundle and the Makefile. *)
Theorem OpenAPIGenModule_files tfs w w1 :
  let c := ctxObj w in
  let makefile := ProjectPath c ++ ["Makefile"] in
  let spec := ProjectPath c ++ ["api"; "openapi.yaml"] in
  Modules.Apply tfs Modules.OpenAPIGenModule w = (Ok tt, w1) ->
  Os.ReadFile (disk w1) makefile = Ok Modules.makefileContent
  /\ (SpecPath (Options c) <> "" ->
      Os.ReadFile (disk w1) spec = Ok (Modules.specContent (ProjectName (Options c))))
  /\ (SpecPath (Options c) = "" ->
      forall k, k <> makefile ->
        bundleWrites tfs ["files"; "openapi"; "gen"] (ProjectPath c) (TemplateData c) k = None ->
        disk w1 !! k = disk w !! k \/ (disk w !! k = None /\ disk w1 !! k = Some Dir)).
Proof.
  intros c makefile spec Hrun.
  destruct (lastWriter_Apply tfs _ w w1 Hrun) as (_ & _ & Ht & _). fold c in Ht.
  unfold moduleWrites, moduleExtras, override, Filepath.Join in Ht. cbn [bundleOf] in Ht.
  fold makefile spec in Ht.
  split; [|split].
  - specialize (Ht makefile). unfold only in Ht at 1.
    destruct (decide (makefile = makefile)); [|congruence].
    apply (ReadFile_file _ _ _ Ht). unfold makefile. now destruct (ProjectPath c).
  - intros Hs. specialize (Ht spec). unfold only in Ht at 1.
    assert (Hne : spec <> makefile).
    { unfold spec, makefile. intros E. apply app_inv_head in E. discriminate E. }
    destruct (decide (spec = makefile)); [congruence|].
    destruct (decide (SpecPath (Options c) = "")); [congruence|].
    unfold only in Ht. destruct (decide (spec = spec)); [|congruence].
    apply (ReadFile_file _ _ _ Ht). unfold spec. now destruct (ProjectPath c).
  - intros Hs k Hk Hb. specialize (Ht k). unfold only in Ht at 1.
    destruct (decide (k = makefile)); [congruence|].
    destruct (decide (SpecPath (Options c) = "")); [|congruence].
    unfold nothing in Ht. now rewrite Hb in Ht.
Qed.


(** X22 the docker module. *)
Lemma module_result_witness :
  let w1 := (Modules.Apply More.store Modules.DockerModule More.prepared).2 in
  disk w1 !! ["demo"; "Dockerfile"] = Some (File "FROM golang").
Proof.
  intros w1. subst w1.
  assert (H1 : (Modules.Apply More.store Modules.DockerModule More.prepared).1 = Ok tt)
    by (vm_compute; reflexivity).
  pose proof (ran_to_completion _ _ H1) as Hrun. clear H1.
  set (w1 := (Modules.Apply More.store Modules.DockerModule More.prepared).2) in *.
  clearbody w1.
  pose proof (module_result More.store Modules.DockerModule More.prepared w1 Hrun
                ["demo"; "Dockerfile"]) as H.
  vm_compute in H. exact H.
Defined.

(** X23 the postgres module with goose migrations. *)
Lemma module_idempotent_witness :
  let w1 := (Modules.Apply More.store Modules.PostgresModule More.prepared).2 in
  exists w2, Modules.Apply More.store Modules.PostgresModule w1 = (Ok tt, w2)
             /\ disk w2 = disk w1 /\ ctxObj w2 = ctxObj w1.
Proof.
  intros w1. subst w1.
  assert (H1 : (Modules.Apply More.store Modules.PostgresModule More.prepared).1 = Ok tt)
    by (vm_compute; reflexivity).
  pose proof (ran_to_completion _ _ H1) as Hrun. clear H1.
  set (w1 := (Modules.Apply More.store Modules.PostgresModule More.prepared).2) in *.
  clearbody w1.
  exact (module_idempotent More.store Modules.PostgresModule More.prepared w1 Hrun).
Defined.

(** X24 with goose selected. *)
Lemma PostgresModule_migrations_witness :
  let w1 := (Modules.Apply More.store Modules.PostgresModule More.prepared).2 in
  Os.ReadFile (disk w1) ["demo"; "migrations"; ".gitkeep"] = Ok ""
  /\ Os.ReadFile (disk w1) ["demo"; "migrations"; "00001_initial.sql"] = Ok Modules.migration.
Proof.
  intros w1. subst w1.
  assert (H1 : (Modules.Apply More.store Modules.PostgresModule More.prepared).1 = Ok tt)
    by (vm_compute; reflexivity).
  pose proof (ran_to_completion _ _ H1) as Hrun. clear H1.
  set (w1 := (Modules.Apply More.store Modules.PostgresModule More.prepared).2) in *.
  clearbody w1.
  destruct (PostgresModule_migrations More.store More.prepared w1 Hrun) as [H _].
  exact (H eq_refl).
Defined.

(** X25 with a spec path set. *)
Lemma OpenAPIGenModule_files_witness :
  let w1 := (Modules.Apply More.store Modules.OpenAPIGenModule More.prepared).2 in
  Os.ReadFile (disk w1) ["demo"; "Makefile"] = Ok Modules.makefileContent
  /\ Os.ReadFile (disk w1) ["demo"; "api"; "openapi.yaml"] = Ok (Modules.specContent "demo").
Proof.
  intros w1. subst w1.
  assert (H1 : (Modules.Apply More.store Modules.OpenAPIGenModule More.prepared).1 = Ok tt)
    by (vm_compute; reflexivity).
  pose proof (ran_to_completion _ _ H1) as Hrun. clear H1.
  set (w1 := (Modules.Apply More.store Modules.OpenAPIGenModule More.prepared).2) in *.
  clearbody w1.
  destruct (OpenAPIGenModule_files More.store More.prepared w1 Hrun) as (H1 & H2 & _).
  split; [exact H1|]. apply H2. discriminate.
Defined.

(** ** [CopyFile] *)

Lemma CopyFile_inv src dst w w' :
  Engine.CopyFile src dst w = (Ok tt, w') ->
  exists d1 content,
    Os.Stat (disk w) src = true
    /\ Os.MkdirAll (disk w) (Filepath.Dir dst) = Ok d1
    /\ Os.WriteFile d1 dst "" = Ok (<[dst := File ""]> d1)
    /\ Os.ReadFile (<[dst := File ""]> d1) src = Ok content
    /\ w' = setDisk (<[dst := File content]> (<[dst := File ""]> d1)) w.
Proof.
  unfold Engine.CopyFile. intros H.
  apply bind_inv_ok in H as ([] & w1 & H1 & H).
  unfold Engine.osOpen in H1. destruct (Os.Stat (disk w) src) eqn:Es; [|discriminate].
  injection H1 as <-.
  apply bind_inv_ok in H as ([] & w2 & H2 & H).
  unfold osMkdirAll in H2. apply liftOs_ok in H2 as (d1 & Hd1 & ->).
  apply bind_inv_ok in H as ([] & w3 & H3 & H).
  unfold Engine.osCreate, osWriteFile in H3. apply liftOs_ok in H3 as (d2 & Hd2 & ->).
  cbn in Hd2. pose proof (WriteFile_ok _ _ _ _ Hd2) as ->.
  unfold Engine.ioCopy in H. cbn [disk setDisk] in H.
  destruct (Os.isDir (<[dst := File ""]> d1) src); [discriminate|].
  destruct (Os.ReadFile (<[dst := File ""]> d1) src) as [content|] eqn:Er; [|discriminate].
  injection H as <-. exists d1, content. repeat (split; [assumption || reflexivity|]).
  now destruct w.
Qed.

Lemma ReadFile_inv (fs : gmap (list string) fnode) p c :
  Os.ReadFile fs p = Ok c -> fs !! p = Some (File c) /\ p <> [].
Proof.
  unfold Os.ReadFile. destruct p; [discriminate|].
  destruct (fs !! (s :: p)) as [[|c']|]; try discriminate.
  intros H. injection H as <-. split; [reflexivity | discriminate].
Qed.

(** X26.  After a successful [CopyFile] to another path the destination holds
    what the source held, the source still holds it, every other node is
    still there and nothing but the tree has changed. *)
Theorem CopyFile_copies src dst w w' :
  src <> dst ->
  Engine.CopyFile src dst w = (Ok tt, w') ->
  exists content,
    Os.ReadFile (disk w) src = Ok content
    /\ Os.ReadFile (disk w') dst = Ok content
    /\ Os.ReadFile (disk w') src = Ok content
    /\ (forall k v, k <> dst -> disk w !! k = Some v -> disk w' !! k = Some v)
    /\ sameButDisk w w'.
Proof.
  intros Hne H. apply CopyFile_inv in H as (d1 & content & Hs & Hd1 & Hw & Hr & ->).
  apply ReadFile_inv in Hr as [Hr Hsrc]. rewrite lookup_insert_ne in Hr by congruence.
  destruct (WriteFile_named _ _ _ _ Hw) as [Hdst _].
  exists content. cbn [disk setDisk].
  assert (Hsrc0 : disk w !! src = Some (File content)).
  { destruct (MkdirAll_changes _ _ _ Hd1 src) as [E|(_ & E & _)]; congruence. }
  split; [now apply ReadFile_file|].
  split; [apply ReadFile_file; [now rewrite lookup_insert_eq | exact Hdst]|].
  split; [apply ReadFile_file; [now rewrite !lookup_insert_ne by congruence | exact Hsrc]|].
  split; [|now destruct w].
  intros k v Hk Hv. rewrite !lookup_insert_ne by congruence.
  now apply (MkdirAll_mono _ _ _ Hd1).
Qed.

(** X27.  A [CopyFile] of a path onto itself that succeeds leaves the file empty:
    the destination is truncated before the source is read. *)
Theorem CopyFile_onto_itself p w w' :
  Engine.CopyFile p p w = (Ok tt, w') ->
  Os.ReadFile (disk w') p = Ok ""
  /\ forall k v, k <> p -> disk w !! k = Some v -> disk w' !! k = Some v.
Proof.
  intros H. apply CopyFile_inv in H as (d1 & content & Hs & Hd1 & Hw & Hr & ->).
  apply ReadFile_inv in Hr as [Hr Hp]. rewrite lookup_insert_eq in Hr.
  injection Hr as <-. cbn [disk setDisk]. split.
  - apply ReadFile_file; [now rewrite lookup_insert_eq | exact Hp].
  - intros k v Hk Hv. rewrite !lookup_insert_ne by congruence.
    now apply (MkdirAll_mono _ _ _ Hd1).
Qed.

Lemma underFile_none (fs : gmap (list string) fnode) todo : forall at_,
  (forall q c, q `prefix_of` at_ ++ todo -> fs !! q <> Some (File c)) ->
  Os.underFile fs at_ todo = false.
Proof.
  induction todo as [|x rest IH]; intros at_ H; [reflexivity|].
  cbn [Os.underFile]. destruct rest as [|y rest]; [reflexivity|].
  destruct (fs !! (at_ ++ [x])) as [[|c]|] eqn:E; [| |reflexivity].
  - apply IH. intros q c Hq. apply H. now rewrite <- app_assoc in Hq.
  - exfalso. apply (H (at_ ++ [x]) c); [|exact E].
    apply prefix_app, prefix_cons, prefix_nil.
Qed.

Lemma underFile_file (fs : gmap (list string) fnode) q : forall at_ rest c,
  rest <> [] -> q <> [] -> fs !! (at_ ++ q) = Some (File c) ->
  (forall q', q' `prefix_of` q -> q' <> q -> q' <> [] -> fs !! (at_ ++ q') = Some Dir) ->
  Os.underFile fs at_ (q ++ rest) = true.
Proof.
  induction q as [|x q IH]; intros at_ rest c Hrest Hq Hfile Hdirs; [congruence|].
  cbn [Os.underFile app].
  destruct (q ++ rest) as [|y tl] eqn:E.
  { apply app_eq_nil in E as [_ ->]. congruence. }
  rewrite <- E. clear y tl E.
  destruct q as [|x' q].
  - rewrite Hfile. now destruct rest.
  - rewrite (Hdirs [x]); [| apply prefix_cons, prefix_nil | discriminate | discriminate].
    assert (Hnext : Os.underFile fs (at_ ++ [x]) ((x' :: q) ++ rest) = true).
    { apply (IH (at_ ++ [x]) rest c Hrest); [discriminate | now rewrite <- app_assoc |].
      intros q' Hpre Hne Hnil. rewrite <- app_assoc. apply Hdirs.
      - now apply prefix_cons.
      - cbn [app]. congruence.
      - discriminate. }
    cbn [app] in Hnext |- *. exact Hnext.
Qed.

(** X28.  [CopyFile] from a path that does not exist fails on opening it and
    changes nothing: with "not a directory" when the way to the path goes
    through a regular file, with "no such file or directory" when no
    regular file is on the way.  From a directory it never succeeds; when
    the destination could be created, the copy itself fails, with the error
    of [copy_file_range] on the file written to, and leaves an empty file
    at the destination. *)
Theorem CopyFile_bad_source src dst w :
  (Os.Stat (disk w) src = false ->
     ((forall q c, q `prefix_of` src -> disk w !! q <> Some (File c)) ->
        Engine.CopyFile src dst w
        = (Err ("open " +:+ pathString src +:+ ": no such file or directory"), w))
     /\ (forall q rest c, src = q ++ rest -> q <> [] -> rest <> [] ->
           disk w !! q = Some (File c) ->
           (forall q', q' `prefix_of` q -> q' <> q -> Os.isDir (disk w) q' = true) ->
           Engine.CopyFile src dst w
           = (Err ("open " +:+ pathString src +:+ ": not a directory"), w)))
  /\ (Os.isDir (disk w) src = true ->
      (forall w', Engine.CopyFile src dst w <> (Ok tt, w'))
      /\ (src <> dst ->
          Os.isDir (disk w) (Filepath.Dir dst) = true ->
          forall d, Os.WriteFile (disk w) dst "" = Ok d ->
            Engine.CopyFile src dst w
            = (Err ("write " +:+ pathString dst +:+ ": copy_file_range: is a directory"),
               setDisk d w)
            /\ Os.ReadFile d dst = Ok "")).
Proof.
  split; [intros Hs; split|intros Hdir; split].
  - intros Hnone. unfold Engine.CopyFile, bind, Engine.osOpen, Os.openError.
    rewrite Hs. now rewrite (underFile_none _ src [] Hnone).
  - intros q rest c -> Hq Hrest Hfile Hdirs.
    unfold Engine.CopyFile, bind, Engine.osOpen, Os.openError. rewrite Hs.
    rewrite (underFile_file _ q [] rest c Hrest Hq); [reflexivity | exact Hfile |].
    + intros q' Hpre Hne Hnil. pose proof (Hdirs q' Hpre Hne) as Hd.
      unfold Os.isDir in Hd. destruct q' as [|x q']; [congruence|].
      cbn [app]. now destruct (disk w !! (x :: q')) as [[|?]|].
  - intros w' H. apply CopyFile_inv in H as (d1 & content & Hs & Hd1 & Hw & Hr & _).
    apply ReadFile_inv in Hr as [Hr Hsrc].
    assert (Hdir1 : d1 !! src = Some Dir).
    { apply (MkdirAll_mono _ _ _ Hd1). unfold Os.isDir in Hdir.
      destruct src as [|x src]; [congruence|].
      now destruct (disk w !! (x :: src)) as [[|?]|]. }
    destruct (decide (dst = src)) as [->|Hne].
    + now apply (WriteFile_not_dir _ _ _ _ Hw).
    + rewrite lookup_insert_ne in Hr by exact Hne. congruence.
  - intros Hne Hparent d Hd.
    pose proof (WriteFile_ok _ _ _ _ Hd) as ->.
    destruct (WriteFile_named _ _ _ _ Hd) as [Hdst _].
    split; [|apply ReadFile_file; [now rewrite lookup_insert_eq | exact Hdst]].
    unfold Engine.CopyFile, bind, Engine.osOpen.
    assert (Hs : Os.Stat (disk w) src = true).
    { unfold Os.Stat, Os.isDir in *. destruct src as [|x src]; [reflexivity|].
      now destruct (disk w !! (x :: src)) as [[|?]|]. }
    rewrite Hs. rewrite (osMkdirAll_present _ _ Hparent).
    unfold Engine.osCreate, osWriteFile, liftOs. rewrite Hd.
    unfold Engine.ioCopy. cbn [disk setDisk].
    assert (Hdir' : Os.isDir (<[dst := File ""]> (disk w)) src = true).
    { unfold Os.isDir in *. destruct src as [|x src]; [reflexivity|].
      now rewrite lookup_insert_ne by congruence. }
    now rewrite Hdir'.
Qed.

(** X26 into a directory that does not exist yet. *)
Lemma CopyFile_copies_witness :
  let w := Sample.world More.shared Sample.toolsOk in
  let w' := (Engine.CopyFile ["other"; "notes.txt"] ["demo"; "docs"; "notes.txt"] w).2 in
  exists content,
    Os.ReadFile (disk w) ["other"; "notes.txt"] = Ok content
    /\ Os.ReadFile (disk w') ["demo"; "docs"; "notes.txt"] = Ok content
    /\ Os.ReadFile (disk w') ["other"; "notes.txt"] = Ok content
    /\ (forall k v, k <> ["demo"; "docs"; "notes.txt"] ->
          disk w !! k = Some v -> disk w' !! k = Some v)
    /\ sameButDisk w w'.
Proof.
  intros w w'.
  apply (CopyFile_copies ["other"; "notes.txt"] ["demo"; "docs"; "notes.txt"] w w').
  - discriminate.
  - apply ran_to_completion. vm_compute. reflexivity.
Defined.

(** X27 a file that held text. *)
Lemma CopyFile_onto_itself_witness :
  let w := Sample.world More.shared Sample.toolsOk in
  Os.ReadFile (disk w) ["other"; "notes.txt"] = Ok "keep"
  /\ Os.ReadFile (disk (Engine.CopyFile ["other"; "notes.txt"] ["other"; "notes.txt"] w).2)
       ["other"; "notes.txt"] = Ok "".
Proof.
  intros w. split; [reflexivity|].
  apply (CopyFile_onto_itself ["other"; "notes.txt"] w).
  apply ran_to_completion. vm_compute. reflexivity.
Defined.

(** X28 a missing source, a source below a regular file, and a directory
    as the source. *)
Lemma CopyFile_bad_source_witness :
  let w := Sample.world More.shared Sample.toolsOk in
  Engine.CopyFile ["missing.txt"] ["demo"; "copy.txt"] w
  = (Err "open missing.txt: no such file or directory", w)
  /\ Engine.CopyFile ["other"; "notes.txt"; "x"] ["demo"; "copy.txt"] w
     = (Err "open other/notes.txt/x: not a directory", w)
  /\ (Engine.CopyFile ["other"] ["demo"; "copy"] w).1
     = Err "write demo/copy: copy_file_range: is a directory"
  /\ Os.ReadFile (disk (Engine.CopyFile ["other"] ["demo"; "copy"] w).2) ["demo"; "copy"]
     = Ok "".
Proof.
  intros w. split; [|split].
  - destruct (CopyFile_bad_source ["missing.txt"] ["demo"; "copy.txt"] w) as [H _].
    destruct (H eq_refl) as [H' _]. apply H'.
    intros q c [x Hx]. destruct q as [|a [|b q]]; [discriminate | | discriminate Hx].
    injection Hx as <- _. discriminate.
  - destruct (CopyFile_bad_source ["other"; "notes.txt"; "x"] ["demo"; "copy.txt"] w) as [H _].
    destruct (H eq_refl) as [_ H'].
    apply (H' ["other"; "notes.txt"] ["x"] "keep" eq_refl);
      [discriminate | discriminate | reflexivity |].
    intros q' [x Hx] Hne. destruct q' as [|a [|b [|c q']]]; [reflexivity | | | ].
    + injection Hx as <- _. reflexivity.
    + injection Hx as <- <- _. congruence.
    + destruct q'; discriminate Hx.
  - destruct (CopyFile_bad_source ["other"] ["demo"; "copy"] w) as [_ H].
    destruct (H eq_refl) as [_ H'].
    destruct (H' ltac:(discriminate) eq_refl
                (<[ ["demo"; "copy"] := File "" ]> (disk w)) eq_refl) as [Hrun Hread].
    rewrite Hrun. split; [reflexivity | exact Hread].
Defined.

(** ** Rendering *)

(** X29.  Both renderers return a text without a left brace as it is, and render
    a field action between two such texts as the first text, the value of
    the key as it prints (the no-value text for a missing key, true or false
    for a boolean), and the second text. *)
Theorem render_interpolation e pre key post (data : gmap string Template.Value) :
  Strings.noByte "{" pre = true -> Template.isIdent key = true ->
  Strings.noByte "{" post = true ->
  Modules.renderTemplate pre data = Ok pre
  /\ Engine.renderTemplate e pre data = Ok pre
  /\ Modules.renderTemplate (pre +:+ "{{." +:+ key +:+ "}}" +:+ post) data
     = Ok (pre +:+ Template.printValue (data !! key) +:+ post)
  /\ Engine.renderTemplate e (pre +:+ "{{." +:+ key +:+ "}}" +:+ post) data
     = Ok (pre +:+ Template.printValue (data !! key) +:+ post).
Proof.
  intros Hpre Hk Hpost. rewrite !render_same.
  pose proof (render_plain pre data Hpre) as Hplain.
  pose proof (render_field pre key post data Hpre Hk Hpost) as Hfield.
  repeat split; assumption.
Qed.

(** X29 on a heading with the project name. *)
Lemma render_interpolation_witness :
  Modules.renderTemplate "# " Sample.data = Ok "# "
  /\ Engine.renderTemplate Engine.NewEngine "# " Sample.data = Ok "# "
  /\ Modules.renderTemplate "# {{.ProjectName}} service" Sample.data = Ok "# demo service"
  /\ Engine.renderTemplate Engine.NewEngine "# {{.ProjectName}} service" Sample.data
     = Ok "# demo service".
Proof.
  exact (render_interpolation Engine.NewEngine "# " "ProjectName" " service"
           Sample.data eq_refl eq_refl eq_refl).
Defined.

(** X30.  Both renderers reject a template that ends inside a field action:
    text without a left brace, the left delimiter, a dot and a name, and
    then the end of the template.  The error is the parser's
    unclosed-action error with the line on which the action stands, one
    more than the number of line feeds in the text before it; whatever the
    data. *)
Theorem render_unclosed_action e pre key (data : gmap string Template.Value) :
  Strings.noByte "{" pre = true -> Template.isIdent key = true ->
  Modules.renderTemplate (pre +:+ "{{." +:+ key) data
  = Err ("template: template:" +:+ Template.showNat (1 + lineFeeds pre)
         +:+ ": unclosed action")
  /\ Engine.renderTemplate e (pre +:+ "{{." +:+ key) data
     = Err ("template: template:" +:+ Template.showNat (1 + lineFeeds pre)
            +:+ ": unclosed action").
Proof.
  intros Hpre Hkey. rewrite render_same.
  pose proof (render_unclosed pre key data Hpre Hkey) as H. split; exact H.
Qed.

(** X30 the template of the repository's test, and the same action on the
    third line of a template. *)
Lemma render_unclosed_action_witness :
  Modules.renderTemplate "{{.InvalidSyntax" Sample.data
  = Err "template: template:1: unclosed action"
  /\ Engine.renderTemplate Engine.NewEngine
       ("a" +:+ Modules.nl +:+ "b" +:+ Modules.nl +:+ "{{.InvalidSyntax") Sample.data
     = Err "template: template:3: unclosed action".
Proof.
  split.
  - exact (proj1 (render_unclosed_action Engine.NewEngine "" "InvalidSyntax" Sample.data
                    eq_refl eq_refl)).
  - exact (proj2 (render_unclosed_action Engine.NewEngine
                    ("a" +:+ Modules.nl +:+ "b" +:+ Modules.nl) "InvalidSyntax"
                    Sample.data eq_refl eq_refl)).
Defined.
